(** * The graph-query builder of aiida.backends.querybuild.querybuilder_base

    A shallow embedding of [QueryBuilderBase]: the parser of the queryhelp
    ([__init__], [_add_to_path], [_add_filter], [_add_projection]), the edge
    resolver ([_get_connecting_node]), the join emitters ([_join_outputs],
    [_join_inputs], ...), the query emitter ([_build_query]), the cached
    handle ([get_query]) and the chained operations ([inputs], [outputs],
    [children], [parents]).

    Python dictionaries keyed by labels are [gmap string _]; the builder
    instance is a record threaded through an exception monad. *)

From stdpp Require Import base option list gmap strings pretty.
From Stdlib Require Import Ascii ZArith Lia.

Open Scope string_scope.

(** ** Python string methods used by the builder *)

Module PyStr.

Definition dot : ascii := "."%char.

(** [s.lstrip('.')] *)
Fixpoint lstrip (s : string) : string :=
  match s with
  | String c s' => if Ascii.eqb c dot then lstrip s' else s
  | EmptyString => EmptyString
  end.

(** [s.strip('.')]: dots are removed at both ends. *)
Definition strip (s : string) : string :=
  String.rev (lstrip (String.rev (lstrip s))).

(** [s.split('.')]: never the empty list, [''.split('.') == ['']]. *)
Fixpoint split (s : string) : list string :=
  match s with
  | EmptyString => [EmptyString]
  | String c s' =>
      if Ascii.eqb c dot then EmptyString :: split s'
      else match split s' with
           | h :: t => String c h :: t
           | [] => [String c EmptyString]
           end
  end.

(** ['.'.join(l)] *)
Definition join (l : list string) : string := String.concat "." l.

(** [l[:-1]] *)
Definition init {A} (l : list A) : list A := removelast l.

(** [l[-1]] on a list that [split] returned (never empty). *)
Definition last_segment (l : list string) : string := List.last l "".

End PyStr.

(** ['.'.join(type.strip('.').split('.')[:-1])], the type string without its
    last segment: what [_add_to_path] calls [_plugin_type_spec]. *)
Definition plugin_type_spec (type : string) : string :=
  PyStr.join (PyStr.init (PyStr.split (PyStr.strip type))).

(** [s.strip('.').split('.')[-1]], the default label of a node class. *)
Definition last_type_segment (s : string) : string :=
  PyStr.last_segment (PyStr.split (PyStr.strip s)).

(** ['{}_{}'.format(type, i)] *)
Definition format_autolabel (type : string) (i : nat) : string :=
  type +:+ "_" +:+ pretty i.

(** ['{}%'.format(spec)] *)
Definition format_like (spec : string) : string := spec +:+ "%".

(** ** Python values *)

(** The classes a queryhelp can mention: subclasses of [AiidaNode] carry
    their [_plugin_type_string], subclasses of [AiidaGroup] do not, and any
    other class is refused by the builder. *)
Inductive ClsKind :=
| NodeClass (_plugin_type_string : string)
| GroupClass
| OtherClass.

Record PyClass := { cls_name : string; cls_kind : ClsKind }.

#[export] Instance ClsKind_eq_dec : EqDecision ClsKind.
Proof. solve_decision. Defined.

#[export] Instance PyClass_eq_dec : EqDecision PyClass.
Proof. solve_decision. Defined.

#[export] Instance PyClass_countable : Countable PyClass.
Proof.
  refine (inj_countable'
    (λ c, (cls_name c,
           match cls_kind c with
           | NodeClass s => inl s
           | GroupClass => inr true
           | OtherClass => inr false
           end))
    (λ p, {| cls_name := p.1;
             cls_kind := match p.2 with
                         | inl s => NodeClass s
                         | inr true => GroupClass
                         | inr false => OtherClass
                         end |}) _).
  intros [n [s| |]]; reflexivity.
Defined.

(** [self.AiidaNode], the base class of all nodes: its type string is empty,
    which is why [_add_to_path] reads [cls._plugin_type_string or 'node']. *)
Definition AiidaNode : PyClass := {| cls_name := "Node"; cls_kind := NodeClass "" |}.

(** The values that occur in a queryhelp. A dictionary nested in a value is
    kept as the list of its items. *)
#[local] Set Warnings "-register-all".
Inductive PyVal :=
| PNone
| PBool (b : bool)
| PInt (z : Z)
| PStr (s : string)
| PCls (c : PyClass)
| PList (l : list PyVal)
| PDict (d : list (PyVal * PyVal)).

(** Python truthiness, [bool(v)]. *)
Definition py_truthy (v : PyVal) : bool :=
  match v with
  | PNone => false
  | PBool b => b
  | PInt z => negb (Z.eqb z 0)
  | PStr s => negb (String.eqb s "")
  | PCls _ => true
  | PList l => match l with [] => false | _ => true end
  | PDict d => match d with [] => false | _ => true end
  end.

(** [v is None] *)
Definition is_None (v : PyVal) : bool :=
  match v with PNone => true | _ => false end.

Definition str_truthy (s : option string) : bool :=
  match s with
  | Some s => negb (String.eqb s "")
  | None => false
  end.

(** The exceptions the builder raises or lets through. *)
Inductive Exc :=
| InputValidationError (msg : string)
| AssertionError (msg : string)
| Exception (msg : string)
| NotImplementedError (msg : string)
| TypeError
| IndexError
| KeyError
| AttributeError
| LoopBound.  (* the bounded model of [while True] ran out; see [autolabel_total] *)

Inductive Result (A : Type) :=
| Raise (e : Exc)
| Return (a : A).
Arguments Raise {A} e.
Arguments Return {A} a.

#[export] Instance Result_ret : MRet Result := @Return.
#[export] Instance Result_bind : MBind Result :=
  λ A B f m, match m with Raise e => Raise e | Return a => f a end.
#[export] Instance Result_fmap : FMap Result :=
  λ A B f m, match m with Raise e => Raise e | Return a => Return (f a) end.

(** A filter specification of one label, [self.filters[label]]: a dictionary
    from column paths (or 'and'/'or') to operator dictionaries. *)
Abbreviation FilterSpec := (gmap string PyVal).

(** [dict(type = {'like': pattern})], the value stored under 'type'. *)
Definition like_filter (pattern : string) : PyVal :=
  PDict [(PStr "like", PStr pattern)].

(** ** The relational side: aliases, joins and the query handle *)

Inductive OrmClass :=
| DbNode | DbGroup | DbComputer       (* what [get_ormclass] can return *)
| DbLink                              (* [self.Link] *)
| DbPath                              (* [self.Path] *)
| table_groups_nodes.                 (* [self.table_groups_nodes] *)

(** [aliased(ormclass)]: every call yields a new alias object; the number
    stands for the identity of that object. *)
Record Alias := { alias_id : nat; alias_of : OrmClass }.

#[export] Instance OrmClass_eq_dec : EqDecision OrmClass.
Proof. solve_decision. Defined.
#[export] Instance Alias_eq_dec : EqDecision Alias.
Proof. solve_decision. Defined.

(** [alias.name], and [a == b] between two columns as an ON clause. *)
Record Column := { col_alias : Alias; col_name : string }.
Inductive OnClause := OnEq (lhs rhs : Column).

(** One [.join(target, onclause)]. *)
Record Join := { join_target : Alias; join_on : OnClause }.

(** The bound methods stored in [_get_function_map], by name; [call_join]
    below runs them. *)
Inductive JoinFunc :=
| JoinInputs | JoinOutputs | JoinSlaves | JoinMasters
| JoinAncestors | JoinDescendants | JoinGroups | JoinGroupMembers
| JoinComputerUsed.

(** The query handle [self.que]. [q_where] keeps, for every [.filter(...)],
    the alias and the specification handed to [analyze_filter_spec];
    [q_entities] keeps what the query returns per row. *)
Record Query := {
  q_from : Alias;
  q_joins : list Join;
  q_where : list (Alias * FilterSpec);
  q_entities : list (Alias * PyVal);
  q_order_by : list Column;
  q_limit : option PyVal
}.

(** [session.query(alias)] *)
Definition session_query (a : Alias) : Query :=
  {| q_from := a; q_joins := []; q_where := [];
     q_entities := [(a, PStr "*")]; q_order_by := []; q_limit := None |}.

Definition q_join (j : Join) (q : Query) : Query :=
  {| q_from := q_from q; q_joins := q_joins q ++ [j]; q_where := q_where q;
     q_entities := q_entities q; q_order_by := q_order_by q; q_limit := q_limit q |}.

Definition q_filter (e : Alias * FilterSpec) (q : Query) : Query :=
  {| q_from := q_from q; q_joins := q_joins q; q_where := q_where q ++ [e];
     q_entities := q_entities q; q_order_by := q_order_by q; q_limit := q_limit q |}.

Definition q_set_entities (es : list (Alias * PyVal)) (q : Query) : Query :=
  {| q_from := q_from q; q_joins := q_joins q; q_where := q_where q;
     q_entities := es; q_order_by := q_order_by q; q_limit := q_limit q |}.

Definition q_add_order_by (c : Column) (q : Query) : Query :=
  {| q_from := q_from q; q_joins := q_joins q; q_where := q_where q;
     q_entities := q_entities q; q_order_by := q_order_by q ++ [c]; q_limit := q_limit q |}.

Definition q_set_limit (l : PyVal) (q : Query) : Query :=
  {| q_from := q_from q; q_joins := q_joins q; q_where := q_where q;
     q_entities := q_entities q; q_order_by := q_order_by q; q_limit := Some l |}.

(** ** The abstract methods of [QueryBuilderBase] *)

(** [get_ormclass] is abstract in the base class: a backend chooses the
    table for a class and a type string. *)
Class Backend := {
  get_ormclass : PyVal → string → OrmClass
}.

(** Modelled from the spec: [add_projectable_entity] is abstract in the base
    class.  "Each projected spec" is added to the query in call order, ['*']
    standing for the full entity; the specification is returned as the key
    of the position map. *)
Definition add_projectable_entity (alias : Alias) (projectable_spec : PyVal)
    (q : Query) : PyVal * Query :=
  (projectable_spec, q_set_entities (q_entities q ++ [(alias, projectable_spec)]) q).

(** ** The builder instance *)

(** One entry of [self.path]:
    [{'type': type, 'label': label, joining_keyword: joining_value}]. *)
Record Vertex := {
  vx_type : string;
  vx_label : string;
  vx_joining_keyword : string;
  vx_joining_value : PyVal
}.

(** The attributes of a builder.  [que] is [None] as long as the instance
    has no attribute [que] (what [hasattr(self, 'que')] tests); likewise
    [labels_location_dict].  [limit] and [order_by] hold a placeholder until
    [__init__] assigns them.  [alias_counter] numbers the alias objects. *)
Record QB := {
  path : list Vertex;
  label_list : list string;
  alias_list : list Alias;
  alias_dict : gmap string Alias;
  filters : gmap string FilterSpec;
  projections : gmap string PyVal;
  cls_to_label_map : gmap PyClass string;
  limit : PyVal;
  order_by : PyVal;
  labels_location_dict : option (gmap string nat);
  label_to_projected_entity_dict : gmap string (list (PyVal * nat));
  que : option Query;
  alias_counter : nat
}.

Definition new_QB : QB :=
  {| path := []; label_list := []; alias_list := []; alias_dict := ∅;
     filters := ∅; projections := ∅; cls_to_label_map := ∅;
     limit := PNone; order_by := PNone; labels_location_dict := None;
     label_to_projected_entity_dict := ∅; que := None; alias_counter := 0 |}.

Definition set_path (v : list Vertex) (b : QB) : QB :=
  {| path := v; label_list := label_list b; alias_list := alias_list b;
     alias_dict := alias_dict b; filters := filters b;
     projections := projections b; cls_to_label_map := cls_to_label_map b;
     limit := limit b; order_by := order_by b;
     labels_location_dict := labels_location_dict b;
     label_to_projected_entity_dict := label_to_projected_entity_dict b;
     que := que b; alias_counter := alias_counter b |}.

Definition set_label_list (v : list string) (b : QB) : QB :=
  {| path := path b; label_list := v; alias_list := alias_list b;
     alias_dict := alias_dict b; filters := filters b;
     projections := projections b; cls_to_label_map := cls_to_label_map b;
     limit := limit b; order_by := order_by b;
     labels_location_dict := labels_location_dict b;
     label_to_projected_entity_dict := label_to_projected_entity_dict b;
     que := que b; alias_counter := alias_counter b |}.

(** [alias = aliased(ormclass); self.alias_list.append(alias);
     self.alias_dict[label] = alias] *)
Definition add_alias (label : string) (ormclass : OrmClass) (b : QB) : QB :=
  let alias := {| alias_id := alias_counter b; alias_of := ormclass |} in
  {| path := path b; label_list := label_list b;
     alias_list := alias_list b ++ [alias];
     alias_dict := <[label := alias]> (alias_dict b); filters := filters b;
     projections := projections b; cls_to_label_map := cls_to_label_map b;
     limit := limit b; order_by := order_by b;
     labels_location_dict := labels_location_dict b;
     label_to_projected_entity_dict := label_to_projected_entity_dict b;
     que := que b; alias_counter := S (alias_counter b) |}.

Definition set_filters (v : gmap string FilterSpec) (b : QB) : QB :=
  {| path := path b; label_list := label_list b; alias_list := alias_list b;
     alias_dict := alias_dict b; filters := v;
     projections := projections b; cls_to_label_map := cls_to_label_map b;
     limit := limit b; order_by := order_by b;
     labels_location_dict := labels_location_dict b;
     label_to_projected_entity_dict := label_to_projected_entity_dict b;
     que := que b; alias_counter := alias_counter b |}.

Definition set_projections (v : gmap string PyVal) (b : QB) : QB :=
  {| path := path b; label_list := label_list b; alias_list := alias_list b;
     alias_dict := alias_dict b; filters := filters b;
     projections := v; cls_to_label_map := cls_to_label_map b;
     limit := limit b; order_by := order_by b;
     labels_location_dict := labels_location_dict b;
     label_to_projected_entity_dict := label_to_projected_entity_dict b;
     que := que b; alias_counter := alias_counter b |}.

Definition set_cls_to_label_map (v : gmap PyClass string) (b : QB) : QB :=
  {| path := path b; label_list := label_list b; alias_list := alias_list b;
     alias_dict := alias_dict b; filters := filters b;
     projections := projections b; cls_to_label_map := v;
     limit := limit b; order_by := order_by b;
     labels_location_dict := labels_location_dict b;
     label_to_projected_entity_dict := label_to_projected_entity_dict b;
     que := que b; alias_counter := alias_counter b |}.

Definition set_limit (v : PyVal) (b : QB) : QB :=
  {| path := path b; label_list := label_list b; alias_list := alias_list b;
     alias_dict := alias_dict b; filters := filters b;
     projections := projections b; cls_to_label_map := cls_to_label_map b;
     limit := v; order_by := order_by b;
     labels_location_dict := labels_location_dict b;
     label_to_projected_entity_dict := label_to_projected_entity_dict b;
     que := que b; alias_counter := alias_counter b |}.

Definition set_order_by (v : PyVal) (b : QB) : QB :=
  {| path := path b; label_list := label_list b; alias_list := alias_list b;
     alias_dict := alias_dict b; filters := filters b;
     projections := projections b; cls_to_label_map := cls_to_label_map b;
     limit := limit b; order_by := v;
     labels_location_dict := labels_location_dict b;
     label_to_projected_entity_dict := label_to_projected_entity_dict b;
     que := que b; alias_counter := alias_counter b |}.

Definition set_labels_location_dict (v : gmap string nat) (b : QB) : QB :=
  {| path := path b; label_list := label_list b; alias_list := alias_list b;
     alias_dict := alias_dict b; filters := filters b;
     projections := projections b; cls_to_label_map := cls_to_label_map b;
     limit := limit b; order_by := order_by b;
     labels_location_dict := Some v;
     label_to_projected_entity_dict := label_to_projected_entity_dict b;
     que := que b; alias_counter := alias_counter b |}.

Definition set_label_to_projected_entity_dict
    (v : gmap string (list (PyVal * nat))) (b : QB) : QB :=
  {| path := path b; label_list := label_list b; alias_list := alias_list b;
     alias_dict := alias_dict b; filters := filters b;
     projections := projections b; cls_to_label_map := cls_to_label_map b;
     limit := limit b; order_by := order_by b;
     labels_location_dict := labels_location_dict b;
     label_to_projected_entity_dict := v;
     que := que b; alias_counter := alias_counter b |}.

Definition set_que (v : Query) (b : QB) : QB :=
  {| path := path b; label_list := label_list b; alias_list := alias_list b;
     alias_dict := alias_dict b; filters := filters b;
     projections := projections b; cls_to_label_map := cls_to_label_map b;
     limit := limit b; order_by := order_by b;
     labels_location_dict := labels_location_dict b;
     label_to_projected_entity_dict := label_to_projected_entity_dict b;
     que := Some v; alias_counter := alias_counter b |}.

(** [aliased(self.Link)] and the like while the query is built: a new alias
    object that is stored nowhere on the instance. *)
Definition fresh_alias (ormclass : OrmClass) (b : QB) : Alias * QB :=
  ({| alias_id := alias_counter b; alias_of := ormclass |},
   {| path := path b; label_list := label_list b; alias_list := alias_list b;
      alias_dict := alias_dict b; filters := filters b;
      projections := projections b; cls_to_label_map := cls_to_label_map b;
      limit := limit b; order_by := order_by b;
      labels_location_dict := labels_location_dict b;
      label_to_projected_entity_dict := label_to_projected_entity_dict b;
      que := que b; alias_counter := S (alias_counter b) |}).

(** ** The parser: [_add_to_path] *)

(** The [filters] argument of a vertex when it is not [None]. *)
Inductive FiltersArg :=
| FiltersDict (d : FilterSpec)
| FiltersNotDict.

(** The keyword arguments of [_add_to_path]; [kw_kwargs] is [**kwargs], the
    joining specification.  [PNone] and [None] stand for an argument left at
    its default [None]. *)
Record VertexKw := {
  kw_cls : PyVal;
  kw_type : option string;
  kw_label : option string;
  kw_autolabel : bool;
  kw_filters : option FiltersArg;
  kw_project : PyVal;
  kw_kwargs : list (string * PyVal)
}.

(** [_get_function_map()], in the order of the source. *)
Definition _get_function_map : list (string * option JoinFunc) :=
  [ ("input_of", Some JoinInputs);
    ("output_of", Some JoinOutputs);
    ("slave_of", Some JoinSlaves);
    ("master_of", Some JoinMasters);
    ("ancestor_of", Some JoinAncestors);
    ("descendant_of", Some JoinDescendants);
    ("direction", None);
    ("group_of", Some JoinGroups);
    ("member_of", Some JoinGroupMembers);
    ("used_by", Some JoinComputerUsed) ].

Definition specification_to_function_map_keys : list string :=
  _get_function_map.*1.

(** [v in self.label_list]: labels are strings, so only a string can be
    among them. *)
Definition in_label_list (v : PyVal) (b : QB) : bool :=
  match v with
  | PStr s => bool_decide (s ∈ label_list b)
  | _ => false
  end.

(** The class branch of [_add_to_path]: from [cls] (truthy) and [label] to
    the type string and the label. *)
Definition type_of_cls (cls : PyVal) (label : option string)
    : Result (string * option string) :=
  match cls with
  | PCls c =>
      match cls_kind c with
      | NodeClass pts =>
          Return (if String.eqb pts "" then "node" else pts,
                  match label with
                  | None => Some (last_type_segment pts)
                  | Some _ => label
                  end)
      | GroupClass => Return ("group", label)
      | OtherClass => Raise (InputValidationError "I do not know what to do with")
      end
  | _ => Raise (InputValidationError "was passed with kw 'cls', but is not a class")
  end.

(** The [while True] loop that looks for a free label [type_i]. *)
Fixpoint autolabel_loop (fuel : nat) (type : string) (labels : list string)
    (i : nat) : option string :=
  match fuel with
  | O => None
  | S fuel' =>
      let label := format_autolabel type i in
      if bool_decide (label ∈ labels) then autolabel_loop fuel' type labels (S i)
      else Some label
  end.

Definition autolabel (type : string) (labels : list string) : option string :=
  autolabel_loop (S (length labels)) type labels 1.

(** The choice of the label: given, automatic, or the type string. *)
Definition choose_label (label : option string) (autolabel_flag : bool)
    (type : string) (b : QB) : Result string :=
  if str_truthy label then Return (default "" label)
  else if autolabel_flag then
    match autolabel type (label_list b) with
    | Some l => Return l
    | None => Raise LoopBound
    end
  else
    if bool_decide (type ∈ label_list b)
    then Raise (InputValidationError "Label is not unique, choose different label")
    else Return type.

(** The injection of the filter on the type column. *)
Definition inject_type_filter (type label : string) (b : QB) : Result QB :=
  if bool_decide (type ∈ ["computer"; "group"]) then Return b
  else
    let _plugin_type_spec := plugin_type_spec type in
    if negb (String.eqb _plugin_type_spec "") then
      Return (set_filters
        (<[label := {["type" := like_filter (format_like _plugin_type_spec)]}
                    ∪ default ∅ (filters b !! label)]> (filters b)) b)
    else if String.eqb type "node" then Return b
    else Raise (InputValidationError "does not provide me with a filter on type").

(** The loop over [kwargs.items()]. [joining] is the pair
    [joining_keyword, joining_value], [None] while both are [None]. *)
Fixpoint joining_loop (b : QB) (kwargs : list (string * PyVal))
    (joining : option (string * PyVal)) : Result (option (string * PyVal)) :=
  match kwargs with
  | [] => Return joining
  | (k, v) :: rest =>
      if negb (bool_decide (k ∈ specification_to_function_map_keys)) then
        Raise (InputValidationError "is not a valid keyword for joining specification")
      else if bool_decide (is_Some joining) then
        Raise (InputValidationError "You already specified joining specification")
      else if in_label_list v b then joining_loop b rest (Some (k, v))
      else
        match v with
        | PCls c =>
            match cls_to_label_map b !! c with
            | Some l => joining_loop b rest (Some (k, PStr l))
            | None => Raise (InputValidationError "But it is not among my labels")
            end
        | PList _ | PDict _ => Raise TypeError   (* unhashable *)
        | _ => Raise (InputValidationError "But it is not among my labels")
        end
  end.

(** A value that is a list (or tuple), or else the list [[v]] of it. *)
Definition as_list (v : PyVal) : list PyVal :=
  match v with
  | PList l => l
  | _ => [v]
  end.

(** The first checks of [_add_to_path]: exactly one of [cls] and [type],
    and the type string and label that a class stands for. *)
Definition resolve_type (kw : VertexKw) : Result (string * option string) :=
  let cls := kw_cls kw in
  if py_truthy cls && str_truthy (kw_type kw) then
    Raise (InputValidationError "You cannot specify both a class and a type")
  else if negb (py_truthy cls || str_truthy (kw_type kw)) then
    Raise (InputValidationError "You need to specify either a class or a type")
  else if py_truthy cls then type_of_cls cls (kw_label kw)
  else Return (default "" (kw_type kw), kw_label kw).

(** [if cls and cls not in self.cls_to_label_map.keys():
       self.cls_to_label_map[cls] = label] *)
Definition bind_cls (cls : PyVal) (label : string) (self : QB) : QB :=
  match cls with
  | PCls c =>
      if bool_decide (is_Some (cls_to_label_map self !! c)) then self
      else set_cls_to_label_map (<[c := label]> (cls_to_label_map self)) self
  | _ => self
  end.

(** The assertion on [self.filters], [self.filters[label] = {}] and the
    update with the filters of the vertex. *)
Definition init_filters (label : string) (filters_arg : option FiltersArg)
    (self : QB) : Result QB :=
  if bool_decide (is_Some (filters self !! label)) then
    Raise (AssertionError "Why is label already a key in filters?")
  else
    let self := set_filters (<[label := ∅]> (filters self)) self in
    match filters_arg with
    | None => Return self
    | Some FiltersNotDict =>
        Raise (InputValidationError "Filters have to be passed as dictionaries")
    | Some (FiltersDict d) =>
        Return (set_filters (<[label := d ∪ default ∅ (filters self !! label)]>
                               (filters self)) self)
    end.

(** The assertion on [self.projections], [self.projections[label] = []] and
    the projections of the vertex appended to it. *)
Definition init_projections (label : string) (project : PyVal) (self : QB)
    : Result QB :=
  if bool_decide (is_Some (projections self !! label)) then
    Raise (AssertionError "Why is label already a key in the projections?")
  else
    let self := set_projections (<[label := PList []]> (projections self)) self in
    match project with
    | PNone => Return self
    | _ => Return (set_projections
                     (<[label := PList ([] ++ as_list project)]> (projections self)) self)
    end.

(** The filter specification of a vertex after [inject_type_filter], from
    the specification [f0] it had before. *)
Definition type_filter_of (type : string) (f0 : FilterSpec) : FilterSpec :=
  if bool_decide (type ∈ ["computer"; "group"]) then f0
  else if String.eqb (plugin_type_spec type) "" then f0
  else <["type" := like_filter (format_like (plugin_type_spec type))]> f0.

Section Builder.
Context `{Backend}.

Definition _add_to_path (kw : VertexKw) (self : QB) : Result (string * QB) :=
  '(type, label) ← resolve_type kw;
  label ← choose_label label (kw_autolabel kw) type self;
  let self := set_label_list (label_list self ++ [label]) self in
  let self := bind_cls (kw_cls kw) label self in
  self ← init_filters label (kw_filters kw) self;
  self ← init_projections label (kw_project kw) self;
  self ← inject_type_filter type label self;
  let ormclass := get_ormclass (kw_cls kw) type in
  let self := add_alias label ormclass self in
  joining ← joining_loop self (kw_kwargs kw) None;
  let '(joining_keyword, joining_value) := default ("direction", PInt 1) joining in
  Return (label,
          set_path (path self ++ [ {| vx_type := type; vx_label := label;
                                      vx_joining_keyword := joining_keyword;
                                      vx_joining_value := joining_value |} ]) self).

(** The instance after a call of [_add_to_path] that returned [label]. *)
Definition added_vertex (kw : VertexKw) (self : QB) (type label : string)
    (f : FilterSpec) (p : PyVal) (jk : string) (jv : PyVal) : QB :=
  {| path := path self ++ [ {| vx_type := type; vx_label := label;
                               vx_joining_keyword := jk; vx_joining_value := jv |} ];
     label_list := label_list self ++ [label];
     alias_list := alias_list self ++
       [ {| alias_id := alias_counter self; alias_of := get_ormclass (kw_cls kw) type |} ];
     alias_dict := <[label := {| alias_id := alias_counter self;
                                  alias_of := get_ormclass (kw_cls kw) type |}]>
                     (alias_dict self);
     filters := <[label := f]> (filters self);
     projections := <[label := p]> (projections self);
     cls_to_label_map := cls_to_label_map (bind_cls (kw_cls kw) label self);
     limit := limit self; order_by := order_by self;
     labels_location_dict := labels_location_dict self;
     label_to_projected_entity_dict := label_to_projected_entity_dict self;
     que := que self; alias_counter := S (alias_counter self) |}.

(** [_add_filter(key, filter_spec)] *)
Definition _add_filter (key : PyVal) (filter_spec : FilterSpec) (self : QB)
    : Result QB :=
  if in_label_list key self then
    match key with
    | PStr k =>
        match filters self !! k with
        | Some f => Return (set_filters (<[k := filter_spec ∪ f]> (filters self)) self)
        | None => Raise KeyError
        end
    | _ => Return self
    end
  else
    match key with
    | PCls c =>
        match cls_to_label_map self !! c with
        | Some k =>
            match filters self !! k with
            | Some f => Return (set_filters (<[k := filter_spec ∪ f]> (filters self)) self)
            | None => Raise KeyError
            end
        | None =>
            Raise (InputValidationError "Cannot add filter specification to any known label")
        end
    | _ => Raise (InputValidationError "Cannot add filter specification to any known label")
    end.

(** [_add_projection(key, projection_spec)] *)
Definition _add_projection (key : PyVal) (projection_spec : PyVal) (self : QB)
    : Result QB :=
  if in_label_list key self then
    match key with
    | PStr k => Return (set_projections (<[k := projection_spec]> (projections self)) self)
    | _ => Return self
    end
  else
    match key with
    | PCls c =>
        match cls_to_label_map self !! c with
        | Some k => Return (set_projections (<[k := projection_spec]> (projections self)) self)
        | None =>
            Raise (InputValidationError "Cannot add projection specification to any known label")
        end
    | _ => Raise (InputValidationError "Cannot add projection specification to any known label")
    end.

(** ** The parser: [__init__] *)

(** [replacement_dict.get(inp, inp)] on a value that is neither a
    dictionary, a list nor a class: of the keys 'float', 'int', 'JSONB' and
    'str' only 'JSONB' is not mapped to itself. *)
Definition replacement (inp : PyVal) : PyVal :=
  match inp with
  | PStr s => if String.eqb s "JSONB" then PStr "jsonb" else inp
  | _ => inp
  end.

(** [make_json_compatible(inp)].  Two keys of one dictionary that the
    conversion makes equal are both kept in the list of items. *)
Fixpoint make_json_compatible (inp : PyVal) : Result PyVal :=
  match inp with
  | PDict d =>
      PDict <$>
        (fix items (d : list (PyVal * PyVal)) : Result (list (PyVal * PyVal)) :=
           match d with
           | [] => Return []
           | (key, val) :: d' =>
               val' ← make_json_compatible val;
               key' ← make_json_compatible key;
               rest ← items d';
               Return ((key', val') :: rest)
           end) d
  | PList l =>
      PList <$>
        (fix elems (l : list PyVal) : Result (list PyVal) :=
           match l with
           | [] => Return []
           | val :: l' =>
               val' ← make_json_compatible val;
               rest ← elems l';
               Return (val' :: rest)
           end) l
  | PCls c =>
      match cls_kind c with
      | NodeClass pts => Return (PStr (plugin_type_spec pts))
      | GroupClass => Return (PStr "group")
      | OtherClass => Raise (InputValidationError "")
      end
  | _ => Return (replacement inp)
  end.

(** One item of the path of a queryhelp: a dictionary of keyword arguments,
    a bare type string, or anything else (a class, as a rule). *)
Inductive PathSpec :=
| PSDict (kw : VertexKw)
| PSStr (s : string)
| PSOther (v : PyVal).

(** The value under 'path': a list (or tuple), or a single item. *)
Inductive PathArg :=
| PathList (l : list PathSpec)
| PathOne (p : PathSpec).

(** The queryhelp, a dictionary with the key 'path'.  [qh_limit] and
    [qh_order_by] are [None] when the key is absent; [qh_other_keys] are the
    keys that [__init__] does not pop.  The items of 'project' and 'filters'
    come in the order in which the dictionary yields them. *)
Record QueryHelp := {
  qh_path : PathArg;
  qh_project : list (PyVal * PyVal);
  qh_filters : list (PyVal * FilterSpec);
  qh_limit : option PyVal;
  qh_order_by : option PyVal;
  qh_other_keys : list string
}.

(** A queryhelp that is not a dictionary is wrapped: [{'path': queryhelp}]. *)
Definition bare_queryhelp (p : PathArg) : QueryHelp :=
  {| qh_path := p; qh_project := []; qh_filters := []; qh_limit := None;
     qh_order_by := None; qh_other_keys := [] |}.

Definition kw_default : VertexKw :=
  {| kw_cls := PNone; kw_type := None; kw_label := None; kw_autolabel := false;
     kw_filters := None; kw_project := PNone; kw_kwargs := [] |}.

Definition kw_of_type (s : string) : VertexKw :=
  {| kw_cls := PNone; kw_type := Some s; kw_label := None; kw_autolabel := false;
     kw_filters := None; kw_project := PNone; kw_kwargs := [] |}.

Definition kw_of_cls (v : PyVal) : VertexKw :=
  {| kw_cls := v; kw_type := None; kw_label := None; kw_autolabel := false;
     kw_filters := None; kw_project := PNone; kw_kwargs := [] |}.

(** The body of the loop over the path: [_add_to_path] applied to the unpacked item, and on
    a [TypeError] the call with [type = path_spec] for a string and with the
    item as [cls] otherwise.  A dictionary reaches the handler only when one
    of its joining values is unhashable; it is then passed as [cls] and
    refused as not being a class. *)
Definition add_path_spec (path_spec : PathSpec) (self : QB) : Result QB :=
  match path_spec with
  | PSDict kw =>
      match _add_to_path kw self with
      | Raise TypeError =>
          snd <$> _add_to_path
            (kw_of_cls (PDict (map (λ kv, (PStr kv.1, kv.2)) (kw_kwargs kw)))) self
      | r => snd <$> r
      end
  | PSStr s => snd <$> _add_to_path (kw_of_type s) self
  | PSOther v => snd <$> _add_to_path (kw_of_cls v) self
  end.

(** [for x in xs: self = body(x, self)] with exceptions. *)
Fixpoint for_each {A} (body : A → QB → Result QB) (xs : list A) (self : QB)
    : Result QB :=
  match xs with
  | [] => Return self
  | x :: xs' => self' ← body x self; for_each body xs' self'
  end.

Definition path_items (p : PathArg) : list PathSpec :=
  match p with
  | PathList l => l
  | PathOne x => [x]
  end.

Definition __init__ (queryhelp : QueryHelp) : Result QB :=
  self ← for_each add_path_spec (path_items (qh_path queryhelp)) new_QB;
  self ← for_each (λ kv, _add_projection kv.1 kv.2) (qh_project queryhelp) self;
  self ← for_each (λ kv, _add_filter kv.1 kv.2) (qh_filters queryhelp) self;
  let self := set_limit (default (PBool false) (qh_limit queryhelp)) self in
  order_by ← make_json_compatible (default (PDict []) (qh_order_by queryhelp));
  let self := set_order_by order_by self in
  if bool_decide (qh_other_keys queryhelp = []) then Return self
  else Raise (InputValidationError "Received additional keywords").

(** [get_dict()], as the queryhelp it is: every vertex of the path is a
    dictionary with the keys 'type', 'label' and its joining keyword. *)
Definition get_dict (self : QB) : QueryHelp :=
  {| qh_path := PathList (map (λ v,
        PSDict {| kw_cls := PNone; kw_type := Some (vx_type v);
                  kw_label := Some (vx_label v); kw_autolabel := false;
                  kw_filters := None; kw_project := PNone;
                  kw_kwargs := [(vx_joining_keyword v, vx_joining_value v)] |})
        (path self));
     qh_filters := map (λ kv, (PStr kv.1, kv.2)) (map_to_list (filters self));
     qh_project := map (λ kv, (PStr kv.1, kv.2)) (map_to_list (projections self));
     qh_limit := Some (limit self);
     qh_order_by := Some (order_by self);
     qh_other_keys := [] |}.

(** ** The join emitters *)

Definition col (a : Alias) (name : string) : Column :=
  {| col_alias := a; col_name := name |}.

(** Reading [self.que]. *)
Definition get_que (self : QB) : Result Query :=
  match que self with
  | Some q => Return q
  | None => Raise AttributeError
  end.

(** [self.que = self.que.join(t1, on1).join(t2, on2)] *)
Definition join_twice (t1 : Alias) (on1 : OnClause) (t2 : Alias) (on2 : OnClause)
    (self : QB) : Result QB :=
  q ← get_que self;
  Return (set_que
    (q_join {| join_target := t2; join_on := on2 |}
       (q_join {| join_target := t1; join_on := on1 |} q)) self).

Definition _join_slaves (joined_entity entity_to_join : Alias) (self : QB) : Result QB :=
  Raise (NotImplementedError "Master - slave relationships are not implemented").

Definition _join_masters (joined_entity entity_to_join : Alias) (self : QB) : Result QB :=
  Raise (NotImplementedError "Master - slave relationships are not implemented").

Definition _join_outputs (joined_entity entity_to_join : Alias) (self : QB) : Result QB :=
  let '(aliased_link, self) := fresh_alias DbLink self in
  join_twice
    aliased_link (OnEq (col aliased_link "input_id") (col joined_entity "id"))
    entity_to_join (OnEq (col aliased_link "output_id") (col entity_to_join "id"))
    self.

Definition _join_inputs (joined_entity entity_to_join : Alias) (self : QB) : Result QB :=
  let '(aliased_link, self) := fresh_alias DbLink self in
  join_twice
    aliased_link (OnEq (col aliased_link "output_id") (col joined_entity "id"))
    entity_to_join (OnEq (col aliased_link "input_id") (col entity_to_join "id"))
    self.

Definition _join_descendants (joined_entity entity_to_join : Alias) (self : QB) : Result QB :=
  let '(aliased_path, self) := fresh_alias DbPath self in
  join_twice
    aliased_path (OnEq (col aliased_path "parent_id") (col joined_entity "id"))
    entity_to_join (OnEq (col aliased_path "child_id") (col entity_to_join "id"))
    self.

Definition _join_ancestors (joined_entity entity_to_join : Alias) (self : QB) : Result QB :=
  let '(aliased_path, self) := fresh_alias DbPath self in
  join_twice
    aliased_path (OnEq (col aliased_path "child_id") (col joined_entity "id"))
    entity_to_join (OnEq (col aliased_path "parent_id") (col entity_to_join "id"))
    self.

Definition _join_group_members (joined_entity entity_to_join : Alias) (self : QB) : Result QB :=
  let '(aliased_group_nodes, self) := fresh_alias table_groups_nodes self in
  join_twice
    aliased_group_nodes (OnEq (col aliased_group_nodes "dbgroup_id") (col joined_entity "id"))
    entity_to_join (OnEq (col entity_to_join "id") (col aliased_group_nodes "dbnode_id"))
    self.

Definition _join_groups (joined_entity entity_to_join : Alias) (self : QB) : Result QB :=
  let '(aliased_group_nodes, self) := fresh_alias table_groups_nodes self in
  join_twice
    aliased_group_nodes (OnEq (col aliased_group_nodes "dbnode_id") (col joined_entity "id"))
    entity_to_join (OnEq (col entity_to_join "id") (col aliased_group_nodes "dbgroup_id"))
    self.

Definition _join_computer_used (joined_entity entity_to_join : Alias) (self : QB) : Result QB :=
  q ← get_que self;
  Return (set_que
    (q_join {| join_target := entity_to_join;
               join_on := OnEq (col entity_to_join "id") (col joined_entity "dbcomputer_id") |} q)
    self).

(** Calling a method taken from [_get_function_map]. *)
Definition call_join (func : JoinFunc) : Alias → Alias → QB → Result QB :=
  match func with
  | JoinInputs => _join_inputs
  | JoinOutputs => _join_outputs
  | JoinSlaves => _join_slaves
  | JoinMasters => _join_masters
  | JoinAncestors => _join_ancestors
  | JoinDescendants => _join_descendants
  | JoinGroups => _join_groups
  | JoinGroupMembers => _join_group_members
  | JoinComputerUsed => _join_computer_used
  end.

(** ** The edge resolver: [_get_connecting_node] *)

(** [l[i]] for a Python integer [i]: negative indices count from the end. *)
Definition py_index {A} (l : list A) (i : Z) : Result A :=
  let n := Z.of_nat (length l) in
  if bool_decide (0 ≤ i < n)%Z then
    match l !! Z.to_nat i with Some x => Return x | None => Raise IndexError end
  else if bool_decide (- n ≤ i < 0)%Z then
    match l !! Z.to_nat (n + i) with Some x => Return x | None => Raise IndexError end
  else Raise IndexError.

(** The branch taken for a direction: the joining function and the index
    [val].  A direction that is not a number ends in a [TypeError] when it is
    added to the index. *)
Definition resolve_direction (direction : PyVal) (index : nat)
    : Result (JoinFunc * Z) :=
  match direction with
  | PInt d =>
      if bool_decide (d > 0)%Z then Return (JoinOutputs, (Z.of_nat index - d)%Z)
      else if bool_decide (d < 0)%Z then Return (JoinInputs, (Z.of_nat index + d)%Z)
      else Raise (Exception "Direction 0 is not valid")
  | PBool true => Return (JoinOutputs, (Z.of_nat index - 1)%Z)
  | PBool false => Raise (Exception "Direction 0 is not valid")
  | _ => Raise TypeError
  end.

(** [_get_connecting_node(querydict, index)].  A vertex of the path has one
    joining keyword, so the loop over the function map stops at that key;
    when the key is not in the map the loop ends with [val = None]. *)
Definition _get_connecting_node (self : QB) (querydict : Vertex) (index : nat)
    : Result (Alias * JoinFunc) :=
  let found :=
    list_find (λ kf, kf.1 = vx_joining_keyword querydict) _get_function_map in
  '(func, val) ←
    match found with
    | Some (_, (key, func)) =>
        let val := vx_joining_value querydict in
        if is_None val || String.eqb key "direction" then
          let direction :=
            if String.eqb (vx_joining_keyword querydict) "direction"
            then vx_joining_value querydict else PInt 1 in
          '(func, val) ← resolve_direction direction index;
          Return (Some func, PInt val)
        else Return (func, val)
    | None =>
        '(func, val) ← resolve_direction (PInt 1) index;
        Return (Some func, PInt val)
    end;
  match val with
  | PInt z =>
      a ← py_index (alias_list self) z;
      match func with Some f => Return (a, f) | None => Raise TypeError end
  | PBool b =>
      a ← py_index (alias_list self) (if b then 1 else 0)%Z;
      match func with Some f => Return (a, f) | None => Raise TypeError end
  | PStr s =>
      match labels_location_dict self with
      | None => Raise (Exception "List of types is not unique")
      | Some d =>
          match d !! s with
          | None => Raise (Exception "Key is unknown to the types I know about")
          | Some val =>
              a ← py_index (alias_list self) (Z.of_nat val);
              match func with Some f => Return (a, f) | None => Raise TypeError end
          end
      end
  | _ => Raise (Exception "Unrecognized connection specification")
  end.

(** ** The query emitter: [_build_query] *)

(** [{label: index for index, label in enumerate(self.label_list)}]; the
    labels are pairwise distinct where it is built, so no key is written
    twice. *)
Definition make_labels_location_dict (labels : list string) : gmap string nat :=
  list_to_map (imap (λ index label, (label, index)) labels).

(** The body of the loop over the joins. *)
Definition join_step (item : nat * Alias * Vertex) (self : QB) : Result QB :=
  let '(index, alias, querydict) := item in
  if bool_decide (index = 0) then Return self
  else
    '(toconnectwith, connection_func) ← _get_connecting_node self querydict index;
    call_join connection_func toconnectwith alias self.

(** [zip(range(len(self.alias_list)), self.alias_list, self.path)] *)
Definition join_items (self : QB) : list (nat * Alias * Vertex) :=
  zip (zip (seq 0 (length (alias_list self))) (alias_list self)) (path self).

(** Modelled from the spec: [analyze_filter_spec] is abstract in the base
    class (a backend lowers the specification to a boolean expression over
    the alias).  The query keeps the alias and the specification of every
    filter that is attached. *)
Definition analyze_filter_spec (alias : Alias) (filter_spec : FilterSpec)
    : Alias * FilterSpec :=
  (alias, filter_spec).

(** The body of the loop over [self.filters.items()]. *)
Definition filter_step (item : string * FilterSpec) (self : QB) : Result QB :=
  let '(label, filter_specs) := item in
  match alias_dict self !! label with
  | None => Raise (InputValidationError "You looked for label among the alias list")
  | Some alias =>
      q ← get_que self;
      Return (set_que (q_filter (analyze_filter_spec alias filter_specs) q) self)
  end.

(** [any(self.projections.values())] *)
Definition any_projection (self : QB) : bool :=
  existsb py_truthy (map_to_list (projections self)).*2.

(** The inner loop over [items_to_project]; [position] is
    [position_index + 1], [entry] is
    [self.label_to_projected_entity_dict[label]] as the list of its items in
    the order they were written. *)
Fixpoint project_items (alias : Alias) (items : list PyVal) (q : Query)
    (position : nat) (entry : list (PyVal * nat))
    : Query * nat * list (PyVal * nat) :=
  match items with
  | [] => (q, position, entry)
  | projectable_spec :: rest =>
      let '(projectable_spec, q) := add_projectable_entity alias projectable_spec q in
      project_items alias rest q (S position) (entry ++ [(projectable_spec, position)])
  end.

(** The loop over [self.path] that projects. *)
Fixpoint project_loop (vertices : list Vertex) (position : nat) (self : QB)
    : Result QB :=
  match vertices with
  | [] => Return self
  | vertice :: rest =>
      let label := vx_label vertice in
      let items_to_project := default (PList []) (projections self !! label) in
      if negb (py_truthy items_to_project) then project_loop rest position self
      else
        match alias_dict self !! label with
        | None => Raise KeyError
        | Some alias =>
            q ← get_que self;
            let '(q, position, entry) :=
              project_items alias (as_list items_to_project) q position [] in
            let self :=
              set_label_to_projected_entity_dict
                (<[label := entry]> (label_to_projected_entity_dict self))
                (set_que q self) in
            project_loop rest position self
        end
  end.

(** [get_column(colname, alias)]: the attribute [colname] of the alias.  The
    columns a table has are not part of the model. *)
Definition get_column (colname : PyVal) (alias : Alias) : Result Column :=
  match colname with
  | PStr name => Return (col alias name)
  | _ => Raise TypeError
  end.

(** The loops of the ORDER section. *)
Fixpoint order_columns (alias : Alias) (val : list PyVal) (self : QB) : Result QB :=
  match val with
  | [] => Return self
  | colname :: rest =>
      c ← get_column colname alias;
      q ← get_que self;
      order_columns alias rest (set_que (q_add_order_by c q) self)
  end.

Definition order_item (item : PyVal * PyVal) (self : QB) : Result QB :=
  let '(key, val) := item in
  match key with
  | PStr k =>
      match alias_dict self !! k with
      | Some alias => order_columns alias (as_list val) self
      | None => Raise KeyError
      end
  | _ => Raise KeyError
  end.

Definition order_spec_step (order_spec : PyVal) (self : QB) : Result QB :=
  match order_spec with
  | PDict items => for_each order_item items self
  | _ => Raise (InputValidationError "Invalid input for order_by statement")
  end.

Definition build_order (self : QB) : Result QB :=
  if py_truthy (order_by self) then
    let self :=
      match order_by self with
      | PList _ => self
      | o => set_order_by (PList [o]) self
      end in
    for_each order_spec_step (as_list (order_by self)) self
  else Return self.

Definition _build_query (self : QB) : Result (Query * QB) :=
  if negb (bool_decide (NoDup (label_list self))) then
    Raise (InputValidationError "Labels are not unique")
  else
  let self := set_labels_location_dict (make_labels_location_dict (label_list self)) self in
  first_alias ← py_index (alias_list self) 0;
  let self := set_que (session_query first_alias) self in
  (* joins *)
  self ← for_each join_step (join_items self) self;
  (* filters *)
  self ← for_each filter_step (map_to_list (filters self)) self;
  (* projections *)
  q ← get_que self;
  let self := set_que (q_set_entities [] q) self in
  let self := set_label_to_projected_entity_dict ∅ self in
  self ←
    (if negb (any_projection self) then
       last_label ← py_index (label_list self) (-1);
       Return (set_projections (<[last_label := PStr "*"]> (projections self)) self)
     else Return self);
  self ← project_loop (path self) 0 self;
  (* order *)
  self ← build_order self;
  (* limit *)
  self ←
    (if py_truthy (limit self) then
       q ← get_que self;
       Return (set_que (q_set_limit (limit self) q) self)
     else Return self);
  q ← get_que self;
  Return (q, self).

(** [get_query()]: the cached handle when the instance has one. *)
Definition get_query (self : QB) : Result (Query * QB) :=
  match que self with
  | Some q => Return (q, self)
  | None => _build_query self
  end.

(** ** The chained operations *)

(** The keyword arguments of [inputs], [outputs], [children] and [parents]:
    [ck_cls] is [None] when the key 'cls' is absent; [ck_kwargs] are the
    remaining keys, which go to [_add_to_path] as joining specification. *)
Record ChainKw := {
  ck_cls : option PyVal;
  ck_type : option string;
  ck_label : option string;
  ck_filters : option FiltersArg;
  ck_project : PyVal;
  ck_kwargs : list (string * PyVal)
}.

(** The common body: [join_to = self.label_list[-1]], the class defaults to
    [self.AiidaNode], and [_add_to_path] is called with the joining keyword
    of the operation and [autolabel = True].  Passing the joining keyword a
    second time is a [TypeError] of the call. *)
Definition chain (keyword : string) (kwargs : ChainKw) (self : QB) : Result QB :=
  join_to ← py_index (label_list self) (-1);
  let cls := default (PCls AiidaNode) (ck_cls kwargs) in
  if bool_decide (keyword ∈ (ck_kwargs kwargs).*1) then Raise TypeError
  else
    snd <$> _add_to_path
      {| kw_cls := cls; kw_type := ck_type kwargs; kw_label := ck_label kwargs;
         kw_autolabel := true; kw_filters := ck_filters kwargs;
         kw_project := ck_project kwargs;
         kw_kwargs := (keyword, PStr join_to) :: ck_kwargs kwargs |} self.

Definition inputs : ChainKw → QB → Result QB := chain "input_of".
Definition outputs : ChainKw → QB → Result QB := chain "output_of".
Definition children : ChainKw → QB → Result QB := chain "descendant_of".
Definition parents : ChainKw → QB → Result QB := chain "ancestor_of".

End Builder.

Definition no_kwargs : ChainKw :=
  {| ck_cls := None; ck_type := None; ck_label := None; ck_filters := None;
     ck_project := PNone; ck_kwargs := [] |}.

(** Modelled from the spec: the table of a vertex, which [get_ormclass]
    chooses in a backend.  'group' and 'computer' have their own tables,
    every other type string is a row of the node table. *)
#[export] Instance table_for : Backend := {|
  get_ormclass cls type :=
    if String.eqb type "group" then DbGroup
    else if String.eqb type "computer" then DbComputer
    else DbNode
|}.

(** ** The instance while the query is emitted *)

(** The joins, the filters and the ORDER section write the attributes [que]
    and [order_by] only (and draw new aliases). *)
Definition with_que (q : Query) (n : nat) (o : PyVal) (b : QB) : QB :=
  {| path := path b; label_list := label_list b; alias_list := alias_list b;
     alias_dict := alias_dict b; filters := filters b;
     projections := projections b; cls_to_label_map := cls_to_label_map b;
     limit := limit b; order_by := o;
     labels_location_dict := labels_location_dict b;
     label_to_projected_entity_dict := label_to_projected_entity_dict b;
     que := Some q; alias_counter := n |}.

(** What these sections keep of the handle: the selected table, the
    projected entities and the limit. *)
Definition query_grows (q q' : Query) : Prop :=
  q_from q' = q_from q ∧ q_entities q' = q_entities q ∧ q_limit q' = q_limit q.

Definition emits (b b' : QB) : Prop :=
  ∃ q q' n o, que b = Some q ∧ query_grows q q' ∧ b' = with_que q' n o b.

(** ** What the parser maintains *)

(** The path, the list of labels and the aliases grow together; every label
    has a filter set; the labels are pairwise distinct. *)
Record parsed (b : QB) : Prop := {
  parsed_labels : vx_label <$> path b = label_list b;
  parsed_filters : ∀ l, l ∈ label_list b → is_Some (filters b !! l);
  parsed_NoDup : NoDup (label_list b);
  parsed_length : length (alias_list b) = length (label_list b);
  parsed_aliases : ∀ i l, label_list b !! i = Some l →
                          alias_dict b !! l = alias_list b !! i
}.

(** ** The queryhelps of the scenarios *)

Definition PwCalculation : PyClass :=
  {| cls_name := "PwCalculation";
     cls_kind := NodeClass "calculation.job.quantumespresso.pw.PwCalculation." |}.
Definition Trajectory : PyClass :=
  {| cls_name := "TrajectoryData";
     cls_kind := NodeClass "data.array.trajectory.TrajectoryData." |}.
Definition ParameterData : PyClass :=
  {| cls_name := "ParameterData";
     cls_kind := NodeClass "data.parameter.ParameterData." |}.
Definition StructureData : PyClass :=
  {| cls_name := "StructureData";
     cls_kind := NodeClass "data.structure.StructureData." |}.

(** [{'cls': c}], [{'cls': c, 'label': l}] and [{'cls': c, k: v}] *)
Definition vertex_cls (c : PyClass) : VertexKw := kw_of_cls (PCls c).
Definition vertex_cls_label (c : PyClass) (l : string) : VertexKw :=
  {| kw_cls := PCls c; kw_type := None; kw_label := Some l; kw_autolabel := false;
     kw_filters := None; kw_project := PNone; kw_kwargs := [] |}.
Definition vertex_cls_join (c : PyClass) (k : string) (v : PyVal) : VertexKw :=
  {| kw_cls := PCls c; kw_type := None; kw_label := None; kw_autolabel := false;
     kw_filters := None; kw_project := PNone; kw_kwargs := [(k, v)] |}.
(** [{'type': t, 'label': l}] and [{'type': t, k: v}] *)
Definition vertex_type_label (t l : string) : VertexKw :=
  {| kw_cls := PNone; kw_type := Some t; kw_label := Some l; kw_autolabel := false;
     kw_filters := None; kw_project := PNone; kw_kwargs := [] |}.
Definition vertex_type_join (t k : string) (v : PyVal) : VertexKw :=
  {| kw_cls := PNone; kw_type := Some t; kw_label := None; kw_autolabel := false;
     kw_filters := None; kw_project := PNone; kw_kwargs := [(k, v)] |}.

(** S1: [{'path': ['data.structure.']}] *)
Definition qh_S1 : QueryHelp :=
  bare_queryhelp (PathList [PSStr "data.structure."]).

(** S2: [{'path': [{'cls': PwCalculation, 'label': 'c'},
                   {'cls': StructureData, 'output_of': 'c'}]}] *)
Definition qh_S2 : QueryHelp :=
  bare_queryhelp (PathList
    [ PSDict (vertex_cls_label PwCalculation "c");
      PSDict (vertex_cls_join StructureData "output_of" (PStr "c")) ]).

(** and the same with [input_of]. *)
Definition qh_S2_input : QueryHelp :=
  bare_queryhelp (PathList
    [ PSDict (vertex_cls_label PwCalculation "c");
      PSDict (vertex_cls_join StructureData "input_of" (PStr "c")) ]).

(** [qh1] of the docstring of [__init__]: the third vertex has
    ['direction': -2]. *)
Definition qh_direction : QueryHelp :=
  bare_queryhelp (PathList
    [ PSDict (vertex_cls PwCalculation);
      PSDict (vertex_cls Trajectory);
      PSDict (vertex_cls_join ParameterData "direction" (PInt (-2))) ]).

(** [qh2] of the docstring: the third vertex has ['input_of': PwCalculation]. *)
Definition qh_input_of : QueryHelp :=
  bare_queryhelp (PathList
    [ PSDict (vertex_cls PwCalculation);
      PSDict (vertex_cls Trajectory);
      PSDict (vertex_cls_join ParameterData "input_of" (PCls PwCalculation)) ]).

(** A target given as the index 0:
    [{'path': ['data.structure.', {'type': 'data.parameter.', 'output_of': 0}]}] *)
Definition qh_index_target : QueryHelp :=
  bare_queryhelp (PathList
    [ PSStr "data.structure.";
      PSDict (vertex_type_join "data.parameter." "output_of" (PInt 0)) ]).

(** A class bound to two vertices and then named as a target:
    [{'path': [{'cls': StructureData, 'label': 'a'},
               {'cls': StructureData, 'label': 'b'},
               {'cls': PwCalculation, 'output_of': StructureData}]}] *)
Definition qh_ambiguous : QueryHelp :=
  bare_queryhelp (PathList
    [ PSDict (vertex_cls_label StructureData "a");
      PSDict (vertex_cls_label StructureData "b");
      PSDict (vertex_cls_join PwCalculation "output_of" (PCls StructureData)) ]).

(** The same label given to two vertices:
    [{'path': [{'type': 'data.structure.', 'label': 'x'},
               {'type': 'data.parameter.', 'label': 'x'}]}] *)
Definition qh_same_label : QueryHelp :=
  bare_queryhelp (PathList
    [ PSDict (vertex_type_label "data.structure." "x");
      PSDict (vertex_type_label "data.parameter." "x") ]).

(** S5: two bare ['data.structure.'] vertices without labels. *)
Definition qh_S5 : QueryHelp :=
  bare_queryhelp (PathList [PSStr "data.structure."; PSStr "data.structure."]).

(** [{'path': ['data.structure.'], 'limit': l}] *)
Definition qh_with_limit (l : PyVal) : QueryHelp :=
  {| qh_path := PathList [PSStr "data.structure."]; qh_project := [];
     qh_filters := []; qh_limit := Some l; qh_order_by := None;
     qh_other_keys := [] |}.

(** Whether a call returned. *)
Definition succeeds {A} (r : Result A) : bool :=
  match r with
  | Return _ => true
  | Raise _ => false
  end.

(** The instance after a chained operation (the untouched one when it
    raises). *)
Definition after (op : QB → Result QB) (self : QB) : QB :=
  match op self with
  | Return self' => self'
  | Raise _ => self
  end.

(** The instance that [__init__] returns for a queryhelp (a new instance
    when it raises), and the instance at the point of [_build_query] where
    the joins begin: the locations of the labels are known and the query
    selects from the first alias. *)
Definition parsed_or_new (queryhelp : QueryHelp) : QB :=
  match __init__ queryhelp with
  | Return b => b
  | Raise _ => new_QB
  end.

(** What [_build_query] returns for an instance (the untouched instance
    with a query on the node table when it raises). *)
Definition built (b : QB) : Query * QB :=
  match _build_query b with
  | Return r => r
  | Raise _ => (session_query {| alias_id := 0; alias_of := DbNode |}, b)
  end.

(** The instance after [_add_to_path] (the untouched one when it raises). *)
Definition after_add_to_path (kw : VertexKw) (self : QB) : QB :=
  match _add_to_path kw self with
  | Return r => r.2
  | Raise _ => self
  end.

Definition started (b : QB) : QB :=
  match alias_list b with
  | first_alias :: _ =>
      set_que (session_query first_alias)
        (set_labels_location_dict (make_labels_location_dict (label_list b)) b)
  | [] => b
  end.

(** The first two vertices of [qh_ambiguous]. *)
Definition qh_two_structures : QueryHelp :=
  bare_queryhelp (PathList
    [ PSDict (vertex_cls_label StructureData "a");
      PSDict (vertex_cls_label StructureData "b") ]).

(** ** Notions for the further properties *)

(** A value in which no class is left: what [make_json_compatible] is
    meant to return. *)
Fixpoint json_compatible (v : PyVal) : bool :=
  match v with
  | PCls _ => false
  | PList l => forallb json_compatible l
  | PDict d =>
      (fix items (d : list (PyVal * PyVal)) : bool :=
         match d with
         | [] => true
         | (key, val) :: d' => json_compatible key && json_compatible val && items d'
         end) d
  | _ => true
  end.

(** A value that holds a class which is neither a node nor a group. *)
Fixpoint mentions_other_class (v : PyVal) : bool :=
  match v with
  | PCls c => match cls_kind c with OtherClass => true | _ => false end
  | PList l => existsb mentions_other_class l
  | PDict d =>
      (fix items (d : list (PyVal * PyVal)) : bool :=
         match d with
         | [] => false
         | (key, val) :: d' =>
             mentions_other_class key || mentions_other_class val || items d'
         end) d
  | _ => false
  end.

(** A value that holds a node class whose prefix is the string 'JSONB',
    which [replacement_dict] maps to 'jsonb'. *)
Fixpoint mentions_jsonb_prefix (v : PyVal) : bool :=
  match v with
  | PCls c =>
      match cls_kind c with
      | NodeClass pts => String.eqb (plugin_type_spec pts) "JSONB"
      | _ => false
      end
  | PList l => existsb mentions_jsonb_prefix l
  | PDict d =>
      (fix items (d : list (PyVal * PyVal)) : bool :=
         match d with
         | [] => false
         | (key, val) :: d' =>
             mentions_jsonb_prefix key || mentions_jsonb_prefix val || items d'
         end) d
  | _ => false
  end.

(** The keywords whose join is implemented. *)
Definition implemented_keywords : list string :=
  ["input_of"; "output_of"; "ancestor_of"; "descendant_of"; "group_of";
   "member_of"; "used_by"].

(** An edge that [_build_query] can join: the default edge of a vertex
    without joining keyword, or a keyword whose join is implemented. *)
Definition implemented_edge (v : Vertex) : bool :=
  match vx_joining_value v with
  | PInt 1 => true
  | _ => bool_decide (vx_joining_keyword v ∈ implemented_keywords)
  end.

(** What every instance that the parser returns satisfies besides
    [parsed]: filters, projections and aliases exist for the labels only
    and classes are bound to labels;
    type strings and labels are not empty and every type string has a
    filter or is one of 'computer', 'group' and 'node'; every edge is the
    default direction 1 or a joining keyword with the label of a vertex that
    is not later in the path; the filter on the type is in place. *)
Record accepted (b : QB) : Prop := {
  accepted_parsed : parsed b;
  accepted_filter_keys : ∀ l, is_Some (filters b !! l) → l ∈ label_list b;
  accepted_projection_keys : ∀ l, is_Some (projections b !! l) ↔ l ∈ label_list b;
  accepted_alias_keys : ∀ l, is_Some (alias_dict b !! l) → l ∈ label_list b;
  accepted_classes : ∀ c l, cls_to_label_map b !! c = Some l → l ∈ label_list b;
  accepted_types : ∀ v, v ∈ path b →
    vx_type v ≠ "" ∧ vx_label v ≠ "" ∧
    (vx_type v ∈ ["computer"; "group"] ∨ plugin_type_spec (vx_type v) ≠ "" ∨
     vx_type v = "node");
  accepted_edges : ∀ (i : nat) v, path b !! i = Some v →
    vx_joining_keyword v ∈ specification_to_function_map_keys ∧
    ((vx_joining_keyword v = "direction" ∧ vx_joining_value v = PInt 1) ∨
     ∃ l (j : nat), vx_joining_value v = PStr l ∧ (j ≤ i)%nat ∧
                    label_list b !! j = Some l);
  accepted_type_key : ∀ v, v ∈ path b →
    vx_type v ∉ ["computer"; "group"] → plugin_type_spec (vx_type v) ≠ "" →
    ∃ f, filters b !! vx_label v = Some f ∧ is_Some (f !! "type")
}.

(** The exact filter on the type is in place for every vertex that has
    one. *)
Definition type_filters_in_place (b : QB) : Prop :=
  ∀ v, v ∈ path b → vx_type v ∉ ["computer"; "group"] →
       plugin_type_spec (vx_type v) ≠ "" →
       ∃ f, filters b !! vx_label v = Some f ∧
            f !! "type"
              = Some (like_filter (format_like (plugin_type_spec (vx_type v)))).

(** The entities of the query in the order of the path: for every vertex
    whose projection is truthy, its alias with each of the projected
    specifications. *)
Definition projected_entities (b : QB) : list (Alias * PyVal) :=
  flat_map (λ v,
    let items_to_project := default (PList []) (projections b !! vx_label v) in
    if py_truthy items_to_project then
      match alias_dict b !! vx_label v with
      | Some alias => (λ spec, (alias, spec)) <$> as_list items_to_project
      | None => []
      end
    else []) (path b).

(** The position map of the instance agrees with the entities of the
    query: the specification recorded at a position for a label is the one
    the query returns there, for the alias of that label. *)
Definition positions_consistent (b : QB) (q : Query) : Prop :=
  ∀ label entry spec position,
    label_to_projected_entity_dict b !! label = Some entry →
    (spec, position) ∈ entry →
    ∃ alias, alias_dict b !! label = Some alias ∧
             q_entities q !! position = Some (alias, spec).

(** The where-clauses of the query: every filter specification with the
    alias of its label. *)
Definition attached_filters (b : QB) : list (Alias * FilterSpec) :=
  omap (λ lf : string * FilterSpec,
          alias ← alias_dict b !! lf.1; Some (alias, lf.2))
       (map_to_list (filters b)).

(** A vertex that names the label it is joined to. *)
Definition names_target (v : Vertex) : bool :=
  match vx_joining_value v with PStr _ => true | _ => false end.

(** What a vertex of an accepted path satisfies on its own. *)
Definition vertex_ok (v : Vertex) : Prop :=
  vx_type v ≠ "" ∧ vx_label v ≠ "" ∧
  (vx_type v ∈ ["computer"; "group"] ∨ plugin_type_spec (vx_type v) ≠ "" ∨
   vx_type v = "node") ∧
  vx_joining_keyword v ∈ specification_to_function_map_keys.

(** The instance in which the vertices [pre] were added again from the
    dictionaries that [get_dict] returns for them. *)
Definition rebuilt (pre : list Vertex) (s : QB) : Prop :=
  path s = pre ∧ label_list s = vx_label <$> pre ∧
  (∀ l, is_Some (filters s !! l) → l ∈ vx_label <$> pre) ∧
  (∀ l, is_Some (projections s !! l) → l ∈ vx_label <$> pre) ∧
  (∀ v, v ∈ pre → filters s !! vx_label v = Some (type_filter_of (vx_type v) ∅) ∧
                  is_Some (projections s !! vx_label v)).

(** The exceptions that are an [InputValidationError]. *)
Definition is_validation (e : Exc) : bool :=
  match e with InputValidationError _ => true | _ => false end.

(** [b == a] for the ON clause [a == b]; two ON clauses state the same
    condition when they are equal up to the sides of the equation. *)
Definition on_mirror (c : OnClause) : OnClause :=
  match c with OnEq a b => OnEq b a end.

Definition same_condition (c d : OnClause) : Prop := c = d ∨ c = on_mirror d.

(** The ON clauses of the joins that [q'] has after those of [q]. *)
Definition new_conditions (q q' : Query) : list OnClause :=
  join_on <$> drop (length (q_joins q)) (q_joins q').

(** The queryhelp without the keys that [__init__] does not pop. *)
Definition without_other_keys (queryhelp : QueryHelp) : QueryHelp :=
  {| qh_path := qh_path queryhelp; qh_project := qh_project queryhelp;
     qh_filters := qh_filters queryhelp; qh_limit := qh_limit queryhelp;
     qh_order_by := qh_order_by queryhelp; qh_other_keys := [] |}.

(** [{'type': type, 'label': label, keyword: value}], a vertex as
    [get_dict] returns it. *)
Definition kw_of_vertex (v : Vertex) : VertexKw :=
  {| kw_cls := PNone; kw_type := Some (vx_type v);
     kw_label := Some (vx_label v); kw_autolabel := false;
     kw_filters := None; kw_project := PNone;
     kw_kwargs := [(vx_joining_keyword v, vx_joining_value v)] |}.

(** Further queryhelps for the scenarios. *)

(** [{'path': [{'type': 'data.'}]}], the example of the docstring. *)
Definition qh_single_segment : QueryHelp :=
  bare_queryhelp (PathList [PSDict (kw_of_type "data.")]).

(** [{'path': []}] *)
Definition qh_empty : QueryHelp := bare_queryhelp (PathList []).

(** A path whose vertices all name their target:
    [{'path': [{'cls': PwCalculation, 'label': 'c', 'output_of': 'c'},
               {'cls': StructureData, 'output_of': 'c', 'project': ['id', '*']}],
      'project': {'c': 'id'}, 'limit': 3,
      'order_by': [{'c': ['id']}]}] *)
Definition qh_named_targets : QueryHelp :=
  {| qh_path := PathList
       [ PSDict {| kw_cls := PCls PwCalculation; kw_type := None;
                   kw_label := Some "c"; kw_autolabel := false;
                   kw_filters := None; kw_project := PNone;
                   kw_kwargs := [("output_of", PStr "c")] |};
         PSDict {| kw_cls := PCls StructureData; kw_type := None;
                   kw_label := None; kw_autolabel := false;
                   kw_filters := Some (FiltersDict {[ "id" := PDict [(PStr ">", PInt 50)] ]});
                   kw_project := PList [PStr "id"; PStr "*"];
                   kw_kwargs := [("output_of", PStr "c")] |} ];
     qh_project := [(PStr "c", PStr "id")];
     qh_filters := [];
     qh_limit := Some (PInt 3);
     qh_order_by := Some (PList [PDict [(PStr "c", PList [PStr "id"])]]);
     qh_other_keys := [] |}.

(** A vertex joined with a keyword that is not implemented:
    [{'path': ['data.structure.', {'type': 'data.parameter.', 'slave_of': 'data.structure.'}]}] *)
Definition qh_slave : QueryHelp :=
  bare_queryhelp (PathList
    [ PSStr "data.structure.";
      PSDict (vertex_type_join "data.parameter." "slave_of" (PStr "data.structure.")) ]).

(** A group and its members, and the computer of a calculation:
    [{'path': [{'type': 'group'}, {'cls': StructureData, 'member_of': 'group'},
               {'type': 'computer', 'used_by': 'StructureData'}]}] *)
Definition qh_group : QueryHelp :=
  bare_queryhelp (PathList
    [ PSStr "group";
      PSDict (vertex_cls_join StructureData "member_of" (PStr "group"));
      PSDict (vertex_type_join "computer" "used_by" (PStr "StructureData")) ]).

(** A vertex with filters of its own, one of them on the type:
    [{'cls': StructureData,
      'filters': {'id': {'>': 50}, 'type': {'==': 'data.structure.StructureData.'}}}] *)
Definition vertex_with_filters : VertexKw :=
  {| kw_cls := PCls StructureData; kw_type := None; kw_label := None;
     kw_autolabel := false;
     kw_filters := Some (FiltersDict
       {[ "id" := PDict [(PStr ">", PInt 50)];
          "type" := PDict [(PStr "==", PStr "data.structure.StructureData.")] ]});
     kw_project := PNone; kw_kwargs := [] |}.

(** A vertex with two joining keywords:
    [{'type': 'data.parameter.', 'input_of': 'data.structure.',
      'output_of': 'data.structure.'}] *)
Definition vertex_two_keywords : VertexKw :=
  {| kw_cls := PNone; kw_type := Some "data.parameter."; kw_label := None;
     kw_autolabel := false; kw_filters := None; kw_project := PNone;
     kw_kwargs := [("input_of", PStr "data.structure.");
                   ("output_of", PStr "data.structure.")] |}.

(** An order keyed by a class:
    [{'path': [{'cls': StructureData}], 'order_by': [{StructureData: ['id']}]}] *)
Definition qh_ordered_by_class : QueryHelp :=
  {| qh_path := PathList [PSDict (vertex_cls StructureData)]; qh_project := [];
     qh_filters := []; qh_limit := None;
     qh_order_by := Some (PList [PDict [(PCls StructureData, PList [PStr "id"])]]);
     qh_other_keys := [] |}.

(** An order that is a column name, not a dictionary:
    [{'path': ['data.structure.'], 'order_by': 'id'}] *)
Definition qh_order_by_name : QueryHelp :=
  {| qh_path := PathList [PSStr "data.structure."]; qh_project := [];
     qh_filters := []; qh_limit := None; qh_order_by := Some (PStr "id");
     qh_other_keys := [] |}.

(** A key that the constructor does not know:
    [{'path': ['data.structure.'], 'distinct': True}] *)
Definition qh_other_key : QueryHelp :=
  {| qh_path := PathList [PSStr "data.structure."]; qh_project := [];
     qh_filters := []; qh_limit := None; qh_order_by := None;
     qh_other_keys := ["distinct"] |}.

(** An order by a class and a type name:
    [[{StructureData: ['id', 'JSONB']}]] *)
Definition order_by_class : PyVal :=
  PList [PDict [(PCls StructureData, PList [PStr "id"; PStr "JSONB"])]].

(** * Properties *)

Open Scope list_scope.

(** ** The string helpers on the type strings of the scenarios *)

Example plugin_type_spec_structure :
  plugin_type_spec "data.structure." = "data".
Proof. reflexivity. Qed.

Example plugin_type_spec_class :
  plugin_type_spec "data.structure.StructureData." = "data.structure".
Proof. reflexivity. Qed.

Example plugin_type_spec_single : plugin_type_spec "data." = "".
Proof. reflexivity. Qed.

Example last_type_segment_class :
  last_type_segment "data.structure.StructureData." = "StructureData".
Proof. reflexivity. Qed.

Example format_autolabel_12 : format_autolabel "node" 12 = "node_12".
Proof. vm_compute. reflexivity. Qed.


(** ** Inversion of the exception monad *)

Lemma bind_Return {A B} (m : Result A) (f : A → Result B) (b : B) :
  m ≫= f = Return b → ∃ a, m = Return a ∧ f a = Return b.
Proof. destruct m as [e|a]; simpl; [discriminate | eauto]. Qed.

Lemma fmap_Return {A B} (m : Result A) (f : A → B) (b : B) :
  f <$> m = Return b → ∃ a, m = Return a ∧ b = f a.
Proof. destruct m as [e|a]; simpl; [discriminate | intros [= <-]; eauto]. Qed.

Ltac inv_bind H :=
  let a := fresh "a" in let Ha := fresh "Ha" in
  apply bind_Return in H as (a & Ha & H).

Tactic Notation "bind_inv" hyp(H) "as" ident(a) ident(Ha) :=
  apply bind_Return in H as (a & Ha & H).

Lemma init_filters_Return label fa self s :
  init_filters label fa self = Return s →
  filters self !! label = None ∧
  ∃ f, s = set_filters (<[label := f]> (filters self)) self ∧
       (fa = None ∧ f = ∅ ∨ fa = Some (FiltersDict f)).
Proof.
  unfold init_filters. case_bool_decide as Hin; [discriminate|].
  intros Hr. split.
  { destruct (filters self !! label) eqn:E; [|done]. exfalso. apply Hin. eauto. }
  destruct fa as [[d|]|]; simplify_eq/=.
  - exists d. split; [|by right].
    rewrite lookup_insert_eq. simpl. rewrite insert_insert_eq.
    rewrite (right_id_L ∅ (∪)). reflexivity.
  - exists ∅. split; [reflexivity | by left].
Qed.

Lemma init_projections_Return label project self s :
  init_projections label project self = Return s →
  projections self !! label = None ∧
  ∃ p, s = set_projections (<[label := p]> (projections self)) self ∧
       p = match project with PNone => PList [] | _ => PList (as_list project) end.
Proof.
  unfold init_projections. case_bool_decide as Hin; [discriminate|].
  intros Hr. split.
  { destruct (projections self !! label) eqn:E; [|done]. exfalso. apply Hin. eauto. }
  destruct project; simplify_eq/=; eexists; (split; [|reflexivity]);
    rewrite ?insert_insert_eq; reflexivity.
Qed.

Lemma inject_type_filter_Return type label self s f0 :
  filters self !! label = Some f0 →
  inject_type_filter type label self = Return s →
  s = set_filters (<[label := type_filter_of type f0]> (filters self)) self ∧
  (type ∈ ["computer"; "group"] ∨ plugin_type_spec type ≠ "" ∨ type = "node").
Proof.
  unfold inject_type_filter, type_filter_of. intros Hf.
  case_bool_decide as Hin.
  - intros [= <-]. split; [|by left]. rewrite insert_id; [|done]. by destruct self.
  - destruct (String.eqb (plugin_type_spec type) "") eqn:E; simpl.
    + destruct (String.eqb type "node") eqn:E2; [|discriminate].
      intros [= <-]. apply String.eqb_eq in E2. split; [|right; right; done].
      rewrite insert_id; [|done]. by destruct self.
    + intros [= <-]. apply String.eqb_neq in E. split; [|right; left; done].
      rewrite Hf. simpl. by rewrite <- insert_union_singleton_l.
Qed.

Lemma joining_loop_ext b b' kwargs j :
  label_list b = label_list b' → cls_to_label_map b = cls_to_label_map b' →
  joining_loop b kwargs j = joining_loop b' kwargs j.
Proof.
  intros Hl Hc. revert j. induction kwargs as [|[k v] rest IH]; intros j; [done|].
  simpl. unfold in_label_list. rewrite Hl, Hc.
  repeat case_match; auto.
Qed.

Section BuilderFacts.
Context `{Backend}.

Lemma bind_cls_frame cls label self :
  bind_cls cls label self = set_cls_to_label_map (cls_to_label_map (bind_cls cls label self)) self.
Proof.
  unfold bind_cls. destruct cls; try by destruct self.
  case_bool_decide; by destruct self.
Qed.

Lemma _add_to_path_Return kw self label self' :
  _add_to_path kw self = Return (label, self') →
  ∃ type olabel f0 p j,
    resolve_type kw = Return (type, olabel) ∧
    choose_label olabel (kw_autolabel kw) type self = Return label ∧
    filters self !! label = None ∧
    projections self !! label = None ∧
    (kw_filters kw = None ∧ f0 = ∅ ∨ kw_filters kw = Some (FiltersDict f0)) ∧
    p = match kw_project kw with PNone => PList [] | v => PList (as_list v) end ∧
    (type ∈ ["computer"; "group"] ∨ plugin_type_spec type ≠ "" ∨ type = "node") ∧
    joining_loop self' (kw_kwargs kw) None = Return j ∧
    self' = added_vertex kw self type label (type_filter_of type f0) p
              (default ("direction", PInt 1) j).1 (default ("direction", PInt 1) j).2.
Proof.
  unfold _add_to_path. intros Hr.
  inv_bind Hr. destruct a as [type olabel].
  inv_bind Hr. rename a into lbl.
  inv_bind Hr. apply init_filters_Return in Ha1 as (Hfn & f0 & E1 & Hf0). subst a.
  inv_bind Hr. apply init_projections_Return in Ha1 as (Hpn & p & E1 & Hp). subst a.
  inv_bind Hr.
  eapply inject_type_filter_Return in Ha1 as (E1 & Hty);
    [|simpl; apply lookup_insert_eq]. subst a.
  inv_bind Hr. rename a into j.
  destruct (default ("direction", PInt 1) j) as [jk jv] eqn:Ej.
  injection Hr as <- <-.
  rewrite (bind_cls_frame _ _ _) in *. simpl in *.
  assert (Hc : cls_to_label_map (bind_cls (kw_cls kw) lbl
                 (set_label_list (label_list self ++ [lbl]) self))
               = cls_to_label_map (bind_cls (kw_cls kw) lbl self)).
  { unfold bind_cls. destruct (kw_cls kw); try done. simpl.
    case_bool_decide; done. }
  exists type, olabel, f0, p, j.
  split; [exact Ha|]. split; [exact Ha0|]. split; [exact Hfn|].
  split; [exact Hpn|]. split; [exact Hf0|].
  split; [destruct (kw_project kw); exact Hp|]. split; [exact Hty|].
  split.
  - rewrite <- Ha1. apply joining_loop_ext; simpl; reflexivity.
  - unfold added_vertex. simpl. rewrite Ej, Hc. simpl.
    rewrite insert_insert_eq. reflexivity.
Qed.


(** ** The filter on the type column *)

(** C1, as amended.  For every vertex that [_add_to_path] accepts, whose
    type string is neither 'computer' nor 'group' and whose prefix (the type
    string without the dots at its ends and without its last segment) is
    not empty, the filter set of the vertex holds under 'type' the
    predicate [{'like': prefix + '%'}]. *)
Theorem C1_type_filter_injected kw self label self' :
  _add_to_path kw self = Return (label, self') →
  ∃ v, path self' = path self ++ [v] ∧ vx_label v = label ∧
       (∃ l, resolve_type kw = Return (vx_type v, l)) ∧
       (vx_type v ∉ ["computer"; "group"] →
        plugin_type_spec (vx_type v) ≠ "" →
        ∃ f, filters self' !! label = Some f ∧
             f !! "type" = Some (like_filter (plugin_type_spec (vx_type v) +:+ "%"))).
Proof.
  intros Hr.
  apply _add_to_path_Return in Hr
    as (type & olabel & f0 & p & j & Hty & _ & _ & _ & _ & _ & _ & _ & ->).
  eexists. split; [reflexivity|]. simpl. split; [reflexivity|].
  split; [by exists olabel|].
  intros Hsent Hne. exists (type_filter_of type f0).
  split; [apply lookup_insert_eq|].
  unfold type_filter_of. rewrite bool_decide_eq_false_2 by exact Hsent.
  apply String.eqb_neq in Hne. rewrite Hne. apply lookup_insert_eq.
Qed.

(** ** Targets given as a class *)

Lemma bind_cls_lookup cls label self c l0 :
  cls_to_label_map self !! c = Some l0 →
  cls_to_label_map (bind_cls cls label self) !! c = Some l0.
Proof.
  intros Hc. unfold bind_cls. destruct cls as [| | | |c'| |]; try exact Hc.
  case_bool_decide as Hin; [exact Hc|]. simpl.
  rewrite lookup_insert_ne; [exact Hc|].
  intros ->. apply Hin. eauto.
Qed.

Lemma bind_cls_fresh c label self :
  cls_to_label_map self !! c = None →
  cls_to_label_map (bind_cls (PCls c) label self) !! c = Some label.
Proof.
  intros Hc. unfold bind_cls. rewrite bool_decide_eq_false_2.
  - simpl. apply lookup_insert_eq.
  - rewrite Hc. by intros [? ?].
Qed.

(** C5, as amended.  The class-to-label map binds a class to the label of
    the first vertex that was declared with it and keeps that binding when
    the class is declared again; a target given as a class resolves to the
    label the map holds, and no error is raised for a class that was
    declared twice. *)
Theorem C5_class_target_first_binding kw self label self' :
  _add_to_path kw self = Return (label, self') →
  (∀ c l0, cls_to_label_map self !! c = Some l0 →
           cls_to_label_map self' !! c = Some l0) ∧
  (∀ c, kw_cls kw = PCls c → cls_to_label_map self !! c = None →
        cls_to_label_map self' !! c = Some label) ∧
  (∀ k c, kw_kwargs kw = [(k, PCls c)] →
     ∃ l v, cls_to_label_map self' !! c = Some l ∧
            last (path self') = Some v ∧ vx_label v = label ∧
            vx_joining_keyword v = k ∧ vx_joining_value v = PStr l).
Proof.
  intros Hr.
  apply _add_to_path_Return in Hr
    as (type & olabel & f0 & p & j & _ & _ & _ & _ & _ & _ & _ & Hj & E).
  split; [|split].
  - intros c l0 Hc. rewrite E. simpl. by apply bind_cls_lookup.
  - intros c Hcls Hc. rewrite E. simpl. rewrite Hcls. by apply bind_cls_fresh.
  - intros k c Hkw. rewrite Hkw in Hj. simpl in Hj.
    destruct (bool_decide (k ∈ specification_to_function_map_keys));
      simpl in Hj; [|discriminate].
    destruct (cls_to_label_map self' !! c) as [l|] eqn:Hc; [|discriminate].
    injection Hj as <-. exists l. eexists. split; [reflexivity|].
    rewrite E. simpl. rewrite last_snoc. split; [reflexivity|]. by simpl.
Qed.

(** ** The cached handle *)

Lemma chain_Return keyword kwargs self self' :
  chain keyword kwargs self = Return self' →
  (∃ v, path self' = path self ++ [v]) ∧ que self' = que self.
Proof.
  unfold chain. intros Hc.
  inv_bind Hc. case_bool_decide; [discriminate|].
  apply fmap_Return in Hc as ([l s] & Hc & ->). simpl.
  apply _add_to_path_Return in Hc
    as (type & olabel & f0 & p & j & _ & _ & _ & _ & _ & _ & _ & _ & ->).
  split; [eexists|]; reflexivity.
Qed.

(** C7, as amended.  A chained operation that is accepted after the handle
    was built appends its vertex to the path and leaves the cached handle
    as it is: the next [get_query] returns the handle that was built before
    the operation. *)
Theorem C7_chained_operation_keeps_handle op kwargs self self' q :
  op ∈ [inputs; outputs; children; parents] →
  que self = Some q →
  op kwargs self = Return self' →
  (∃ v, path self' = path self ++ [v]) ∧
  que self' = Some q ∧
  get_query self' = Return (q, self').
Proof.
  intros Hop Hq Hr.
  assert (∃ keyword, chain keyword kwargs self = Return self') as [keyword Hc].
  { repeat (apply elem_of_cons in Hop as [->|Hop]); [eauto..|].
    by apply elem_of_nil in Hop. }
  apply chain_Return in Hc as [Hpath Hque].
  split; [exact Hpath|]. rewrite Hq in Hque.
  split; [exact Hque|]. unfold get_query. by rewrite Hque.
Qed.

(** ** The joins through the link table *)

Lemma join_twice_Return t1 on1 t2 on2 self q :
  que self = Some q →
  join_twice t1 on1 t2 on2 self =
    Return (set_que (q_join {| join_target := t2; join_on := on2 |}
                       (q_join {| join_target := t1; join_on := on1 |} q)) self).
Proof. intros Hq. unfold join_twice, get_que. by rewrite Hq. Qed.

(** C4.  A vertex that the resolver joins with the kind [output_of] to a
    target is joined through a new alias of the link table with
    [link.input_id == target.id] and [link.output_id == alias.id]; for the
    kind [input_of] the two columns of the link are swapped. *)
Theorem C4_link_join_predicates self index alias querydict target func q :
  index ≠ 0 →
  que self = Some q →
  _get_connecting_node self querydict index = Return (target, func) →
  let link := {| alias_id := alias_counter self; alias_of := DbLink |} in
  (func = JoinOutputs →
   ∃ self', join_step (index, alias, querydict) self = Return self' ∧
     que self' = Some
       (q_join {| join_target := alias;
                  join_on := OnEq (col link "output_id") (col alias "id") |}
          (q_join {| join_target := link;
                     join_on := OnEq (col link "input_id") (col target "id") |} q))) ∧
  (func = JoinInputs →
   ∃ self', join_step (index, alias, querydict) self = Return self' ∧
     que self' = Some
       (q_join {| join_target := alias;
                  join_on := OnEq (col link "input_id") (col alias "id") |}
          (q_join {| join_target := link;
                     join_on := OnEq (col link "output_id") (col target "id") |} q))).
Proof.
  intros Hi Hq Hr link. unfold join_step.
  rewrite bool_decide_eq_false_2 by exact Hi. rewrite Hr. simpl.
  split; intros ->; simpl.
  - unfold _join_outputs. simpl.
    rewrite join_twice_Return with (q := q) by exact Hq.
    eexists. split; reflexivity.
  - unfold _join_inputs. simpl.
    rewrite join_twice_Return with (q := q) by exact Hq.
    eexists. split; reflexivity.
Qed.

(** ** What the sections of [_build_query] leave untouched *)

Lemma emits_refl b q : que b = Some q → emits b b.
Proof.
  intros Hq. exists q, q, (alias_counter b), (order_by b).
  split; [exact Hq|]. split; [done|].
  destruct b; simpl in *; by subst.
Qed.

Lemma emits_trans b1 b2 b3 : emits b1 b2 → emits b2 b3 → emits b1 b3.
Proof.
  intros (q1 & q2 & n & o & Hq1 & (Hf & He & Hl) & ->)
         (q2' & q3 & n' & o' & Hq2 & (Hf' & He' & Hl') & ->).
  simpl in Hq2. injection Hq2 as <-.
  exists q1, q3, n', o'. split; [exact Hq1|]. split; [|reflexivity].
  split_and!; congruence.
Qed.

Lemma emits_que b b' : emits b b' → is_Some (que b').
Proof. intros (q & q' & n & o & _ & _ & ->). simpl. eauto. Qed.

Lemma for_each_emits {A} (body : A → QB → Result QB) xs :
  (∀ x b b', is_Some (que b) → body x b = Return b' → emits b b') →
  ∀ b b', is_Some (que b) → for_each body xs b = Return b' → emits b b'.
Proof.
  intros Hbody. induction xs as [|x xs IH]; intros b b' [q Hq] Hr; simpl in Hr.
  - injection Hr as <-. by eapply emits_refl.
  - inv_bind Hr. apply Hbody in Ha; [|by eauto].
    eapply emits_trans; [exact Ha|]. apply IH; [|exact Hr].
    by eapply emits_que.
Qed.

Lemma emits_set_que b q q' :
  que b = Some q → query_grows q q' → emits b (set_que q' b).
Proof.
  intros Hq Hg. exists q, q', (alias_counter b), (order_by b).
  split; [exact Hq|]. split; [exact Hg|]. reflexivity.
Qed.

Lemma call_join_emits func joined_entity entity_to_join b b' :
  is_Some (que b) →
  call_join func joined_entity entity_to_join b = Return b' →
  emits b b'.
Proof.
  intros [q Hq] Hr.
  destruct func; simpl in Hr; try discriminate.
  7: { unfold _join_computer_used, get_que in Hr. rewrite Hq in Hr. simpl in Hr.
       injection Hr as <-. by apply emits_set_que with (q := q). }
  all: unfold _join_inputs, _join_outputs, _join_ancestors, _join_descendants,
         _join_groups, _join_group_members in Hr; simpl in Hr;
       rewrite join_twice_Return with (q := q) in Hr by (simpl; exact Hq);
       injection Hr as <-;
       exists q; eexists _, (S (alias_counter b)), (order_by b);
       (split; [exact Hq|]); (split; [|reflexivity]); by split_and!.
Qed.

Lemma join_step_emits item b b' :
  is_Some (que b) → join_step item b = Return b' → emits b b'.
Proof.
  intros Hq Hr. destruct item as [[index alias] querydict]. simpl in Hr.
  case_bool_decide.
  - injection Hr as <-. destruct Hq as [q Hq]. by eapply emits_refl.
  - inv_bind Hr. destruct a as [t f]. by eapply call_join_emits.
Qed.

Lemma filter_step_emits item b b' :
  is_Some (que b) → filter_step item b = Return b' → emits b b'.
Proof.
  intros [q Hq] Hr. destruct item as [label spec]. simpl in Hr.
  destruct (alias_dict b !! label); [|discriminate].
  unfold get_que in Hr. rewrite Hq in Hr. simpl in Hr.
  injection Hr as <-. by apply emits_set_que with (q := q).
Qed.

Lemma order_columns_emits alias val b b' :
  is_Some (que b) → order_columns alias val b = Return b' → emits b b'.
Proof.
  revert b. induction val as [|c val IH]; intros b [q Hq] Hr; simpl in Hr.
  - injection Hr as <-. by eapply emits_refl.
  - inv_bind Hr. unfold get_que in Hr. rewrite Hq in Hr. simpl in Hr.
    eapply emits_trans; [|apply IH; [|exact Hr]; simpl; eauto].
    by apply emits_set_que with (q := q).
Qed.

Lemma order_spec_step_emits order_spec b b' :
  is_Some (que b) → order_spec_step order_spec b = Return b' → emits b b'.
Proof.
  intros Hq Hr. destruct order_spec; try discriminate. simpl in Hr.
  revert Hr. apply for_each_emits; [|exact Hq].
  clear. intros [key val] b b' Hq Hr. simpl in Hr.
  destruct key; try discriminate.
  destruct (alias_dict b !! s); [|discriminate].
  by eapply order_columns_emits.
Qed.

Lemma build_order_emits b b' :
  is_Some (que b) → build_order b = Return b' → emits b b'.
Proof.
  intros [q Hq] Hr. unfold build_order in Hr.
  destruct (py_truthy (order_by b)).
  - set (b1 := match order_by b with
               | PList _ => b | o => set_order_by (PList [o]) b end) in *.
    assert (Hb1 : emits b b1).
    { subst b1. destruct (order_by b) eqn:Eo; try (by eapply emits_refl);
        (exists q, q; eexists (alias_counter b), _;
         split; [exact Hq|]; split; [done|];
         destruct b; simpl in *; subst; reflexivity). }
    eapply emits_trans; [exact Hb1|].
    revert Hr. apply for_each_emits; [|by eapply emits_que].
    intros x c c'. apply order_spec_step_emits.
  - injection Hr as <-. by eapply emits_refl.
Qed.

Lemma get_que_Return b q : get_que b = Return q → que b = Some q.
Proof. unfold get_que. destruct (que b); [by intros [= ->]|discriminate]. Qed.

Lemma emits_inv b b' :
  emits b b' →
  ∃ q q', que b = Some q ∧ que b' = Some q' ∧ query_grows q q' ∧
    path b' = path b ∧ label_list b' = label_list b ∧
    alias_list b' = alias_list b ∧ alias_dict b' = alias_dict b ∧
    filters b' = filters b ∧ projections b' = projections b ∧
    limit b' = limit b ∧
    label_to_projected_entity_dict b' = label_to_projected_entity_dict b.
Proof.
  intros (q & q' & n & o & Hq & Hg & ->). exists q, q'. by split_and!.
Qed.

Lemma project_items_query alias items q position entry :
  (project_items alias items q position entry).1.1 =
    q_set_entities (q_entities q ++ map (λ spec, (alias, spec)) items) q.
Proof.
  revert q position entry. induction items as [|spec items IH];
    intros q position entry; simpl.
  - rewrite app_nil_r. by destruct q.
  - rewrite IH. simpl. by rewrite <- app_assoc.
Qed.

Lemma project_items_entry alias items q position entry :
  (project_items alias items q position entry).2 =
    entry ++ imap (λ i spec, (spec, position + i)) items.
Proof.
  revert q position entry. induction items as [|spec items IH];
    intros q position entry; simpl.
  - by rewrite app_nil_r.
  - rewrite IH, <- app_assoc. simpl. rewrite Nat.add_0_r.
    do 2 f_equal. apply imap_ext. intros i x _. simpl. f_equal. lia.
Qed.

(** The projections keep the limit of the handle and of the instance. *)
Lemma project_loop_limit vertices position b b' q :
  que b = Some q →
  project_loop vertices position b = Return b' →
  limit b' = limit b ∧ ∃ q', que b' = Some q' ∧ q_limit q' = q_limit q.
Proof.
  revert position b q. induction vertices as [|v vs IH];
    intros position b q Hq Hr; simpl in Hr.
  - injection Hr as <-. eauto.
  - destruct (negb _); [by eapply IH|].
    destruct (alias_dict b !! vx_label v) as [alias|]; [|discriminate].
    unfold get_que in Hr. rewrite Hq in Hr. simpl in Hr.
    pose proof (project_items_query alias
      (as_list (default (PList []) (projections b !! vx_label v))) q position [])
      as Hpq.
    destruct (project_items _ _ _ _ _) as [[q1 p1] e1]. simpl in Hpq.
    eapply IH in Hr; [|reflexivity]. simpl in Hr.
    destruct Hr as (Hl & q' & Hq' & Hlq). split; [exact Hl|].
    exists q'. split; [exact Hq'|]. rewrite Hlq, Hpq. reflexivity.
Qed.

(** ** The limit *)

Lemma for_each_Return_inv {A} (P : QB → Prop) (body : A → QB → Result QB) xs :
  (∀ x b b', P b → body x b = Return b' → P b') →
  ∀ b b', P b → for_each body xs b = Return b' → P b'.
Proof.
  intros Hbody. induction xs as [|x xs IH]; intros b b' Hb Hr; simpl in Hr.
  - by injection Hr as <-.
  - inv_bind Hr. eauto.
Qed.

Lemma _add_projection_limit key spec b b' :
  _add_projection key spec b = Return b' → limit b' = limit b.
Proof.
  unfold _add_projection. intros Hr.
  repeat case_match; simplify_eq/=; reflexivity.
Qed.

Lemma _add_filter_limit key spec b b' :
  _add_filter key spec b = Return b' → limit b' = limit b.
Proof.
  unfold _add_filter. intros Hr.
  repeat case_match; simplify_eq/=; reflexivity.
Qed.

Lemma __init___limit queryhelp b :
  __init__ queryhelp = Return b →
  limit b = default (PBool false) (qh_limit queryhelp).
Proof.
  unfold __init__. intros Hr.
  inv_bind Hr. inv_bind Hr. inv_bind Hr. inv_bind Hr.
  case_bool_decide; [|discriminate]. by injection Hr as <-.
Qed.

Lemma _build_query_limit self q self' :
  _build_query self = Return (q, self') →
  (py_truthy (limit self) = false → q_limit q = None) ∧
  (py_truthy (limit self) = true → q_limit q = Some (limit self)).
Proof.
  unfold _build_query. intros Hr.
  destruct (negb _); [discriminate|].
  inv_bind Hr. rename a into first_alias.
  inv_bind Hr. rename a into s3.
  apply for_each_emits in Ha0; [|apply join_step_emits|simpl; eauto].
  apply emits_inv in Ha0
    as (q0 & q3 & Hq0 & Hq3 & (_ & _ & Hl3) & _ & _ & _ & _ & _ & _ & Hlim3 & _).
  simpl in Hq0. injection Hq0 as <-. simpl in Hl3, Hlim3.
  inv_bind Hr. rename a into s4.
  apply for_each_emits in Ha0; [|apply filter_step_emits|eauto].
  apply emits_inv in Ha0
    as (q3' & q4 & Hq3' & Hq4 & (_ & _ & Hl4) & _ & _ & _ & _ & _ & _ & Hlim4 & _).
  rewrite Hq3 in Hq3'. injection Hq3' as <-.
  inv_bind Hr. apply get_que_Return in Ha0. rewrite Hq4 in Ha0.
  injection Ha0 as <-.
  inv_bind Hr. rename a into s7.
  assert (Hs7 : limit s7 = limit self ∧
                ∃ q7, que s7 = Some q7 ∧ q_limit q7 = None).
  { destruct (negb _).
    - inv_bind Ha0. injection Ha0 as <-. simpl.
      split; [congruence|]. eexists. split; [reflexivity|]. simpl. congruence.
    - injection Ha0 as <-. simpl.
      split; [congruence|]. eexists. split; [reflexivity|]. simpl. congruence. }
  destruct Hs7 as (Hlim7 & q7 & Hq7 & Hl7).
  inv_bind Hr. rename a into s8.
  eapply project_loop_limit in Ha1 as (Hlim8 & q8 & Hq8 & Hl8); [|exact Hq7].
  inv_bind Hr. rename a into s9.
  apply build_order_emits in Ha1; [|eauto].
  apply emits_inv in Ha1
    as (q8' & q9 & Hq8' & Hq9 & (_ & _ & Hl9) & _ & _ & _ & _ & _ & _ & Hlim9 & _).
  rewrite Hq8 in Hq8'. injection Hq8' as <-.
  assert (Hlim : limit s9 = limit self) by congruence.
  assert (Hl : q_limit q9 = None) by congruence.
  inv_bind Hr. rename a into s10. rewrite Hlim in Ha1.
  destruct (py_truthy (limit self)) eqn:Et.
  - unfold get_que in Ha1. rewrite Hq9 in Ha1. simpl in Ha1.
    injection Ha1 as <-. simpl in Hr. injection Hr as <- <-.
    split; [discriminate|]. intros _. simpl. reflexivity.
  - injection Ha1 as <-. unfold get_que in Hr. rewrite Hq9 in Hr. simpl in Hr.
    injection Hr as <- <-. split; [by intros _|discriminate].
Qed.

(** C10.  The limit of the instance is the value under 'limit', [False]
    when the key is absent; when that value is falsy ([None], [False], 0 or
    absent) the emitted query has no limit, and otherwise it has exactly
    that limit. *)
Theorem C10_falsy_limit_emits_no_limit queryhelp b q b' :
  __init__ queryhelp = Return b →
  _build_query b = Return (q, b') →
  limit b = default (PBool false) (qh_limit queryhelp) ∧
  (py_truthy (default (PBool false) (qh_limit queryhelp)) = false →
   q_limit q = None) ∧
  (qh_limit queryhelp ∈ [None; Some PNone; Some (PBool false); Some (PInt 0)] →
   q_limit q = None) ∧
  (py_truthy (default (PBool false) (qh_limit queryhelp)) = true →
   q_limit q = qh_limit queryhelp).
Proof.
  intros Hi Hb. apply __init___limit in Hi. apply _build_query_limit in Hb.
  rewrite Hi in Hb. destruct Hb as [Hfalsy Htruthy].
  split; [exact Hi|]. split; [exact Hfalsy|]. split.
  - intros Hin. apply Hfalsy.
    repeat (apply elem_of_cons in Hin as [->|Hin]); try reflexivity.
    by apply elem_of_nil in Hin.
  - intros Ht. rewrite (Htruthy Ht).
    destruct (qh_limit queryhelp); [reflexivity|discriminate].
Qed.

(** ** The invariant of the parser *)

Lemma parsed_new_QB : parsed new_QB.
Proof.
  split; simpl; try done.
  - intros l Hl. by apply elem_of_nil in Hl.
  - constructor.
Qed.

Lemma _add_to_path_parsed kw self label self' :
  parsed self → _add_to_path kw self = Return (label, self') → parsed self'.
Proof.
  intros [Hlab Hfil Hnd Hlen Hali] Hr.
  apply _add_to_path_Return in Hr
    as (type & olabel & f0 & p & j & _ & _ & Hfn & _ & _ & _ & _ & _ & ->).
  assert (Hfresh : label ∉ label_list self).
  { intros Hin. apply Hfil in Hin as [f Hf]. congruence. }
  split; simpl.
  - rewrite fmap_app, Hlab. reflexivity.
  - intros l Hl. apply elem_of_app in Hl as [Hl|Hl].
    + destruct (decide (label = l)) as [->|Hne]; [by rewrite lookup_insert_eq|].
      rewrite lookup_insert_ne by exact Hne. by apply Hfil.
    + apply list_elem_of_singleton in Hl as ->. by rewrite lookup_insert_eq.
  - apply NoDup_app. split; [exact Hnd|]. split; [|apply NoDup_singleton].
    intros l Hl Hl'. apply list_elem_of_singleton in Hl' as ->. by apply Hfresh.
  - rewrite !length_app. simpl. lia.
  - intros i l Hl. destruct (decide (i < length (label_list self))) as [Hlt|Hge].
    + rewrite lookup_app_l in Hl by exact Hlt.
      rewrite lookup_app_l by lia.
      rewrite lookup_insert_ne; [by apply Hali|].
      intros ->. apply Hfresh. by eapply list_elem_of_lookup_2.
    + rewrite lookup_app_r in Hl by lia. rewrite lookup_app_r by lia.
      rewrite Hlen.
      destruct (i - length (label_list self)) as [|n] eqn:En; [|done].
      simpl in Hl. injection Hl as <-. by rewrite lookup_insert_eq.
Qed.

Lemma add_path_spec_parsed path_spec self self' :
  parsed self → add_path_spec path_spec self = Return self' → parsed self'.
Proof.
  intros Hp Hr. unfold add_path_spec in Hr.
  destruct path_spec as [kw|s|v].
  - destruct (_add_to_path kw self) as [e|[l s]] eqn:E.
    + destruct e; try discriminate.
      apply fmap_Return in Hr as ([l s] & Hr & ->).
      by eapply _add_to_path_parsed.
    + simpl in Hr. injection Hr as <-. by eapply _add_to_path_parsed.
  - apply fmap_Return in Hr as ([l s'] & Hr & ->). by eapply _add_to_path_parsed.
  - apply fmap_Return in Hr as ([l s] & Hr & ->). by eapply _add_to_path_parsed.
Qed.

Lemma set_filters_parsed k f f0 b :
  parsed b → filters b !! k = Some f0 →
  parsed (set_filters (<[k := f]> (filters b)) b).
Proof.
  intros [Hlab Hfil Hnd Hlen Hali] Hk. split; simpl; try done.
  intros l Hl. destruct (decide (k = l)) as [->|Hne].
  - by rewrite lookup_insert_eq.
  - rewrite lookup_insert_ne by exact Hne. by apply Hfil.
Qed.

Lemma _add_filter_parsed key spec b b' :
  parsed b → _add_filter key spec b = Return b' → parsed b'.
Proof.
  intros Hp Hr. unfold _add_filter in Hr.
  destruct (in_label_list key b).
  - destruct key; try (by injection Hr as <-).
    destruct (filters b !! s) eqn:E; [|discriminate].
    injection Hr as <-. by eapply set_filters_parsed.
  - destruct key; try discriminate.
    destruct (cls_to_label_map b !! c); [|discriminate].
    destruct (filters b !! s) eqn:E; [|discriminate].
    injection Hr as <-. by eapply set_filters_parsed.
Qed.

Lemma set_projections_parsed p b : parsed b → parsed (set_projections p b).
Proof. intros [Hlab Hfil Hnd Hlen Hali]. by split. Qed.

Lemma _add_projection_parsed key spec b b' :
  parsed b → _add_projection key spec b = Return b' → parsed b'.
Proof.
  intros Hp Hr. unfold _add_projection in Hr.
  destruct (in_label_list key b).
  - destruct key; try (by injection Hr as <-).
    injection Hr as <-. by apply set_projections_parsed.
  - destruct key; try discriminate.
    destruct (cls_to_label_map b !! c); [|discriminate].
    injection Hr as <-. by apply set_projections_parsed.
Qed.

(** Every instance that [__init__] returns satisfies the invariant. *)
Lemma __init___parsed queryhelp b : __init__ queryhelp = Return b → parsed b.
Proof.
  unfold __init__. intros Hr.
  inv_bind Hr. inv_bind Hr. inv_bind Hr. inv_bind Hr.
  case_bool_decide; [|discriminate]. injection Hr as <-.
  assert (parsed a1) as [Hlab Hfil Hnd Hlen Hali]; [|by split].
  revert Ha1. apply for_each_Return_inv.
  { intros [k v] c c'. apply _add_filter_parsed. }
  revert Ha0. apply for_each_Return_inv.
  { intros [k v] c c'. apply _add_projection_parsed. }
  revert Ha. apply for_each_Return_inv; [|apply parsed_new_QB].
  intros x c c'. apply add_path_spec_parsed.
Qed.

(** In every accepted queryhelp the labels of the path are pairwise
    distinct. *)
Lemma __init___labels_NoDup queryhelp b :
  __init__ queryhelp = Return b → NoDup (vx_label <$> path b).
Proof.
  intros Hr. apply __init___parsed in Hr as [Hlab _ Hnd _ _]. by rewrite Hlab.
Qed.

(** ** The default projection *)

Lemma py_index_last {A} (l : list A) x :
  py_index l (-1) = Return x → last l = Some x.
Proof.
  unfold py_index. case_bool_decide; [lia|].
  case_bool_decide as Hn; [|discriminate].
  destruct (l !! _) as [y|] eqn:E; [|discriminate].
  intros [= <-]. rewrite last_lookup. rewrite <- E. f_equal.
  destruct l; simpl in *; lia.
Qed.

Lemma py_index_0 {A} (l : list A) x : py_index l 0 = Return x → l !! 0 = Some x.
Proof.
  unfold py_index. destruct l as [|y l]; simpl; [discriminate|].
  by intros [= ->].
Qed.

Lemma any_projection_false b l v :
  any_projection b = false → projections b !! l = Some v → py_truthy v = false.
Proof.
  unfold any_projection. intros Hany Hl.
  destruct (py_truthy v) eqn:Et; [|done].
  assert (existsb py_truthy (map_to_list (projections b)).*2 = true); [|congruence].
  apply existsb_exists. exists v. split; [|exact Et].
  apply list_elem_of_In, list_elem_of_fmap. exists (l, v).
  split; [done|]. by apply elem_of_map_to_list.
Qed.

Lemma project_loop_skip vertices rest position b :
  (∀ u, u ∈ vertices →
        py_truthy (default (PList []) (projections b !! vx_label u)) = false) →
  project_loop (vertices ++ rest) position b = project_loop rest position b.
Proof.
  induction vertices as [|u vs IH]; intros Hskip; [done|]. simpl.
  rewrite (Hskip u) by apply list_elem_of_here. simpl.
  apply IH. intros w Hw. apply Hskip. by apply list_elem_of_further.
Qed.

Lemma project_loop_star v a q position b :
  projections b !! vx_label v = Some (PStr "*") →
  alias_dict b !! vx_label v = Some a →
  que b = Some q →
  project_loop [v] position b =
    Return (set_label_to_projected_entity_dict
              (<[vx_label v := [(PStr "*", position)]]>
                 (label_to_projected_entity_dict b))
              (set_que (q_set_entities (q_entities q ++ [(a, PStr "*")]) q) b)).
Proof.
  intros Hp Ha Hq. simpl. rewrite Hp, Ha. simpl.
  unfold get_que. rewrite Hq. simpl. reflexivity.
Qed.

(** C9.  When no label of an accepted queryhelp has a projection, the
    emitted query returns one entity: the last vertex of the path, as ['*'];
    it is the only entry of the position map, at position 0. *)
Theorem C9_default_projection_is_last_vertex queryhelp b q b' :
  __init__ queryhelp = Return b →
  any_projection b = false →
  _build_query b = Return (q, b') →
  ∃ v a, last (path b) = Some v ∧ last (alias_list b) = Some a ∧
         alias_dict b !! vx_label v = Some a ∧
         q_entities q = [(a, PStr "*")] ∧
         label_to_projected_entity_dict b' = {[ vx_label v := [(PStr "*", 0)] ]}.
Proof.
  intros Hi Hany Hr.
  apply __init___parsed in Hi as [Hlab Hfil Hnd Hlen Hali].
  unfold _build_query in Hr.
  destruct (negb _); [discriminate|].
  bind_inv Hr as first_alias Hfirst.
  bind_inv Hr as s3 Hs3.
  apply for_each_emits in Hs3; [|apply join_step_emits|simpl; eauto].
  apply emits_inv in Hs3
    as (q0 & q3 & _ & Hq3 & _ & Hp3 & Hl3 & Hal3 & Had3 & _ & Hpr3 & _ & _).
  simpl in Hp3, Hl3, Hal3, Had3, Hpr3.
  bind_inv Hr as s4 Hs4.
  apply for_each_emits in Hs4; [|apply filter_step_emits|eauto].
  apply emits_inv in Hs4
    as (q3' & q4 & _ & Hq4 & _ & Hp4 & Hl4 & Hal4 & Had4 & _ & Hpr4 & _ & _).
  bind_inv Hr as q4' Hq4'. apply get_que_Return in Hq4'. rewrite Hq4 in Hq4'.
  injection Hq4' as <-.
  bind_inv Hr as s7 Hs7.
  unfold any_projection in Hs7. simpl in Hs7.
  rewrite Hpr4, Hpr3 in Hs7. fold (any_projection b) in Hs7.
  rewrite Hany in Hs7. simpl in Hs7.
  bind_inv Hs7 as last_label Hlast. injection Hs7 as <-.
  rewrite Hl4, Hl3 in Hlast. apply py_index_last in Hlast.
  bind_inv Hr as s8 Hs8. simpl in Hs8.
  rewrite Hp4, Hp3 in Hs8.
  (* the path ends with the vertex of the last label *)
  assert (∃ vs v, path b = vs ++ [v] ∧ vx_label v = last_label)
    as (vs & v & Hpath & Hv).
  { apply last_Some in Hlast as [ls Hls].
    destruct (path b) as [|u us _] using rev_ind.
    - rewrite <- Hlab in Hls. simpl in Hls. by destruct ls.
    - exists us, u. split; [done|].
      rewrite <- Hlab, fmap_app in Hls. simpl in Hls.
      by apply app_inj_tail in Hls as [_ ?]. }
  assert (Hlast_alias : alias_dict b !! last_label = last (alias_list b)).
  { rewrite last_lookup, Hlen.
    apply Hali. by rewrite <- last_lookup. }
  destruct (last (alias_list b)) as [a|] eqn:Ela.
  2: { exfalso. rewrite last_None in Ela.
       rewrite Ela in Hlen. rewrite <- Hlab, Hpath, length_fmap, length_app in Hlen.
       simpl in Hlen. lia. }
  rewrite Hpath in Hs8.
  rewrite project_loop_skip in Hs8.
  2: { intros u Hu. simpl.
       assert (vx_label u ≠ last_label) as Hne.
       { intros Heq. rewrite <- Hlab, Hpath, fmap_app in Hnd. simpl in Hnd.
         apply NoDup_app in Hnd as (_ & Hdis & _).
         apply (Hdis (vx_label u)).
         - apply list_elem_of_fmap. by exists u.
         - rewrite Heq, Hv. apply list_elem_of_here. }
       rewrite lookup_insert_ne by done. rewrite ?Hpr4, ?Hpr3.
       destruct (projections b !! vx_label u) as [p|] eqn:Ep; [|done].
       simpl. by eapply any_projection_false. }
  erewrite project_loop_star in Hs8.
  2: { simpl. rewrite Hv. apply lookup_insert_eq. }
  2: { simpl. rewrite Had4, Had3, Hv. exact Hlast_alias. }
  2: { reflexivity. }
  injection Hs8 as <-.
  bind_inv Hr as s9 Hs9.
  apply build_order_emits in Hs9; [|simpl; eauto].
  apply emits_inv in Hs9
    as (q8 & q9 & Hq8 & Hq9 & (_ & He9 & _) & _ & _ & _ & _ & _ & _ & _ & Hd9).
  simpl in Hq8, Hd9. injection Hq8 as <-. simpl in He9.
  exists v, a. rewrite Hpath, last_snoc, Hv.
  split; [done|]. split; [done|]. split; [exact Hlast_alias|].
  bind_inv Hr as s10 Hs10.
  assert (∃ q10, que s10 = Some q10 ∧ q_entities q10 = [(a, PStr "*")] ∧
                 label_to_projected_entity_dict s10
                   = {[ last_label := [(PStr "*", 0)] ]})
    as (q10 & Hq10 & He10 & Hd10).
  { destruct (py_truthy (limit s9)).
    - bind_inv Hs10 as q9' Hq9'. apply get_que_Return in Hq9'. rewrite Hq9 in Hq9'.
      injection Hq9' as <-. injection Hs10 as <-. simpl.
      eexists. split; [reflexivity|]. simpl. split; [exact He9|].
      rewrite Hd9, Hv. by rewrite insert_empty.
    - injection Hs10 as <-. exists q9. split; [exact Hq9|]. split; [exact He9|].
      rewrite Hd9, Hv. by rewrite insert_empty. }
  bind_inv Hr as q10' Hq10'.
  apply get_que_Return in Hq10'. rewrite Hq10 in Hq10'. injection Hq10' as <-.
  injection Hr as <- <-. by split.
Qed.

(** ** The edge resolver *)

(** A vertex stored with the keyword [direction] and the number [d]: the
    kind is [output_of] and the index [index - d] for [d > 0], the kind is
    [input_of] and the index [index + d] for [d < 0], and 0 is an error. *)
Lemma _get_connecting_node_direction self querydict index d :
  vx_joining_keyword querydict = "direction" →
  vx_joining_value querydict = PInt d →
  _get_connecting_node self querydict index =
    if bool_decide (d > 0)%Z then
      a ← py_index (alias_list self) (Z.of_nat index - d); Return (a, JoinOutputs)
    else if bool_decide (d < 0)%Z then
      a ← py_index (alias_list self) (Z.of_nat index + d); Return (a, JoinInputs)
    else Raise (Exception "Direction 0 is not valid").
Proof.
  intros Hk Hv. unfold _get_connecting_node. rewrite Hk, Hv. simpl.
  repeat case_bool_decide; simpl; try reflexivity;
    destruct (py_index _ _); reflexivity.
Qed.

(** A vertex stored with a joining keyword and the label of its target:
    the kind is the one of the keyword and the index is the location of the
    label. *)
Lemma _get_connecting_node_label self querydict index k f l d j :
  (k, Some f) ∈ _get_function_map →
  vx_joining_keyword querydict = k →
  vx_joining_value querydict = PStr l →
  labels_location_dict self = Some d →
  d !! l = Some j →
  _get_connecting_node self querydict index =
    a ← py_index (alias_list self) (Z.of_nat j); Return (a, f).
Proof.
  intros Hin Hk Hv Hd Hl. unfold _get_connecting_node. rewrite Hk, Hv.
  unfold _get_function_map in Hin.
  repeat (apply elem_of_cons in Hin as [Hin|Hin]);
    try (by apply elem_of_nil in Hin); try discriminate;
    injection Hin as -> ->; simpl; rewrite Hd, Hl;
    destruct (py_index _ _); reflexivity.
Qed.

(** ** Numbers as joining values *)

Lemma joining_loop_rejects_int b kwargs joining k z :
  (k, PInt z) ∈ kwargs → ∀ r, joining_loop b kwargs joining ≠ Return r.
Proof.
  revert joining. induction kwargs as [|[k' v'] rest IH]; intros joining Hin r.
  - by apply elem_of_nil in Hin.
  - simpl. destruct (negb _); [discriminate|].
    case_bool_decide; [discriminate|].
    apply elem_of_cons in Hin as [[= <- <-]|Hin]; [simpl; discriminate|].
    destruct (in_label_list v' b); [by apply IH|].
    destruct v'; try discriminate.
    destruct (cls_to_label_map b !! c); [by apply IH|discriminate].
Qed.

(** [_add_to_path] accepts no vertex whose joining value is a number, be
    the keyword [direction] or the name of an edge. *)
Lemma _add_to_path_rejects_int kw self k z :
  (k, PInt z) ∈ kw_kwargs kw → ∀ r, _add_to_path kw self ≠ Return r.
Proof.
  intros Hin [label self'] Hr.
  apply _add_to_path_Return in Hr
    as (type & olabel & f0 & p & j & _ & _ & _ & _ & _ & _ & _ & Hj & _).
  by eapply joining_loop_rejects_int.
Qed.

Lemma for_each_rejects {A} (body : A → QB → Result QB) xs x :
  x ∈ xs → (∀ b b', body x b ≠ Return b') →
  ∀ b b', for_each body xs b ≠ Return b'.
Proof.
  intros Hin Hx. induction xs as [|y ys IH]; intros b b' Hr.
  - by apply elem_of_nil in Hin.
  - simpl in Hr. inv_bind Hr.
    apply elem_of_cons in Hin as [<-|Hin]; [by eapply Hx|by eapply IH].
Qed.

(** No queryhelp with such a vertex is accepted. *)
Lemma __init___rejects_int queryhelp kw k z :
  PSDict kw ∈ path_items (qh_path queryhelp) →
  (k, PInt z) ∈ kw_kwargs kw →
  ∀ b, __init__ queryhelp ≠ Return b.
Proof.
  intros Hp Hin b Hr. unfold __init__ in Hr. inv_bind Hr.
  revert Ha. eapply for_each_rejects; [exact Hp|].
  intros c c' Hc. simpl in Hc.
  destruct (_add_to_path kw c) as [e|r] eqn:E.
  - destruct e; try discriminate.
    apply fmap_Return in Hc as ([l s] & Hc & _).
    unfold _add_to_path in Hc. inv_bind Hc.
    unfold resolve_type, kw_of_cls in Ha. simpl in Ha.
    destruct (kw_kwargs kw); [by apply elem_of_nil in Hin|].
    simpl in Ha. discriminate.
  - by eapply _add_to_path_rejects_int.
Qed.

(** What [get_dict] returns for an instance whose path holds a number as a
    joining value (every vertex that was given no edge holds the direction
    1) is not accepted as a queryhelp. *)
Lemma get_dict_rejected b v z :
  v ∈ path b → vx_joining_value v = PInt z →
  ∀ b', __init__ (get_dict b) ≠ Return b'.
Proof.
  intros Hv Hz.
  eapply __init___rejects_int with (k := vx_joining_keyword v) (z := z).
  - simpl. apply list_elem_of_fmap. exists v. split; [reflexivity|exact Hv].
  - simpl. rewrite Hz. apply list_elem_of_here.
Qed.

(** ** The search for a free label *)

Lemma format_autolabel_inj type : Inj (=) (=) (format_autolabel type).
Proof.
  intros i j Hij. unfold format_autolabel in Hij.
  apply (inj (String.app type)) in Hij.
  apply (inj (String.app "_")) in Hij.
  by apply (inj pretty) in Hij.
Qed.

Lemma autolabel_loop_None fuel type labels i :
  autolabel_loop fuel type labels i = None →
  ∀ k, k < fuel → format_autolabel type (i + k) ∈ labels.
Proof.
  revert i. induction fuel as [|fuel IH]; intros i Hr k Hk; [lia|].
  simpl in Hr. case_bool_decide as Hin; [|discriminate].
  destruct k as [|k]; [by rewrite Nat.add_0_r|].
  replace (i + S k) with (S i + k) by lia. apply IH; [exact Hr|lia].
Qed.

(** The loop ends within the bound of the model: among the first
    [len(label_list) + 1] candidates one is free. *)
Lemma autolabel_total type labels : is_Some (autolabel type labels).
Proof.
  unfold autolabel.
  destruct (autolabel_loop _ _ _ _) as [l|] eqn:E; [eauto|exfalso].
  pose proof (autolabel_loop_None _ _ _ _ E) as Hall.
  assert (Hsub : (λ k, format_autolabel type (1 + k)) <$> seq 0 (S (length labels))
                 ⊆+ labels).
  { apply NoDup_submseteq.
    - apply NoDup_fmap_2; [|apply NoDup_seq].
      intros i j Hij. apply format_autolabel_inj in Hij. lia.
    - intros x Hx. apply list_elem_of_fmap in Hx as (k & -> & Hk).
      apply Hall. apply elem_of_seq in Hk. lia. }
  apply submseteq_length in Hsub.
  rewrite length_fmap, length_seq in Hsub. lia.
Qed.

Lemma autolabel_loop_fresh fuel type labels i l :
  autolabel_loop fuel type labels i = Some l → l ∉ labels.
Proof.
  revert i. induction fuel as [|fuel IH]; intros i Hr; [discriminate|].
  simpl in Hr. case_bool_decide as Hin; [by eapply IH|]. by injection Hr as <-.
Qed.

(** ** The handle that was built is the cached one *)

Lemma _build_query_que self q self' :
  _build_query self = Return (q, self') → que self' = Some q.
Proof.
  unfold _build_query. intros Hr. destruct (negb _); [discriminate|].
  do 9 inv_bind Hr. injection Hr as <- <-. by apply get_que_Return.
Qed.

Lemma get_query_unbuilt self :
  que self = None → get_query self = _build_query self.
Proof. unfold get_query. by intros ->. Qed.

Lemma get_query_built self q : que self = Some q → get_query self = Return (q, self).
Proof. unfold get_query. by intros ->. Qed.

End BuilderFacts.

(** ** Reading off the result of a call that returned *)

Lemma parsed_or_new_Return queryhelp :
  succeeds (__init__ queryhelp) = true →
  __init__ queryhelp = Return (parsed_or_new queryhelp).
Proof.
  unfold parsed_or_new. destruct (__init__ queryhelp); simpl;
    [discriminate|reflexivity].
Qed.

Lemma built_Return b :
  succeeds (_build_query b) = true →
  _build_query b = Return ((built b).1, (built b).2).
Proof.
  unfold built. destruct (_build_query b) as [e|[q b']]; simpl;
    [discriminate|reflexivity].
Qed.

Lemma after_Return (op : QB → Result QB) self :
  succeeds (op self) = true → op self = Return (after op self).
Proof.
  unfold after. destruct (op self); simpl; [discriminate|reflexivity].
Qed.

Lemma after_add_to_path_Return kw self label :
  fst <$> _add_to_path kw self = Return label →
  _add_to_path kw self = Return (label, after_add_to_path kw self).
Proof.
  unfold after_add_to_path. destruct (_add_to_path kw self) as [e|[l s]];
    [discriminate|]. simpl. by intros [= ->].
Qed.


(** * The scenarios *)

Ltac by_evaluation := vm_compute; reflexivity.

(** ** S1: a single type string *)

Example S1_parsed : __init__ qh_S1 = Return (parsed_or_new qh_S1).
Proof. apply parsed_or_new_Return. by_evaluation. Qed.

Example S1_path :
  path (parsed_or_new qh_S1) =
    [ {| vx_type := "data.structure."; vx_label := "data.structure.";
         vx_joining_keyword := "direction"; vx_joining_value := PInt 1 |} ].
Proof. by_evaluation. Qed.

Example S1_type_filter :
  filters (parsed_or_new qh_S1) !! "data.structure." ≫= (.!! "type")
    = Some (like_filter "data%").
Proof. by_evaluation. Qed.

(** The claim C1 as the spec states it fails on S1: the sole vertex is
    filtered by [type LIKE 'data%'], the type string without its last
    segment, and not by [type LIKE 'data.structure.%']. *)
Lemma C1_counterexample :
  ∃ b, __init__ qh_S1 = Return b ∧
       filters b !! "data.structure." ≫= (.!! "type") = Some (like_filter "data%") ∧
       ¬ (∃ f, filters b !! "data.structure." = Some f ∧
               f !! "type" = Some (like_filter "data.structure.%")).
Proof.
  exists (parsed_or_new qh_S1). split; [exact S1_parsed|].
  split; [exact S1_type_filter|].
  intros (f & Hf & Ht). pose proof S1_type_filter as Hs.
  rewrite Hf in Hs. simpl in Hs. rewrite Ht in Hs. discriminate.
Qed.

Lemma C1_witness :
  let self' := after_add_to_path (kw_of_type "data.structure.") new_QB in
  _add_to_path (kw_of_type "data.structure.") new_QB
    = Return ("data.structure.", self') ∧
  ∃ v, path self' = path new_QB ++ [v] ∧ vx_label v = "data.structure." ∧
     (∃ l, resolve_type (kw_of_type "data.structure.") = Return (vx_type v, l)) ∧
     (vx_type v ∉ ["computer"; "group"] →
      plugin_type_spec (vx_type v) ≠ "" →
      ∃ f, filters self' !! "data.structure." = Some f ∧
           f !! "type" = Some (like_filter (plugin_type_spec (vx_type v) +:+ "%"))).
Proof.
  intros self'.
  assert (Hr : _add_to_path (kw_of_type "data.structure.") new_QB
               = Return ("data.structure.", self'))
    by (apply after_add_to_path_Return; vm_compute; reflexivity).
  split; [exact Hr|].
  exact (C1_type_filter_injected (kw_of_type "data.structure.") new_QB
           "data.structure." self' Hr).
Defined.

(** C2.  The queryhelp that [get_dict] returns for S1 is refused by
    [__init__]: the vertex carries ['direction': 1], and a number is not
    among the labels. *)
Theorem C2_get_dict_not_accepted :
  ∃ b, __init__ qh_S1 = Return b ∧
       __init__ (get_dict b)
         = Raise (InputValidationError "But it is not among my labels").
Proof. exists (parsed_or_new qh_S1). split; [exact S1_parsed|by_evaluation]. Qed.

(** ** The direction and its equivalent *)

(** C3.  [qh1] of the docstring, whose third vertex has ['direction': -2],
    is refused by [__init__], while [qh2] with ['input_of': PwCalculation]
    is accepted and joins the third alias to the first as an input. *)
Theorem C3_explicit_direction_refused :
  __init__ qh_direction
    = Raise (InputValidationError "But it is not among my labels") ∧
  ∃ b q b',
    __init__ qh_input_of = Return b ∧
    _build_query b = Return (q, b') ∧
    let a0 := {| alias_id := 0; alias_of := DbNode |} in
    let a2 := {| alias_id := 2; alias_of := DbNode |} in
    let link := {| alias_id := 4; alias_of := DbLink |} in
    alias_list b !! 0 = Some a0 ∧ alias_list b !! 2 = Some a2 ∧
    drop 2 (q_joins q) =
      [ {| join_target := link;
           join_on := OnEq (col link "output_id") (col a0 "id") |};
        {| join_target := a2;
           join_on := OnEq (col link "input_id") (col a2 "id") |} ].
Proof.
  split; [by_evaluation|].
  exists (parsed_or_new qh_input_of), (built (parsed_or_new qh_input_of)).1,
         (built (parsed_or_new qh_input_of)).2.
  split; [apply parsed_or_new_Return; by_evaluation|].
  split; [apply built_Return; by_evaluation|].
  split; [by_evaluation|]. split; by_evaluation.
Qed.

(** ** S2: an output of a labelled vertex *)

Lemma C4_witness :
  let self := started (parsed_or_new qh_S2) in
  let a0 := {| alias_id := 0; alias_of := DbNode |} in
  let a1 := {| alias_id := 1; alias_of := DbNode |} in
  let querydict :=
    {| vx_type := "data.structure.StructureData."; vx_label := "StructureData";
       vx_joining_keyword := "output_of"; vx_joining_value := PStr "c" |} in
  let link := {| alias_id := alias_counter self; alias_of := DbLink |} in
  (JoinOutputs = JoinOutputs →
   ∃ self', join_step (1, a1, querydict) self = Return self' ∧
     que self' = Some
       (q_join {| join_target := a1;
                  join_on := OnEq (col link "output_id") (col a1 "id") |}
          (q_join {| join_target := link;
                     join_on := OnEq (col link "input_id") (col a0 "id") |}
             (session_query a0)))) ∧
  (JoinOutputs = JoinInputs →
   ∃ self', join_step (1, a1, querydict) self = Return self' ∧
     que self' = Some
       (q_join {| join_target := a1;
                  join_on := OnEq (col link "input_id") (col a1 "id") |}
          (q_join {| join_target := link;
                     join_on := OnEq (col link "output_id") (col a0 "id") |}
             (session_query a0)))).
Proof.
  intros self a0 a1 querydict.
  apply (C4_link_join_predicates self 1 a1 querydict a0 JoinOutputs (session_query a0)).
  - lia.
  - vm_compute. reflexivity.
  - vm_compute. reflexivity.
Defined.

(** The whole of S2: the structure is joined to the calculation through
    [link.input_id == c.id] and [link.output_id == s.id], both vertices are
    filtered on their type, and the structure is projected as ['*']. *)
Example S2_emitted_query :
  let b := parsed_or_new qh_S2 in
  let q := (built b).1 in
  let c := {| alias_id := 0; alias_of := DbNode |} in
  let s := {| alias_id := 1; alias_of := DbNode |} in
  let link := {| alias_id := 2; alias_of := DbLink |} in
  __init__ qh_S2 = Return b ∧ _build_query b = Return (q, (built b).2) ∧
  q_from q = c ∧
  q_joins q =
    [ {| join_target := link; join_on := OnEq (col link "input_id") (col c "id") |};
      {| join_target := s; join_on := OnEq (col link "output_id") (col s "id") |} ] ∧
  filters b !! "c" ≫= (.!! "type")
    = Some (like_filter "calculation.job.quantumespresso.pw%") ∧
  filters b !! "StructureData" ≫= (.!! "type")
    = Some (like_filter "data.structure%") ∧
  q_entities q = [(s, PStr "*")].
Proof.
  intros b q c s link.
  split; [apply parsed_or_new_Return; by_evaluation|].
  split; [apply built_Return; by_evaluation|].
  split; [by_evaluation|]. split; [by_evaluation|]. split; [by_evaluation|].
  split; by_evaluation.
Qed.

(** ** A class declared twice *)

(** The claim C5 as the spec states it fails: [StructureData] is bound to
    the vertices 'a' and 'b', and the target [StructureData] of the third
    vertex is accepted and resolves to 'a'. *)
Lemma C5_counterexample :
  ∃ b, __init__ qh_ambiguous = Return b ∧
       label_list b = ["a"; "b"; "PwCalculation"] ∧
       cls_to_label_map b !! StructureData = Some "a" ∧
       vx_joining_value <$> last (path b) = Some (PStr "a").
Proof.
  exists (parsed_or_new qh_ambiguous).
  split; [apply parsed_or_new_Return; by_evaluation|].
  split; [by_evaluation|]. split; by_evaluation.
Qed.

Lemma C5_witness :
  let kw := vertex_cls_join PwCalculation "output_of" (PCls StructureData) in
  let self := parsed_or_new qh_two_structures in
  let self' := after_add_to_path kw self in
  _add_to_path kw self = Return ("PwCalculation", self') ∧
  (∀ c l0, cls_to_label_map self !! c = Some l0 →
           cls_to_label_map self' !! c = Some l0) ∧
  (∀ c, kw_cls kw = PCls c → cls_to_label_map self !! c = None →
        cls_to_label_map self' !! c = Some "PwCalculation") ∧
  (∀ k c, kw_kwargs kw = [(k, PCls c)] →
     ∃ l v, cls_to_label_map self' !! c = Some l ∧
            last (path self') = Some v ∧ vx_label v = "PwCalculation" ∧
            vx_joining_keyword v = k ∧ vx_joining_value v = PStr l).
Proof.
  intros kw self self'.
  assert (Hr : _add_to_path kw self = Return ("PwCalculation", self'))
    by (apply after_add_to_path_Return; vm_compute; reflexivity).
  split; [exact Hr|].
  exact (C5_class_target_first_binding kw self "PwCalculation" self' Hr).
Defined.

(** ** A target given as an index *)

(** C6.  The target 0 of the second vertex is refused by [__init__],
    although it is less than the index 1 of the vertex. *)
Theorem C6_index_target_refused :
  __init__ qh_index_target
    = Raise (InputValidationError "But it is not among my labels").
Proof. by_evaluation. Qed.

(** ** A chained operation after the query was built *)

Example S1_built :
  _build_query (parsed_or_new qh_S1)
    = Return ((built (parsed_or_new qh_S1)).1, (built (parsed_or_new qh_S1)).2).
Proof. apply built_Return. by_evaluation. Qed.

Example S1_built_inputs :
  inputs no_kwargs (built (parsed_or_new qh_S1)).2
    = Return (after (inputs no_kwargs) (built (parsed_or_new qh_S1)).2).
Proof. apply (after_Return (inputs no_kwargs)). by_evaluation. Qed.

(** The claim C7 as the spec states it fails: after the handle of S1 was
    built, [inputs()] appends a vertex, and [get_query] still returns the
    handle without joins, not the query that [_build_query] would emit. *)
Lemma C7_counterexample :
  ∃ b q b1 b2 q2 b3,
    __init__ qh_S1 = Return b ∧
    get_query b = Return (q, b1) ∧
    inputs no_kwargs b1 = Return b2 ∧
    label_list b2 = ["data.structure."; "node_1"] ∧
    get_query b2 = Return (q, b2) ∧
    q_joins q = [] ∧
    _build_query b2 = Return (q2, b3) ∧
    length (q_joins q2) = 2.
Proof.
  exists (parsed_or_new qh_S1), (built (parsed_or_new qh_S1)).1,
         (built (parsed_or_new qh_S1)).2,
         (after (inputs no_kwargs) (built (parsed_or_new qh_S1)).2),
         (built (after (inputs no_kwargs) (built (parsed_or_new qh_S1)).2)).1,
         (built (after (inputs no_kwargs) (built (parsed_or_new qh_S1)).2)).2.
  pose proof S1_built as Hb. pose proof S1_built_inputs as Hi.
  split; [exact S1_parsed|].
  split; [rewrite get_query_unbuilt; [exact Hb|by_evaluation]|].
  split; [exact Hi|]. split; [by_evaluation|].
  split.
  { apply get_query_built. apply chain_Return in Hi as [_ ->].
    by apply _build_query_que in Hb. }
  split; [by_evaluation|].
  split; [apply built_Return; by_evaluation|by_evaluation].
Qed.

Lemma C7_witness :
  let self := (built (parsed_or_new qh_S1)).2 in
  let q := (built (parsed_or_new qh_S1)).1 in
  let self' := after (inputs no_kwargs) self in
  que self = Some q ∧ inputs no_kwargs self = Return self' ∧
  (∃ v, path self' = path self ++ [v]) ∧
  que self' = Some q ∧
  get_query self' = Return (q, self').
Proof.
  pose proof (_build_query_que _ _ _ S1_built) as Hq.
  pose proof S1_built_inputs as Hi.
  split; [exact Hq|]. split; [exact Hi|].
  apply (C7_chained_operation_keeps_handle inputs no_kwargs
           (built (parsed_or_new qh_S1)).2
           (after (inputs no_kwargs) (built (parsed_or_new qh_S1)).2)
           (built (parsed_or_new qh_S1)).1).
  - apply list_elem_of_here.
  - exact Hq.
  - exact Hi.
Defined.

(** ** Two vertices with one label *)

(** C8.  Two vertices that are given the label 'x' end in the assertion on
    [self.filters], not in an [InputValidationError], and so do two
    vertices of one class; only the label that defaults to the type string
    (S5) is checked and refused as such. *)
Theorem C8_same_label_fails_assertion :
  __init__ qh_same_label
    = Raise (AssertionError "Why is label already a key in filters?") ∧
  __init__ (bare_queryhelp (PathList
      [PSOther (PCls StructureData); PSOther (PCls StructureData)]))
    = Raise (AssertionError "Why is label already a key in filters?") ∧
  __init__ qh_S5
    = Raise (InputValidationError "Label is not unique, choose different label").
Proof. split; [by_evaluation|]. split; by_evaluation. Qed.

(** ** The default projection and the limit on the scenarios *)

Lemma C9_witness :
  let b := parsed_or_new qh_S2 in
  let q := (built b).1 in
  let b' := (built b).2 in
  __init__ qh_S2 = Return b ∧ any_projection b = false ∧
  _build_query b = Return (q, b') ∧
  ∃ v a, last (path b) = Some v ∧ last (alias_list b) = Some a ∧
         alias_dict b !! vx_label v = Some a ∧
         q_entities q = [(a, PStr "*")] ∧
         label_to_projected_entity_dict b' = {[ vx_label v := [(PStr "*", 0)] ]}.
Proof.
  intros b q b'.
  assert (Hi : __init__ qh_S2 = Return b)
    by (apply parsed_or_new_Return; vm_compute; reflexivity).
  assert (Hany : any_projection b = false) by (vm_compute; reflexivity).
  assert (Hb : _build_query b = Return (q, b'))
    by (apply built_Return; vm_compute; reflexivity).
  split; [exact Hi|]. split; [exact Hany|]. split; [exact Hb|].
  exact (C9_default_projection_is_last_vertex qh_S2 b q b' Hi Hany Hb).
Defined.

Lemma C10_witness :
  let queryhelp := qh_with_limit (PInt 0) in
  let b := parsed_or_new queryhelp in
  let q := (built b).1 in
  let b' := (built b).2 in
  __init__ queryhelp = Return b ∧ _build_query b = Return (q, b') ∧
  limit b = default (PBool false) (qh_limit queryhelp) ∧
  (py_truthy (default (PBool false) (qh_limit queryhelp)) = false →
   q_limit q = None) ∧
  (qh_limit queryhelp ∈ [None; Some PNone; Some (PBool false); Some (PInt 0)] →
   q_limit q = None) ∧
  (py_truthy (default (PBool false) (qh_limit queryhelp)) = true →
   q_limit q = qh_limit queryhelp).
Proof.
  intros queryhelp b q b'.
  assert (Hi : __init__ queryhelp = Return b)
    by (apply parsed_or_new_Return; vm_compute; reflexivity).
  assert (Hb : _build_query b = Return (q, b'))
    by (apply built_Return; vm_compute; reflexivity).
  split; [exact Hi|]. split; [exact Hb|].
  exact (C10_falsy_limit_emits_no_limit queryhelp b q b' Hi Hb).
Defined.

(** The limit 0 and the limit 5 on S1. *)
Example limit_zero_is_no_limit :
  let b := parsed_or_new (qh_with_limit (PInt 0)) in
  __init__ (qh_with_limit (PInt 0)) = Return b ∧
  _build_query b = Return ((built b).1, (built b).2) ∧
  q_limit (built b).1 = None.
Proof.
  intros b. split; [apply parsed_or_new_Return; by_evaluation|].
  split; [apply built_Return; by_evaluation|by_evaluation].
Qed.

Example limit_five_is_emitted :
  let b := parsed_or_new (qh_with_limit (PInt 5)) in
  __init__ (qh_with_limit (PInt 5)) = Return b ∧
  _build_query b = Return ((built b).1, (built b).2) ∧
  q_limit (built b).1 = Some (PInt 5).
Proof.
  intros b. split; [apply parsed_or_new_Return; by_evaluation|].
  split; [apply built_Return; by_evaluation|by_evaluation].
Qed.

(** * Further properties of the builder *)

Open Scope nat_scope.
Open Scope list_scope.

(** ** [make_json_compatible] *)

(** Induction on values through the lists and dictionaries nested in
    them. *)
Lemma PyVal_nested_ind (P : PyVal → Prop) :
  P PNone → (∀ b, P (PBool b)) → (∀ z, P (PInt z)) → (∀ s, P (PStr s)) →
  (∀ c, P (PCls c)) →
  (∀ l, Forall P l → P (PList l)) →
  (∀ d, Forall (λ kv, P kv.1 ∧ P kv.2) d → P (PDict d)) →
  ∀ v, P v.
Proof.
  intros HN HB HI HS HC HL HD.
  fix IH 1. intros [| b | z | s | c | l | d].
  - exact HN.
  - apply HB.
  - apply HI.
  - apply HS.
  - apply HC.
  - apply HL. induction l as [|x l IHl]; constructor; [apply IH|exact IHl].
  - apply HD. induction d as [|[k x] d IHd]; constructor;
      [split; apply IH|exact IHd].
Qed.

Lemma make_json_compatible_cases v :
  (mentions_other_class v = false →
   ∃ v', make_json_compatible v = Return v' ∧ json_compatible v' = true ∧
         (mentions_jsonb_prefix v = false → make_json_compatible v' = Return v')) ∧
  (mentions_other_class v = true →
   make_json_compatible v = Raise (InputValidationError "")).
Proof.
  induction v as [| b | z | s | c | l IH | d IH] using PyVal_nested_ind.
  - split; [|discriminate]. intros _. by exists PNone.
  - split; [|discriminate]. intros _. by exists (PBool b).
  - split; [|discriminate]. intros _. by exists (PInt z).
  - split; [|discriminate]. intros _. simpl.
    destruct (String.eqb s "JSONB") eqn:E.
    + by exists (PStr "jsonb").
    + exists (PStr s). simpl. by rewrite E.
  - simpl. destruct (cls_kind c); split; try discriminate; intros _;
      try reflexivity; eexists; (split; [reflexivity|]); (split; [reflexivity|]).
    + simpl. by intros ->.
    + by intros _.
  - simpl. induction IH as [|x l [Hok Hbad] _ IHl]; simpl.
    + split; [|discriminate]. intros _. by exists (PList []).
    + destruct IHl as [IHok IHbad].
      destruct (mentions_other_class x) eqn:Ex; simpl.
      * split; [discriminate|]. intros _. by rewrite Hbad.
      * destruct (Hok eq_refl) as (x' & Hx & Hjx & Hix). rewrite Hx. simpl.
        split.
        -- intros Hl. destruct (IHok Hl) as (l' & Hl' & Hjl & Hil).
           apply fmap_Return in Hl' as (l2 & Hl2 & ->).
           rewrite Hl2. simpl. exists (PList (x' :: l2)).
           split; [reflexivity|]. simpl in *. rewrite Hjx. split; [exact Hjl|].
           intros Hj. apply orb_false_elim in Hj as [Hj1 Hj2].
           rewrite (Hix Hj1). simpl.
           specialize (Hil Hj2). apply fmap_Return in Hil as (l3 & Hl3 & [= <-]).
           by rewrite Hl3.
        -- intros Hl. specialize (IHbad Hl).
           destruct ((fix elems (l0 : list PyVal) : Result (list PyVal) := _) l);
             simpl in *; [by injection IHbad as ->|discriminate].
  - simpl. induction IH as [|[k x] d [[Hkok Hkbad] [Hok Hbad]] _ IHd]; simpl in *.
    + split; [|discriminate]. intros _. by exists (PDict []).
    + destruct IHd as [IHok IHbad].
      destruct (mentions_other_class x) eqn:Ex; simpl.
      * rewrite orb_true_r. simpl. split; [discriminate|]. intros _. by rewrite Hbad.
      * rewrite orb_false_r.
        destruct (Hok eq_refl) as (x' & Hx & Hjx & Hix). rewrite Hx. simpl.
        destruct (mentions_other_class k) eqn:Ek; simpl.
        { split; [discriminate|]. intros _. by rewrite Hkbad. }
        destruct (Hkok eq_refl) as (k' & Hk & Hjk & Hik). rewrite Hk. simpl.
        split.
        -- intros Hl. destruct (IHok Hl) as (l' & Hl' & Hjl & Hil).
           apply fmap_Return in Hl' as (l2 & Hl2 & ->).
           rewrite Hl2. simpl. exists (PDict ((k', x') :: l2)).
           split; [reflexivity|]. simpl in *. rewrite Hjx, Hjk. split; [exact Hjl|].
           intros Hj. apply orb_false_elim in Hj as [Hj1 Hj2].
           apply orb_false_elim in Hj1 as [Hj0 Hj1].
           rewrite (Hix Hj1), (Hik Hj0). simpl.
           specialize (Hil Hj2). apply fmap_Return in Hil as (l3 & Hl3 & [= <-]).
           by rewrite Hl3.
        -- intros Hl. specialize (IHbad Hl).
           destruct ((fix items (d0 : list (PyVal * PyVal)) : Result (list (PyVal * PyVal)) := _) d);
             simpl in *; [by injection IHbad as ->|discriminate].
Qed.

(** [make_json_compatible] returns unless the value holds a class that is
    neither a node nor a group, and then it raises the
    [InputValidationError] of the source and nothing else. *)
Theorem make_json_compatible_returns v :
  succeeds (make_json_compatible v) = negb (mentions_other_class v) ∧
  (mentions_other_class v = true →
   make_json_compatible v = Raise (InputValidationError "")).
Proof.
  destruct (make_json_compatible_cases v) as [Hok Hbad].
  split; [|exact Hbad].
  destruct (mentions_other_class v).
  - by rewrite Hbad.
  - destruct (Hok eq_refl) as (v' & -> & _). reflexivity.
Qed.

(** What [make_json_compatible] returns holds no class any more: node
    classes have become their type prefix and group classes 'group'. *)
Theorem make_json_compatible_no_class v v' :
  make_json_compatible v = Return v' → json_compatible v' = true.
Proof.
  intros Hr. destruct (make_json_compatible_cases v) as [Hok Hbad].
  destruct (mentions_other_class v).
  - rewrite Hbad in Hr; [discriminate|reflexivity].
  - destruct (Hok eq_refl) as (v2 & Hv2 & Hj & _). congruence.
Qed.

(** Converting a second time changes nothing, unless a node class of the
    value has the prefix 'JSONB', which the second pass turns into
    'jsonb'. *)
Theorem make_json_compatible_idempotent v v' :
  mentions_jsonb_prefix v = false →
  make_json_compatible v = Return v' →
  make_json_compatible v' = Return v'.
Proof.
  intros Hj Hr. destruct (make_json_compatible_cases v) as [Hok Hbad].
  destruct (mentions_other_class v).
  - rewrite Hbad in Hr; [discriminate|reflexivity].
  - destruct (Hok eq_refl) as (v2 & Hv2 & _ & Hi).
    rewrite Hv2 in Hr. injection Hr as <-. by apply Hi.
Qed.

(** ** The automatic label *)

Lemma autolabel_loop_Some fuel type labels i l :
  autolabel_loop fuel type labels i = Some l →
  ∃ n, i ≤ n ∧ l = format_autolabel type n ∧ (l ∉ labels) ∧
       ∀ m, i ≤ m < n → format_autolabel type m ∈ labels.
Proof.
  revert i. induction fuel as [|fuel IH]; intros i Hr; [discriminate|].
  simpl in Hr. case_bool_decide as Hin.
  - apply IH in Hr as (n & Hn & -> & Hfree & Hbelow).
    exists n. split; [lia|]. split; [reflexivity|]. split; [exact Hfree|].
    intros m Hm. destruct (decide (m = i)) as [->|Hne]; [exact Hin|].
    apply Hbelow. lia.
  - injection Hr as <-. exists i. split; [lia|]. split; [reflexivity|].
    split; [exact Hin|]. intros m Hm. lia.
Qed.

(** The automatic label is [type_n] for the smallest [n >= 1] that makes
    it differ from every label of the path; the search always ends. *)
Theorem autolabel_smallest_free type labels :
  ∃ n, 1 ≤ n ∧ autolabel type labels = Some (format_autolabel type n) ∧
       (format_autolabel type n ∉ labels) ∧
       ∀ m, 1 ≤ m < n → format_autolabel type m ∈ labels.
Proof.
  destruct (autolabel_total type labels) as [l Hl].
  pose proof Hl as Hl'. unfold autolabel in Hl'.
  apply autolabel_loop_Some in Hl' as (n & Hn & -> & Hfree & Hbelow).
  exists n. by split_and!.
Qed.

(** ** What the parser maintains besides [parsed] *)

Section MoreFacts.
Context `{Backend}.

Lemma type_of_cls_nonempty cls label type olabel :
  type_of_cls cls label = Return (type, olabel) → type ≠ "".
Proof.
  unfold type_of_cls. destruct cls as [| | | |c| |]; try discriminate.
  destruct (cls_kind c) as [pts| |]; [| |discriminate].
  - intros [= <- _]. destruct (String.eqb pts "") eqn:E; [done|].
    by apply String.eqb_neq.
  - by intros [= <- _].
Qed.

Lemma resolve_type_nonempty kw type olabel :
  resolve_type kw = Return (type, olabel) → type ≠ "".
Proof.
  unfold resolve_type.
  destruct (py_truthy (kw_cls kw)) eqn:Ec; simpl.
  - destruct (str_truthy (kw_type kw)); [discriminate|]. simpl.
    apply type_of_cls_nonempty.
  - destruct (kw_type kw) as [t|]; simpl; [|discriminate].
    destruct (String.eqb t "") eqn:E; simpl; [discriminate|].
    intros [= <- _]. by apply String.eqb_neq.
Qed.

Lemma format_autolabel_nonempty type n : format_autolabel type n ≠ "".
Proof. unfold format_autolabel. by destruct type. Qed.

Lemma choose_label_nonempty olabel flag type self label :
  type ≠ "" → choose_label olabel flag type self = Return label → label ≠ "".
Proof.
  intros Ht. unfold choose_label.
  destruct olabel as [l|]; simpl.
  - destruct (String.eqb l "") eqn:E; simpl.
    + destruct flag.
      * destruct (autolabel type (label_list self)) as [l'|] eqn:Ea; [|discriminate].
        intros [= <-]. unfold autolabel in Ea.
        apply autolabel_loop_Some in Ea as (n & _ & -> & _).
        apply format_autolabel_nonempty.
      * case_bool_decide; [discriminate|]. by intros [= <-].
    + intros [= <-]. by apply String.eqb_neq.
  - destruct flag.
    + destruct (autolabel type (label_list self)) as [l'|] eqn:Ea; [|discriminate].
      intros [= <-]. unfold autolabel in Ea.
      apply autolabel_loop_Some in Ea as (n & _ & -> & _).
      apply format_autolabel_nonempty.
    + case_bool_decide; [discriminate|]. by intros [= <-].
Qed.

Lemma joining_loop_Some b kwargs x j :
  joining_loop b kwargs (Some x) = Return j → kwargs = [] ∧ j = Some x.
Proof.
  destruct kwargs as [|[k v] rest]; simpl; [by intros [= <-]|].
  destruct (negb _); discriminate.
Qed.

(** The outcome of the loop over the joining specification: nothing, or
    one keyword of the function map with a label of the path. *)
Lemma joining_loop_None b kwargs j :
  (∀ c l, cls_to_label_map b !! c = Some l → l ∈ label_list b) →
  joining_loop b kwargs None = Return j →
  (kwargs = [] ∧ j = None) ∨
  (∃ k v l, kwargs = [(k, v)] ∧ j = Some (k, PStr l) ∧
            k ∈ specification_to_function_map_keys ∧ l ∈ label_list b ∧
            (v = PStr l ∨ ∃ c, v = PCls c ∧ cls_to_label_map b !! c = Some l)).
Proof.
  intros Hcls. destruct kwargs as [|[k v] rest]; simpl; [intros [= <-]; by left|].
  case_bool_decide as Hk; simpl; [|discriminate].
  intros Hr. right.
  destruct (in_label_list v b) eqn:Ein.
  - apply joining_loop_Some in Hr as [-> ->].
    destruct v; try discriminate. simpl in Ein.
    apply bool_decide_eq_true in Ein. exists k, (PStr s), s. split_and!; auto.
  - destruct v as [| | | |c| |]; try discriminate.
    destruct (cls_to_label_map b !! c) as [l|] eqn:Ec; [|discriminate].
    apply joining_loop_Some in Hr as [-> ->].
    exists k, (PCls c), l. split_and!; eauto.
Qed.

Lemma bind_cls_classes cls label self :
  (∀ c l, cls_to_label_map self !! c = Some l → l ∈ label_list self) →
  ∀ c l, cls_to_label_map (bind_cls cls label self) !! c = Some l →
         l ∈ label_list self ++ [label].
Proof.
  intros Hcls c l. unfold bind_cls.
  destruct cls as [| | | |c'| |];
    try (intros Hl; apply elem_of_app; left; by eapply Hcls).
  case_bool_decide; simpl.
  - intros Hl; apply elem_of_app; left; by eapply Hcls.
  - destruct (decide (c' = c)) as [->|Hne].
    + rewrite lookup_insert_eq. intros [= ->]. apply elem_of_app. right.
      apply list_elem_of_here.
    + rewrite lookup_insert_ne by done.
      intros Hl; apply elem_of_app; left; by eapply Hcls.
Qed.

Lemma type_filter_of_type_key type f0 :
  type ∉ ["computer"; "group"] → plugin_type_spec type ≠ "" →
  type_filter_of type f0 !! "type"
    = Some (like_filter (format_like (plugin_type_spec type))).
Proof.
  intros Hs Hp. unfold type_filter_of.
  rewrite bool_decide_eq_false_2 by done.
  apply String.eqb_neq in Hp. rewrite Hp. apply lookup_insert_eq.
Qed.

Lemma type_filter_of_other_key type f0 k :
  k ≠ "type" → type_filter_of type f0 !! k = f0 !! k.
Proof.
  intros Hk. unfold type_filter_of. case_bool_decide; [done|].
  destruct (String.eqb _ _); [done|]. by rewrite lookup_insert_ne.
Qed.

Lemma _add_to_path_accepted kw self label self' :
  accepted self → _add_to_path kw self = Return (label, self') → accepted self'.
Proof.
  intros [Hp Hfk Hpk Hak Hcl Hty Hed Htk] Hr.
  pose proof (_add_to_path_parsed _ _ _ _ Hp Hr) as Hp'.
  apply _add_to_path_Return in Hr
    as (type & olabel & f0 & p & j & Hres & Hch & Hfn & Hpn & _ & _ & Htyp & Hj & E).
  assert (Hfresh : label ∉ label_list self).
  { intros Hin. apply (parsed_filters _ Hp) in Hin as [f Hf]. congruence. }
  assert (Hlen : length (path self) = length (label_list self)).
  { rewrite <- (parsed_labels _ Hp). by rewrite length_fmap. }
  assert (Hcl' : ∀ c l, cls_to_label_map self' !! c = Some l → l ∈ label_list self').
  { rewrite E. simpl. by apply bind_cls_classes. }
  apply joining_loop_None in Hj; [|exact Hcl'].
  assert (Hlist : label_list self' = label_list self ++ [label]) by (by rewrite E).
  rewrite Hlist in Hj.
  pose proof (resolve_type_nonempty _ _ _ Hres) as Htne.
  pose proof (choose_label_nonempty _ _ _ _ _ Htne Hch) as Hlne.
  split.
  - exact Hp'.
  - rewrite E. simpl. intros l Hl. apply elem_of_app.
    destruct (decide (label = l)) as [->|Hne]; [right; apply list_elem_of_here|].
    rewrite lookup_insert_ne in Hl by done. left. by apply Hfk.
  - rewrite E. simpl. intros l. rewrite elem_of_app, list_elem_of_singleton.
    destruct (decide (label = l)) as [->|Hne].
    + rewrite lookup_insert_eq. split; [by right|eauto].
    + rewrite lookup_insert_ne by done. rewrite Hpk. split; [by left|].
      intros [?|?]; [done|congruence].
  - rewrite E. simpl. intros l Hl. apply elem_of_app.
    destruct (decide (label = l)) as [->|Hne]; [right; apply list_elem_of_here|].
    rewrite lookup_insert_ne in Hl by done. left. by apply Hak.
  - exact Hcl'.
  - rewrite E. simpl. intros v Hv. apply elem_of_app in Hv as [Hv|Hv]; [by apply Hty|].
    apply list_elem_of_singleton in Hv as ->. simpl. by split_and!.
  - rewrite E. simpl. intros i v Hv.
    destruct (decide (i < length (path self))) as [Hlt|Hge].
    + rewrite lookup_app_l in Hv by exact Hlt.
      destruct (Hed i v Hv) as [Hk Hval]. split; [exact Hk|].
      destruct Hval as [Hd|(l & j' & Hl & Hj' & Hlook)]; [by left|].
      right. exists l, j'. split; [exact Hl|]. split; [exact Hj'|].
      rewrite lookup_app_l by lia. exact Hlook.
    + rewrite lookup_app_r in Hv by lia.
      destruct (i - length (path self)) as [|n] eqn:En; [|done].
      simpl in Hv. injection Hv as <-. simpl.
      destruct Hj as [[_ ->]|(k & v & l & _ & -> & Hk & Hl & _)]; simpl.
      * split; [|by left]. unfold specification_to_function_map_keys. simpl.
        repeat (first [apply list_elem_of_here | apply list_elem_of_further]).
      * split; [exact Hk|]. right.
        apply list_elem_of_lookup in Hl as [j' Hj'].
        exists l, j'. split; [reflexivity|]. split; [|exact Hj'].
        apply lookup_lt_Some in Hj'. rewrite length_app in Hj'. simpl in Hj'. lia.
  - rewrite E. simpl. intros v Hv Hs Hpre.
    apply elem_of_app in Hv as [Hv|Hv].
    + assert (vx_label v ≠ label) as Hne.
      { intros Heq. apply Hfresh. rewrite <- Heq, <- (parsed_labels _ Hp).
        apply list_elem_of_fmap. by exists v. }
      rewrite lookup_insert_ne by done. by apply Htk.
    + apply list_elem_of_singleton in Hv as ->. simpl in *.
      rewrite lookup_insert_eq. eexists. split; [reflexivity|].
      rewrite type_filter_of_type_key by done. eauto.
Qed.

Lemma accepted_new_QB : accepted new_QB.
Proof.
  split; simpl.
  - apply parsed_new_QB.
  - intros l [x Hx]. by rewrite lookup_empty in Hx.
  - intros l. split; [intros [x Hx]; by rewrite lookup_empty in Hx|].
    intros Hl. by apply elem_of_nil in Hl.
  - intros l [x Hx]. by rewrite lookup_empty in Hx.
  - intros c l Hx. by rewrite lookup_empty in Hx.
  - intros v Hv. by apply elem_of_nil in Hv.
  - intros i v Hv. by rewrite lookup_nil in Hv.
  - intros v Hv. by apply elem_of_nil in Hv.
Qed.

Lemma add_path_spec_accepted path_spec self self' :
  accepted self → add_path_spec path_spec self = Return self' → accepted self'.
Proof.
  intros Hp Hr. unfold add_path_spec in Hr.
  destruct path_spec as [kw|s|v].
  - destruct (_add_to_path kw self) as [e|[l s]] eqn:E.
    + destruct e; try discriminate.
      apply fmap_Return in Hr as ([l s] & Hr & ->).
      by eapply _add_to_path_accepted.
    + simpl in Hr. injection Hr as <-. by eapply _add_to_path_accepted.
  - apply fmap_Return in Hr as ([l s'] & Hr & ->). by eapply _add_to_path_accepted.
  - apply fmap_Return in Hr as ([l s] & Hr & ->). by eapply _add_to_path_accepted.
Qed.

(** The label that a key of 'project' or 'filters' stands for. *)
Lemma key_label_in_labels key self :
  accepted self →
  ∀ l, (key = PStr l ∧ in_label_list key self = true ∨
        ∃ c, key = PCls c ∧ cls_to_label_map self !! c = Some l) →
       l ∈ label_list self.
Proof.
  intros Ha l [[-> Hin]|(c & -> & Hc)].
  - simpl in Hin. by apply bool_decide_eq_true in Hin.
  - by eapply accepted_classes.
Qed.

Lemma _add_filter_Return key spec self self' :
  _add_filter key spec self = Return self' →
  ∃ l old, (key = PStr l ∧ in_label_list key self = true ∨
            ∃ c, key = PCls c ∧ cls_to_label_map self !! c = Some l) ∧
           filters self !! l = Some old ∧
           self' = set_filters (<[l := spec ∪ old]> (filters self)) self.
Proof.
  unfold _add_filter. destruct (in_label_list key self) eqn:Ein.
  - destruct key; try discriminate.
    destruct (filters self !! s) as [old|] eqn:E; [|discriminate].
    intros [= <-]. exists s, old. split_and!; auto.
  - destruct key as [| | | |c| |]; try discriminate.
    destruct (cls_to_label_map self !! c) as [l|] eqn:Ec; [|discriminate].
    destruct (filters self !! l) as [old|] eqn:E; [|discriminate].
    intros [= <-]. exists l, old. split_and!; eauto.
Qed.

Lemma _add_projection_Return key spec self self' :
  accepted self →
  _add_projection key spec self = Return self' →
  ∃ l, (key = PStr l ∧ in_label_list key self = true ∨
        ∃ c, key = PCls c ∧ cls_to_label_map self !! c = Some l) ∧
       l ∈ label_list self ∧
       self' = set_projections (<[l := spec]> (projections self)) self.
Proof.
  intros Ha. unfold _add_projection. destruct (in_label_list key self) eqn:Ein.
  - destruct key; try discriminate.
    intros [= <-]. exists s. split_and!; auto.
    simpl in Ein. by apply bool_decide_eq_true in Ein.
  - destruct key as [| | | |c| |]; try discriminate.
    destruct (cls_to_label_map self !! c) as [l|] eqn:Ec; [|discriminate].
    intros [= <-]. exists l. split_and!; eauto. by eapply accepted_classes.
Qed.

Lemma _add_filter_accepted key spec self self' :
  accepted self → _add_filter key spec self = Return self' → accepted self'.
Proof.
  intros Ha Hr. pose proof (_add_filter_parsed _ _ _ _ (accepted_parsed _ Ha) Hr) as Hp'.
  apply _add_filter_Return in Hr as (l & old & Hkey & Hold & ->).
  destruct Ha as [Hp Hfk Hpk Hak Hcl Hty Hed Htk].
  split; simpl; try done.
  - intros l' Hl'. destruct (decide (l = l')) as [<-|Hne].
    + apply Hfk. eauto.
    + rewrite lookup_insert_ne in Hl' by done. by apply Hfk.
  - intros v Hv Hs Hpre. destruct (Htk v Hv Hs Hpre) as (f & Hf & Hfty).
    destruct (decide (l = vx_label v)) as [->|Hne].
    + rewrite lookup_insert_eq. eexists. split; [reflexivity|].
      rewrite Hf in Hold. injection Hold as <-.
      destruct Hfty as [x Hx].
      destruct (spec !! "type") as [y|] eqn:Es.
      * exists y. by apply lookup_union_Some_l.
      * exists x. rewrite lookup_union_r by done. exact Hx.
    + rewrite lookup_insert_ne by done. eauto.
Qed.

Lemma _add_projection_accepted key spec self self' :
  accepted self → _add_projection key spec self = Return self' → accepted self'.
Proof.
  intros Ha Hr.
  pose proof (_add_projection_parsed _ _ _ _ (accepted_parsed _ Ha) Hr) as Hp'.
  apply _add_projection_Return in Hr as (l & Hkey & Hl & ->); [|exact Ha].
  destruct Ha as [Hp Hfk Hpk Hak Hcl Hty Hed Htk].
  split; simpl; try done.
  intros l'. destruct (decide (l = l')) as [<-|Hne].
  - rewrite lookup_insert_eq. split; eauto.
  - rewrite lookup_insert_ne by done. apply Hpk.
Qed.

(** Every instance that [__init__] returns is [accepted]. *)
Lemma __init___accepted queryhelp b : __init__ queryhelp = Return b → accepted b.
Proof.
  unfold __init__. intros Hr.
  inv_bind Hr. inv_bind Hr. inv_bind Hr. inv_bind Hr.
  case_bool_decide; [|discriminate]. injection Hr as <-.
  assert (accepted a1) as [Hp Hfk Hpk Hak Hcl Hty Hed Htk].
  2: { split; try done. destruct Hp. by split. }
  revert Ha1. apply for_each_Return_inv.
  { intros [k v] c c'. apply _add_filter_accepted. }
  revert Ha0. apply for_each_Return_inv.
  { intros [k v] c c'. apply _add_projection_accepted. }
  revert Ha. apply for_each_Return_inv; [|apply accepted_new_QB].
  intros x c c'. apply add_path_spec_accepted.
Qed.

(** ** Type strings without a prefix *)

(** A vertex whose type string has a single segment, such as 'data.' in
    the docstring of [__init__], is refused unless the type string is
    'node', 'computer' or 'group'. *)
Theorem single_segment_type_refused kw self type olabel :
  resolve_type kw = Return (type, olabel) →
  type ∉ ["computer"; "group"; "node"] →
  plugin_type_spec type = "" →
  succeeds (_add_to_path kw self) = false.
Proof.
  intros Hres Hs Hp.
  destruct (_add_to_path kw self) as [e|[l s]] eqn:E; [reflexivity|exfalso].
  apply _add_to_path_Return in E
    as (type' & olabel' & f0 & p & j & Hres' & _ & _ & _ & _ & _ & Hty & _).
  rewrite Hres in Hres'. injection Hres' as <- <-.
  destruct Hty as [Hty|[Hty|Hty]].
  - apply Hs. apply elem_of_cons in Hty as [->|Hty];
      [apply list_elem_of_here|].
    apply list_elem_of_further. apply elem_of_cons in Hty as [->|Hty];
      [apply list_elem_of_here|]. by apply elem_of_nil in Hty.
  - by apply Hty.
  - apply Hs. rewrite Hty. do 2 apply list_elem_of_further. apply list_elem_of_here.
Qed.

(** ** The filters of a vertex and of the queryhelp *)

(** The filters given with a vertex are kept under their keys, except the
    key 'type', which the filter on the type string takes when there is
    one; the filter sets of the other labels are not touched. *)
Theorem vertex_filters_kept_except_type kw self label self' d :
  _add_to_path kw self = Return (label, self') →
  kw_filters kw = Some (FiltersDict d) →
  ∃ f, filters self' !! label = Some f ∧
       (∀ k, k ≠ "type" → f !! k = d !! k) ∧
       (∀ l, l ≠ label → filters self' !! l = filters self !! l).
Proof.
  intros Hr Hd.
  apply _add_to_path_Return in Hr
    as (type & olabel & f0 & p & j & _ & _ & _ & _ & Hf0 & _ & _ & _ & ->).
  destruct Hf0 as [[Hn _]|Hf0]; [congruence|].
  rewrite Hd in Hf0. injection Hf0 as <-.
  exists (type_filter_of type d). simpl. split; [apply lookup_insert_eq|].
  split.
  - intros k Hk. by apply type_filter_of_other_key.
  - intros l Hl. by rewrite lookup_insert_ne.
Qed.

(** A filter given at the top level is merged into the filter set of its
    label (named by the label or by a class bound to it) and wins on every
    key it has, the key 'type' of the injected filter included; the other
    keys and the other labels keep their filters. *)
Theorem _add_filter_takes_precedence key spec self self' :
  _add_filter key spec self = Return self' →
  ∃ l old new,
    (key = PStr l ∧ l ∈ label_list self ∨
     ∃ c, key = PCls c ∧ cls_to_label_map self !! c = Some l) ∧
    filters self !! l = Some old ∧
    filters self' !! l = Some new ∧
    (∀ k, new !! k = match spec !! k with Some x => Some x | None => old !! k end) ∧
    (∀ l', l' ≠ l → filters self' !! l' = filters self !! l') ∧
    path self' = path self ∧ projections self' = projections self.
Proof.
  intros Hr. apply _add_filter_Return in Hr as (l & old & Hkey & Hold & ->).
  exists l, old, (spec ∪ old). simpl. split_and!; try done.
  - destruct Hkey as [[-> Hin]|Hc]; [left|by right].
    split; [reflexivity|]. simpl in Hin. by apply bool_decide_eq_true in Hin.
  - apply lookup_insert_eq.
  - intros k. destruct (spec !! k) as [x|] eqn:Es.
    + by apply lookup_union_Some_l.
    + by rewrite lookup_union_r.
  - intros l' Hl'. by rewrite lookup_insert_ne.
Qed.

Lemma for_each_Return_Forall {A} (P : QB → Prop) (Q : A → Prop)
    (body : A → QB → Result QB) xs :
  (∀ x b b', Q x → P b → body x b = Return b' → P b') →
  Forall Q xs →
  ∀ b b', P b → for_each body xs b = Return b' → P b'.
Proof.
  intros Hbody HQ. induction HQ as [|x xs Hx _ IH]; intros b b' Hb Hr; simpl in Hr.
  - by injection Hr as <-.
  - inv_bind Hr. eauto.
Qed.

Lemma _add_to_path_type_filters kw self label self' :
  parsed self → type_filters_in_place self →
  _add_to_path kw self = Return (label, self') → type_filters_in_place self'.
Proof.
  intros Hp Htf Hr.
  apply _add_to_path_Return in Hr
    as (type & olabel & f0 & p & j & _ & _ & Hfn & _ & _ & _ & _ & _ & ->).
  assert (Hfresh : label ∉ label_list self).
  { intros Hin. apply (parsed_filters _ Hp) in Hin as [f Hf]. congruence. }
  intros v Hv Hs Hpre. simpl in *. apply elem_of_app in Hv as [Hv|Hv].
  - assert (vx_label v ≠ label) as Hne.
    { intros Heq. apply Hfresh. rewrite <- Heq, <- (parsed_labels _ Hp).
      apply list_elem_of_fmap. by exists v. }
    rewrite lookup_insert_ne by done. by apply Htf.
  - apply list_elem_of_singleton in Hv as ->. simpl in *.
    rewrite lookup_insert_eq. eexists. split; [reflexivity|].
    by apply type_filter_of_type_key.
Qed.

(** After the whole of [__init__] every vertex that has a prefix is
    filtered by it, provided that no filter of the top level has the key
    'type' (which would replace the injected filter). *)
Theorem __init___keeps_type_filters queryhelp b v :
  __init__ queryhelp = Return b →
  Forall (λ kf, kf.2 !! "type" = None) (qh_filters queryhelp) →
  v ∈ path b →
  vx_type v ∉ ["computer"; "group"] →
  plugin_type_spec (vx_type v) ≠ "" →
  ∃ f, filters b !! vx_label v = Some f ∧
       f !! "type" = Some (like_filter (format_like (plugin_type_spec (vx_type v)))).
Proof.
  intros Hr Hnt. revert v.
  change (type_filters_in_place b).
  unfold __init__ in Hr.
  inv_bind Hr. inv_bind Hr. inv_bind Hr. inv_bind Hr.
  case_bool_decide; [|discriminate]. injection Hr as <-.
  set (P := λ c : QB, parsed c ∧ type_filters_in_place c).
  enough (P a1) as [_ Htf] by exact Htf.
  revert Ha1. apply (for_each_Return_Forall P (λ kf, kf.2 !! "type" = None));
    [|exact Hnt|].
  { intros [k spec] c c' Hk [Hp Htf] Hc. simpl in *.
    split; [by eapply _add_filter_parsed|].
    apply _add_filter_Return in Hc as (l & old & _ & Hold & ->).
    intros v Hv Hs Hpre. simpl in *.
    destruct (Htf v Hv Hs Hpre) as (f & Hf & Hfty).
    destruct (decide (l = vx_label v)) as [->|Hne].
    - rewrite lookup_insert_eq. eexists. split; [reflexivity|].
      rewrite Hf in Hold. injection Hold as <-.
      by rewrite lookup_union_r. 
    - rewrite lookup_insert_ne by done. eauto. }
  revert Ha0. apply (for_each_Return_inv P).
  { intros [k spec] c c' [Hp Htf] Hc. simpl in *.
    split; [by eapply _add_projection_parsed|].
    unfold _add_projection in Hc.
    repeat case_match; simplify_eq/=; exact Htf. }
  revert Ha. apply (for_each_Return_inv P).
  - intros x c c' [Hp Htf] Hc. split; [by eapply add_path_spec_parsed|].
    unfold add_path_spec in Hc. destruct x as [kw|s|w].
    + destruct (_add_to_path kw c) as [e|[l s]] eqn:E.
      * destruct e; try discriminate.
        apply fmap_Return in Hc as ([l s] & Hc & ->).
        by eapply _add_to_path_type_filters.
      * simpl in Hc. injection Hc as <-. by eapply _add_to_path_type_filters.
    + apply fmap_Return in Hc as ([l s'] & Hc & ->).
      by eapply _add_to_path_type_filters.
    + apply fmap_Return in Hc as ([l s] & Hc & ->).
      by eapply _add_to_path_type_filters.
  - split; [apply parsed_new_QB|]. intros v Hv. by apply elem_of_nil in Hv.
Qed.

(** ** The targets of the edges *)

(** The target of an edge of an accepted queryhelp is the label of a
    vertex that is not later in the path than the vertex itself (the vertex
    may name its own label). *)
Theorem targets_not_later queryhelp b i v l :
  __init__ queryhelp = Return b →
  path b !! i = Some v →
  vx_joining_value v = PStr l →
  ∃ j, j ≤ i ∧ (vx_label <$> path b) !! j = Some l.
Proof.
  intros Hr Hv Hl. apply __init___accepted in Hr.
  destruct (accepted_edges _ Hr i v Hv) as [_ [[_ Hd]|(l' & j & Hl' & Hj & Hlook)]];
    [congruence|].
  rewrite Hl in Hl'. injection Hl' as <-.
  exists j. split; [exact Hj|]. by rewrite (parsed_labels _ (accepted_parsed _ Hr)).
Qed.

End MoreFacts.

(** ** When [_build_query] returns *)

Section BuildFacts.
Context `{Backend}.

Lemma make_labels_location_dict_lookup labels j l :
  NoDup labels → labels !! j = Some l →
  make_labels_location_dict labels !! l = Some j.
Proof.
  intros Hnd Hl. unfold make_labels_location_dict.
  apply elem_of_list_to_map_1.
  - rewrite fmap_imap.
    rewrite (imap_ext _ (const id) labels) by done.
    by rewrite imap_const, list_fmap_id.
  - apply elem_of_lookup_imap. by exists j, l.
Qed.

Lemma for_each_returns {A} (P : QB → Prop) (Q : A → Prop)
    (body : A → QB → Result QB) xs :
  (∀ x b, Q x → P b → ∃ b', body x b = Return b' ∧ P b') →
  Forall Q xs →
  ∀ b, P b → ∃ b', for_each body xs b = Return b' ∧ P b'.
Proof.
  intros Hbody HQ. induction HQ as [|x xs Hx _ IH]; intros b Hb; simpl.
  - eauto.
  - destruct (Hbody x b Hx Hb) as (b1 & -> & Hb1). simpl. by apply IH.
Qed.

Lemma join_items_lookup self k index alias querydict :
  join_items self !! k = Some (index, alias, querydict) →
  index = k ∧ alias_list self !! k = Some alias ∧ path self !! k = Some querydict.
Proof.
  unfold join_items. intros Hk.
  apply lookup_zip_with_Some in Hk as ([i a] & v & [= <- <- <-] & Hk & Hv).
  apply lookup_zip_with_Some in Hk as (i' & a' & [= <- <-] & Hi & Ha).
  apply lookup_seq in Hi as [-> _]. by split_and!.
Qed.

Lemma accepted_alias_lookup b j l :
  accepted b → label_list b !! j = Some l →
  ∃ a, alias_dict b !! l = Some a ∧ alias_list b !! j = Some a.
Proof.
  intros Ha Hl. pose proof (accepted_parsed _ Ha) as Hp.
  rewrite (parsed_aliases _ Hp j l Hl).
  destruct (alias_list b !! j) as [a|] eqn:E; [eauto|].
  apply lookup_ge_None in E. apply lookup_lt_Some in Hl.
  rewrite (parsed_length _ Hp) in E. lia.
Qed.

Lemma py_index_nat {A} (l : list A) j x :
  l !! j = Some x → py_index l (Z.of_nat j) = Return x.
Proof.
  intros Hl. unfold py_index.
  rewrite bool_decide_eq_true_2.
  - by rewrite Nat2Z.id, Hl.
  - apply lookup_lt_Some in Hl. lia.
Qed.

Lemma call_join_returns func joined_entity entity_to_join b :
  is_Some (que b) → func ≠ JoinSlaves → func ≠ JoinMasters →
  ∃ b', call_join func joined_entity entity_to_join b = Return b' ∧ emits b b'.
Proof.
  intros [q Hq] Hs Hm.
  destruct (call_join func joined_entity entity_to_join b) as [e|b'] eqn:E.
  - exfalso. destruct func; simpl in E; try done;
      unfold _join_inputs, _join_outputs, _join_ancestors, _join_descendants,
        _join_groups, _join_group_members, _join_computer_used in E; simpl in E;
      try (rewrite join_twice_Return with (q := q) in E by (simpl; exact Hq));
      try discriminate.
    unfold get_que in E. rewrite Hq in E. discriminate.
  - exists b'. split; [reflexivity|]. eapply call_join_emits; eauto.
Qed.

(** The keywords with an implemented join and their functions. *)
Lemma implemented_keyword_function k :
  k ∈ implemented_keywords →
  ∃ f, (k, Some f) ∈ _get_function_map ∧ f ≠ JoinSlaves ∧ f ≠ JoinMasters.
Proof.
  unfold implemented_keywords, _get_function_map. intros Hk.
  repeat (apply elem_of_cons in Hk as [->|Hk]);
    try (by apply elem_of_nil in Hk);
    eexists; (split; [|split; [|]]);
    [ repeat (first [apply list_elem_of_here | apply list_elem_of_further]) | done | done
    | repeat (first [apply list_elem_of_here | apply list_elem_of_further]) | done | done
    | repeat (first [apply list_elem_of_here | apply list_elem_of_further]) | done | done
    | repeat (first [apply list_elem_of_here | apply list_elem_of_further]) | done | done
    | repeat (first [apply list_elem_of_here | apply list_elem_of_further]) | done | done
    | repeat (first [apply list_elem_of_here | apply list_elem_of_further]) | done | done
    | repeat (first [apply list_elem_of_here | apply list_elem_of_further]) | done | done ].
Qed.

End BuildFacts.

Section BuildFacts2.
Context `{Backend}.

Lemma call_join_order_by func joined_entity entity_to_join b b' :
  call_join func joined_entity entity_to_join b = Return b' →
  order_by b' = order_by b ∧ labels_location_dict b' = labels_location_dict b.
Proof.
  intros Hr.
  destruct func; simpl in Hr; try discriminate;
    unfold _join_inputs, _join_outputs, _join_ancestors, _join_descendants,
      _join_groups, _join_group_members, _join_computer_used, join_twice in Hr;
    simpl in Hr; inv_bind Hr; by injection Hr as <-.
Qed.

Lemma join_step_returns b s index alias querydict :
  accepted b →
  alias_list s = alias_list b →
  labels_location_dict s = Some (make_labels_location_dict (label_list b)) →
  is_Some (que s) →
  path b !! index = Some querydict →
  (index ≠ 0 → vx_joining_value querydict = PInt 1 ∨
               vx_joining_keyword querydict ∈ implemented_keywords) →
  ∃ s', join_step (index, alias, querydict) s = Return s' ∧ emits s s' ∧
        order_by s' = order_by s ∧
        labels_location_dict s' = labels_location_dict s.
Proof.
  intros Ha Hal Hld Hq Hv Hcond. unfold join_step. case_bool_decide as Hi.
  { exists s. split; [done|]. split; [|done]. destruct Hq. by eapply emits_refl. }
  pose proof (accepted_parsed _ Ha) as Hp.
  assert (Hlen : length (path b) = length (label_list b)).
  { rewrite <- (parsed_labels _ Hp). by rewrite length_fmap. }
  assert (∃ target func, _get_connecting_node s querydict index = Return (target, func)
            ∧ func ≠ JoinSlaves ∧ func ≠ JoinMasters) as (target & func & Hres & Hs & Hm).
  { destruct (accepted_edges _ Ha index querydict Hv) as [Hk Hval].
    destruct Hval as [[Hkd Hd]|(l & j & Hl & Hj & Hlook)].
    - rewrite (_get_connecting_node_direction _ _ _ 1 Hkd Hd).
      rewrite bool_decide_eq_true_2 by lia.
      destruct (alias_list b !! (index - 1)) as [a|] eqn:E.
      + replace (Z.of_nat index - 1)%Z with (Z.of_nat (index - 1)) by lia.
        rewrite Hal. rewrite (py_index_nat _ _ _ E). simpl.
        exists a, JoinOutputs. by split_and!.
      + exfalso. apply lookup_ge_None in E. apply lookup_lt_Some in Hv.
        rewrite (parsed_length _ Hp) in E. lia.
    - destruct (Hcond Hi) as [Hone|Himpl]; [congruence|].
      destruct (implemented_keyword_function _ Himpl) as (f & Hf & Hs & Hm).
      destruct (accepted_alias_lookup _ _ _ Ha Hlook) as (a & _ & Hja).
      rewrite (_get_connecting_node_label _ _ _ _ f l _ j Hf eq_refl Hl Hld
                 (make_labels_location_dict_lookup _ _ _ (parsed_NoDup _ Hp) Hlook)).
      rewrite Hal, (py_index_nat _ _ _ Hja). simpl.
      exists a, f. by split_and!. }
  rewrite Hres. simpl.
  destruct (call_join_returns func target alias s Hq Hs Hm) as (s' & Hs' & He).
  exists s'. split; [exact Hs'|]. split; [exact He|].
  by apply call_join_order_by in Hs'.
Qed.

Lemma emits_labels_location_dict b b' :
  emits b b' → labels_location_dict b' = labels_location_dict b.
Proof. by intros (q & q' & n & o & _ & _ & ->). Qed.

Lemma project_items_position alias items q position entry :
  (project_items alias items q position entry).1.2 = position + length items.
Proof.
  revert q position entry. induction items as [|spec items IH];
    intros q position entry; simpl; [lia|]. rewrite IH. lia.
Qed.

(** The loop over the path that projects returns when every label has an
    alias, and adds the entities of the path in its order. *)
Lemma project_loop_returns vertices position s q :
  que s = Some q →
  (∀ v, v ∈ vertices → is_Some (alias_dict s !! vx_label v)) →
  ∃ D, project_loop vertices position s =
         Return (set_label_to_projected_entity_dict D
                   (set_que (q_set_entities
                      (q_entities q ++ projected_entities (set_path vertices s)) q) s)).
Proof.
  revert position s q. induction vertices as [|v vs IH]; intros position s q Hq Hal.
  - exists (label_to_projected_entity_dict s). simpl.
    unfold projected_entities. simpl. rewrite app_nil_r.
    f_equal. destruct s, q; simpl in *; by subst.
  - simpl. unfold projected_entities. simpl.
    destruct (py_truthy (default (PList []) (projections s !! vx_label v))) eqn:Et; simpl.
    + destruct (Hal v) as [a Ha]; [apply list_elem_of_here|]. rewrite Ha.
      unfold get_que. rewrite Hq. simpl.
      pose proof (project_items_query a
        (as_list (default (PList []) (projections s !! vx_label v))) q position []) as Hpq.
      destruct (project_items _ _ _ _ _) as [[q1 p1] e1]. simpl in Hpq. subst q1.
      match goal with
      | |- context [project_loop vs p1 ?s1] =>
          destruct (IH p1 s1 _ eq_refl) as [D HD]
      end.
      { intros w Hw. simpl. apply Hal. by apply list_elem_of_further. }
      rewrite HD. exists D. f_equal. simpl.
      unfold projected_entities. simpl. rewrite <- app_assoc. reflexivity.
    + edestruct (IH position s q) as [D HD]; [exact Hq| |].
      { intros w Hw. apply Hal. by apply list_elem_of_further. }
      rewrite HD. exists D. reflexivity.
Qed.

Lemma py_index_last_returns {A} (l : list A) :
  l ≠ [] → ∃ x, py_index l (-1) = Return x ∧ last l = Some x.
Proof.
  intros Hne. destruct (last l) as [x|] eqn:E.
  - exists x. split; [|reflexivity]. unfold py_index.
    rewrite bool_decide_eq_false_2 by lia.
    assert (0 < length l) by (destruct l; [done|simpl; lia]).
    rewrite bool_decide_eq_true_2 by lia.
    rewrite last_lookup in E.
    replace (Z.to_nat (Z.of_nat (length l) + -1)) with (pred (length l)) by lia.
    by rewrite E.
  - by apply last_None in E.
Qed.

End BuildFacts2.

Section BuildFacts3.
Context `{Backend}.

Lemma call_join_keeps_where func joined_entity entity_to_join b b' q :
  call_join func joined_entity entity_to_join b = Return b' →
  que b = Some q →
  ∃ q', que b' = Some q' ∧ q_where q' = q_where q.
Proof.
  intros Hr Hq.
  destruct func; simpl in Hr; try discriminate;
    unfold _join_inputs, _join_outputs, _join_ancestors, _join_descendants,
      _join_groups, _join_group_members, _join_computer_used, join_twice in Hr;
    simpl in Hr; inv_bind Hr; apply get_que_Return in Ha; simpl in Ha;
    rewrite Hq in Ha; injection Ha as <-; injection Hr as <-;
    eexists; (split; [reflexivity|]); reflexivity.
Qed.

(** The state in which the joins begin. *)
Lemma joins_return b first_alias :
  accepted b →
  (∀ i v, path b !! i = Some v → i ≠ 0 →
          vx_joining_value v = PInt 1 ∨ vx_joining_keyword v ∈ implemented_keywords) →
  let s0 := set_que (session_query first_alias)
              (set_labels_location_dict (make_labels_location_dict (label_list b)) b) in
  ∃ s3 q3, for_each join_step (join_items s0) s0 = Return s3 ∧
           emits s0 s3 ∧ order_by s3 = order_by b ∧
           que s3 = Some q3 ∧ q_where q3 = [].
Proof.
  intros Ha Hcond s0.
  set (P := λ s : QB, emits s0 s ∧ order_by s = order_by b ∧
                       labels_location_dict s = labels_location_dict s0 ∧
                       ∃ q, que s = Some q ∧ q_where q = []).
  set (Q := λ item : nat * Alias * Vertex,
              path b !! item.1.1 = Some item.2 ∧
              (item.1.1 ≠ 0 → vx_joining_value item.2 = PInt 1 ∨
                                vx_joining_keyword item.2 ∈ implemented_keywords)).
  destruct (for_each_returns P Q join_step (join_items s0)) with (b := s0)
    as (s3 & Hs3 & He & Ho & _ & q3 & Hq3 & Hw3).
  - intros [[index alias] querydict] s [Hv Hc] (He & Ho & Hl & q & Hq & Hw).
    simpl in Hv, Hc.
    apply emits_inv in He as Hinv.
    destruct Hinv as (q0 & q0' & _ & _ & _ & _ & _ & Hal & _).
    assert (Hal' : alias_list s = alias_list b) by (by rewrite Hal).
    assert (Hld' : labels_location_dict s
                   = Some (make_labels_location_dict (label_list b)))
      by (by rewrite Hl).
    assert (Hq' : is_Some (que s)) by eauto.
    destruct (join_step_returns b s index alias querydict Ha Hal' Hld' Hq' Hv Hc)
      as (s' & Hs' & He' & Ho' & Hl').
    exists s'. split; [exact Hs'|]. split; [by eapply emits_trans|].
    split; [congruence|]. split; [congruence|].
    unfold join_step in Hs'. case_bool_decide.
    + injection Hs' as <-. eauto.
    + inv_bind Hs'. destruct a as [t f].
      destruct (call_join_keeps_where _ _ _ _ _ _ Hs' Hq) as (q' & Hq2 & Hw').
      exists q'. split; [exact Hq2|congruence].
  - apply Forall_lookup. intros k [[index alias] querydict] Hk.
    apply join_items_lookup in Hk as (-> & _ & Hv). simpl in Hv.
    split; [exact Hv|]. simpl. intros Hne. by apply (Hcond _ _ Hv).
  - split; [by eapply emits_refl|]. split; [reflexivity|]. split; [reflexivity|].
    eexists. split; reflexivity.
  - exists s3, q3. by split_and!.
Qed.

(** The query after the filters of the items were attached. *)
Lemma filters_return items :
  ∀ s q, que s = Some q →
    Forall (λ lf : string * FilterSpec, is_Some (alias_dict s !! lf.1)) items →
    for_each filter_step items s =
      Return (set_que
        (foldl (λ q e, q_filter e q) q
           (omap (λ lf : string * FilterSpec,
                    alias ← alias_dict s !! lf.1; Some (alias, lf.2)) items)) s).
Proof.
  induction items as [|[l f] items IH]; intros s q Hq Hall; simpl.
  - f_equal. destruct s; simpl in *; by subst.
  - apply Forall_cons in Hall as [[a Ha] Hall]. simpl in Ha. rewrite Ha. simpl.
    unfold get_que. rewrite Hq. simpl.
    rewrite (IH _ (q_filter (a, f) q)); [|reflexivity|exact Hall].
    reflexivity.
Qed.

Lemma foldl_q_filter es : ∀ q,
  q_where (foldl (λ q e, q_filter e q) q es) = q_where q ++ es ∧
  q_from (foldl (λ q e, q_filter e q) q es) = q_from q ∧
  q_entities (foldl (λ q e, q_filter e q) q es) = q_entities q ∧
  q_limit (foldl (λ q e, q_filter e q) q es) = q_limit q.
Proof.
  induction es as [|e es IH]; intros q; simpl.
  - by rewrite app_nil_r.
  - destruct (IH (q_filter e q)) as (-> & -> & -> & ->). simpl.
    by rewrite <- app_assoc.
Qed.

End BuildFacts3.

Section BuildFacts5.
Context `{Backend}.
Lemma project_loop_positions vertices position s q :
  que s = Some q →
  (∀ v, v ∈ vertices → is_Some (alias_dict s !! vx_label v)) →
  position = length (q_entities q) →
  positions_consistent s q →
  ∃ s' q', project_loop vertices position s = Return s' ∧ que s' = Some q' ∧
           positions_consistent s' q'.
Proof.
  revert position s q. induction vertices as [|v vs IH];
    intros position s q Hq Hal Hpos Hcons.
  - exists s, q. by split_and!.
  - simpl.
    destruct (py_truthy (default (PList []) (projections s !! vx_label v))) eqn:Et; simpl.
    + destruct (Hal v) as [a Ha]; [apply list_elem_of_here|]. rewrite Ha.
      unfold get_que. rewrite Hq. simpl.
      set (items := as_list (default (PList []) (projections s !! vx_label v))).
      pose proof (project_items_query a items q position []) as Hpq.
      pose proof (project_items_position a items q position []) as Hpp.
      pose proof (project_items_entry a items q position []) as Hpe.
      destruct (project_items _ _ _ _ _) as [[q1 p1] e1]. simpl in Hpq, Hpp, Hpe.
      subst q1 p1 e1.
      match goal with
      | |- context [project_loop vs ?p1 ?s1] =>
          destruct (IH p1 s1 _ eq_refl) as (s' & q' & Hs' & Hq' & Hc')
      end.
      * intros w Hw. simpl. apply Hal. by apply list_elem_of_further.
      * simpl. rewrite length_app, length_fmap. lia.
      * intros label entry spec p. simpl. intros Hentry Hin.
        destruct (decide (vx_label v = label)) as [<-|Hne].
        -- rewrite lookup_insert_eq in Hentry. injection Hentry as <-.
           apply elem_of_lookup_imap in Hin as (i & x & [= -> ->] & Hi).
           exists a. split; [exact Ha|].
           rewrite lookup_app_r by lia.
           replace (position + i - length (q_entities q)) with i by lia.
           by rewrite list_lookup_fmap, Hi.
        -- rewrite lookup_insert_ne in Hentry by done.
           destruct (Hcons label entry spec p Hentry Hin) as (a' & Ha' & Hp').
           exists a'. split; [exact Ha'|]. by apply lookup_app_l_Some.
      * exists s', q'. by split_and!.
    + destruct (IH position s q Hq) as (s' & q' & Hs' & Hq' & Hc'); try done.
      { intros w Hw. apply Hal. by apply list_elem_of_further. }
      exists s', q'. by split_and!.
Qed.
End BuildFacts5.

Section BuildFacts4.
Context `{Backend}.

Lemma bind_Return_eq {A B} (a : A) (f : A → Result B) : Return a ≫= f = f a.
Proof. reflexivity. Qed.

Lemma get_que_set_que q s : get_que (set_que q s) = Return q.
Proof. reflexivity. Qed.

Lemma any_projection_ext s b :
  projections s = projections b → any_projection s = any_projection b.
Proof. unfold any_projection. by intros ->. Qed.

Lemma q_where_set_entities es q : q_where (q_set_entities es q) = q_where q.
Proof. reflexivity. Qed.

Lemma q_limit_set_entities es q : q_limit (q_set_entities es q) = q_limit q.
Proof. reflexivity. Qed.

Lemma projected_entities_ext s s' :
  path s = path s' → projections s = projections s' →
  alias_dict s = alias_dict s' →
  projected_entities s = projected_entities s'.
Proof. unfold projected_entities. by intros -> -> ->. Qed.

Lemma accepted_label_alias b l :
  accepted b → l ∈ label_list b → is_Some (alias_dict b !! l).
Proof.
  intros Ha Hl. apply list_elem_of_lookup in Hl as [j Hj].
  destruct (accepted_alias_lookup _ _ _ Ha Hj) as (a & Hal & _). eauto.
Qed.

Lemma attached_filters_all b :
  accepted b →
  attached_filters b =
    omap (λ lf : string * FilterSpec,
            alias ← alias_dict b !! lf.1; Some (alias, lf.2))
         (map_to_list (filters b)) ∧
  Forall (λ lf : string * FilterSpec, is_Some (alias_dict b !! lf.1))
         (map_to_list (filters b)).
Proof.
  intros Ha. split; [reflexivity|].
  apply Forall_forall. intros [l f] Hlf. simpl.
  apply elem_of_map_to_list in Hlf.
  apply accepted_label_alias; [exact Ha|]. apply (accepted_filter_keys _ Ha). eauto.
Qed.

(** [_build_query] on an accepted instance, from the end of the joins up
    to the ORDER section. *)
Lemma _build_query_after_joins b first_alias s3 q3 :
  accepted b → alias_list b !! 0 = Some first_alias →
  for_each join_step
    (join_items (set_que (session_query first_alias)
       (set_labels_location_dict (make_labels_location_dict (label_list b)) b)))
    (set_que (session_query first_alias)
       (set_labels_location_dict (make_labels_location_dict (label_list b)) b))
    = Return s3 →
  emits (set_que (session_query first_alias)
           (set_labels_location_dict (make_labels_location_dict (label_list b)) b)) s3 →
  order_by s3 = order_by b → que s3 = Some q3 → q_where q3 = [] →
  ∃ s8 q8,
    _build_query b =
      (self ← build_order s8;
       self ← (if py_truthy (limit self) then
                 q ← get_que self;
                 Return (set_que (q_set_limit (limit self) q) self)
               else Return self);
       q ← get_que self; Return (q, self)) ∧
    que s8 = Some q8 ∧
    q_where q8 = attached_filters b ∧
    q_entities q8 = projected_entities s8 ∧
    q_limit q8 = None ∧
    positions_consistent s8 q8 ∧
    path s8 = path b ∧ alias_dict s8 = alias_dict b ∧
    order_by s8 = order_by b ∧ limit s8 = limit b ∧
    projections s8 =
      (if any_projection b then projections b
       else <[default "" (last (label_list b)) := PStr "*"]> (projections b)).
Proof.
  intros Ha Hfa Hj He3 Ho3 Hq3 Hw3. pose proof (accepted_parsed _ Ha) as Hp.
  assert (Hlen : length (path b) = length (label_list b)).
  { rewrite <- (parsed_labels _ Hp). by rewrite length_fmap. }
  unfold _build_query.
  rewrite bool_decide_eq_true_2 by apply (parsed_NoDup _ Hp). simpl negb. cbv iota.
  assert (Hfirst : py_index (alias_list (set_labels_location_dict
              (make_labels_location_dict (label_list b)) b)) 0 = Return first_alias).
  { simpl. by apply (py_index_nat _ 0). }
  rewrite Hfirst, bind_Return_eq.
  rewrite Hj, bind_Return_eq.
  apply emits_inv in He3
    as (q0 & q3' & Hq0 & Hq3' & (Hf3 & Hen3 & Hl3) & Hp3 & Hll3 & Hal3 & Had3 & Hfi3 & Hpr3 & Hlim3 & Hd3).
  simpl in *. rewrite Hq3 in Hq3'. injection Hq3' as <-. injection Hq0 as <-.
  destruct (attached_filters_all b Ha) as [Haf Hall].
  rewrite Hfi3.
  rewrite (filters_return _ s3 q3 Hq3) by (by rewrite Had3).
  rewrite bind_Return_eq. rewrite Had3, <- Haf.
  destruct (foldl_q_filter (attached_filters b) q3) as (Hw4 & Hf4 & He4 & Hl4).
  remember (foldl (λ q e, q_filter e q) q3 (attached_filters b)) as q4 eqn:Eq4.
  clear Eq4.
  rewrite get_que_set_que, bind_Return_eq.
  rewrite (any_projection_ext _ b) by (simpl; exact Hpr3).
  assert (Halias : ∀ v, v ∈ path b → is_Some (alias_dict b !! vx_label v)).
  { intros v Hv. apply accepted_label_alias; [exact Ha|].
    rewrite <- (parsed_labels _ Hp). apply list_elem_of_fmap. by exists v. }
  assert (Hfinish : ∀ s7 : QB,
    path s7 = path b → alias_dict s7 = alias_dict b →
    que s7 = Some (q_set_entities [] q4) →
    label_to_projected_entity_dict s7 = ∅ →
    ∃ s8 q8, project_loop (path s7) 0 s7 = Return s8 ∧ que s8 = Some q8 ∧
      q_where q8 = q_where q4 ∧ q_entities q8 = projected_entities s8 ∧
      q_limit q8 = q_limit q4 ∧ positions_consistent s8 q8 ∧
      path s8 = path s7 ∧ alias_dict s8 = alias_dict s7 ∧
      order_by s8 = order_by s7 ∧ limit s8 = limit s7 ∧
      projections s8 = projections s7).
  { intros s7 Hp7 Had7 Hq7 Hd7.
    assert (Hal7 : ∀ v, v ∈ path s7 → is_Some (alias_dict s7 !! vx_label v)).
    { intros v Hv. rewrite Had7. apply Halias. by rewrite <- Hp7. }
    destruct (project_loop_returns (path s7) 0 s7 _ Hq7 Hal7) as [D HD].
    destruct (project_loop_positions (path s7) 0 s7 _ Hq7 Hal7 eq_refl)
      as (s8 & q8 & Hs8 & Hq8 & Hc8).
    { intros label entry spec p Hentry. rewrite Hd7 in Hentry.
      by rewrite lookup_empty in Hentry. }
    rewrite HD in Hs8. injection Hs8 as <-. simpl in Hq8. injection Hq8 as <-.
    eexists _, _. split; [exact HD|]. split; [reflexivity|].
    split; [reflexivity|].
    split; [simpl; by apply projected_entities_ext|].
    split; [reflexivity|]. split; [exact Hc8|]. by split_and!. }
  destruct (any_projection b) eqn:Eany; simpl negb; cbv iota.
  - rewrite bind_Return_eq.
    match goal with
    | |- context [project_loop (path ?s7) 0 ?s7] =>
        destruct (Hfinish s7) as (s8 & q8 & Hs8 & Hq8 & Hw8 & He8 & Hl8 & Hc8
                                    & Hp8 & Had8 & Ho8 & Hlim8 & Hpr8);
          [exact Hp3|exact Had3|reflexivity|reflexivity|]
    end.
    rewrite Hs8, bind_Return_eq.
    exists s8, q8. split; [reflexivity|]. split; [exact Hq8|].
    split; [by rewrite Hw8, Hw4, Hw3|]. split; [exact He8|].
    split; [by rewrite Hl8, Hl4, Hl3|]. split; [exact Hc8|].
    rewrite Hp8, Had8, Ho8, Hlim8, Hpr8. simpl. by split_and!.
  - assert (Hll : label_list b ≠ []).
    { intros Hnil. apply lookup_lt_Some in Hfa.
      rewrite (parsed_length _ Hp), Hnil in Hfa. simpl in Hfa. lia. }
    destruct (py_index_last_returns _ Hll) as (x & Hx & Hlast).
    assert (Hx' : py_index (label_list (set_que q4 s3)) (-1) = Return x)
      by (simpl; by rewrite Hll3).
    rewrite Hx', !bind_Return_eq.
    match goal with
    | |- context [project_loop (path ?s7) 0 ?s7] =>
        destruct (Hfinish s7) as (s8 & q8 & Hs8 & Hq8 & Hw8 & He8 & Hl8 & Hc8
                                    & Hp8 & Had8 & Ho8 & Hlim8 & Hpr8);
          [exact Hp3|exact Had3|reflexivity|reflexivity|]
    end.
    rewrite Hs8, bind_Return_eq.
    exists s8, q8. split; [reflexivity|]. split; [exact Hq8|].
    split; [by rewrite Hw8, Hw4, Hw3|]. split; [exact He8|].
    split; [by rewrite Hl8, Hl4, Hl3|]. split; [exact Hc8|].
    rewrite Hp8, Had8, Ho8, Hlim8, Hpr8, Hlast. simpl. rewrite Hpr3. by split_and!.
Qed.

End BuildFacts4.

Section BuildFacts6.
Context `{Backend}.

Lemma order_columns_keeps_where alias val w : ∀ s s',
  (∃ q, que s = Some q ∧ q_where q = w) →
  order_columns alias val s = Return s' →
  ∃ q', que s' = Some q' ∧ q_where q' = w.
Proof.
  induction val as [|c val IH]; intros s s' (q & Hq & Hw) Hr; simpl in Hr.
  - injection Hr as <-. eauto.
  - inv_bind Hr. unfold get_que in Hr. rewrite Hq in Hr. simpl in Hr.
    eapply IH; [|exact Hr]. simpl. eauto.
Qed.

Lemma build_order_keeps_where s s' w :
  (∃ q, que s = Some q ∧ q_where q = w) →
  build_order s = Return s' →
  ∃ q', que s' = Some q' ∧ q_where q' = w.
Proof.
  intros Hq Hr. unfold build_order in Hr.
  destruct (py_truthy (order_by s)); [|injection Hr as <-; exact Hq].
  set (P := λ c : QB, ∃ q, que c = Some q ∧ q_where q = w).
  revert Hr. apply (for_each_Return_inv P).
  - intros order_spec c c' Hc Hr. destruct order_spec; try discriminate.
    simpl in Hr. revert Hr. apply (for_each_Return_inv P); [|exact Hc].
    intros [key val] e e' He Hr. simpl in Hr.
    destruct key as [| | |k| | |]; try discriminate.
    destruct (alias_dict e !! k); [|discriminate].
    by eapply order_columns_keeps_where.
  - destruct (order_by s); exact Hq.
Qed.

(** What the loop of the joins leaves when it returned. *)
Lemma joins_Return_inv items s0 s3 q0 :
  que s0 = Some q0 → q_where q0 = [] →
  for_each join_step items s0 = Return s3 →
  emits s0 s3 ∧ order_by s3 = order_by s0 ∧
  ∃ q3, que s3 = Some q3 ∧ q_where q3 = [].
Proof.
  intros Hq0 Hw0 Hr. split.
  { revert Hr. apply for_each_emits; [|eauto]. apply join_step_emits. }
  set (P := λ c : QB, order_by c = order_by s0 ∧
                       ∃ q, que c = Some q ∧ q_where q = []).
  revert Hr. apply (for_each_Return_inv P).
  - intros [[index alias] querydict] c c' [Ho (q & Hq & Hw)] Hr.
    unfold join_step in Hr. case_bool_decide.
    + injection Hr as <-. split; [exact Ho|eauto].
    + inv_bind Hr. destruct a as [t f].
      destruct (call_join_keeps_where _ _ _ _ _ _ Hr Hq) as (q' & Hq' & Hw').
      apply call_join_order_by in Hr as [Ho' _].
      split; [congruence|]. exists q'. split; [exact Hq'|congruence].
  - split; [reflexivity|eauto].
Qed.

(** What [_build_query] returns for an accepted instance. *)
Lemma _build_query_Return_accepted b q b' :
  accepted b → _build_query b = Return (q, b') →
  que b' = Some q ∧
  q_where q = attached_filters b ∧
  q_entities q = projected_entities b' ∧
  positions_consistent b' q ∧
  q_limit q = (if py_truthy (limit b) then Some (limit b) else None) ∧
  path b' = path b ∧ alias_dict b' = alias_dict b ∧ limit b' = limit b ∧
  projections b' =
    (if any_projection b then projections b
     else <[default "" (last (label_list b)) := PStr "*"]> (projections b)).
Proof.
  intros Ha Hr. pose proof Hr as Hr0.
  unfold _build_query in Hr.
  destruct (negb _); [discriminate|].
  inv_bind Hr. rename a into first_alias, Ha0 into Hfa.
  simpl in Hfa. apply py_index_0 in Hfa.
  inv_bind Hr. rename a into s3, Ha0 into Hj. clear Hr.
  apply joins_Return_inv with (q0 := session_query first_alias) in Hj as Hj';
    [|reflexivity|reflexivity].
  destruct Hj' as (He3 & Ho3 & q3 & Hq3 & Hw3).
  simpl in Ho3.
  destruct (_build_query_after_joins b first_alias s3 q3 Ha Hfa Hj He3 Ho3 Hq3 Hw3)
    as (s8 & q8 & Hnf & Hq8 & Hw8 & He8 & Hl8 & Hc8 & Hp8 & Had8 & Ho8 & Hlim8 & Hpr8).
  rewrite Hnf in Hr0. clear Hnf.
  inv_bind Hr0. rename a into s9, Ha0 into Hord.
  destruct (build_order_keeps_where s8 s9 (q_where q8)) as (q9 & Hq9 & Hw9);
    [eauto|exact Hord|].
  apply build_order_emits in Hord; [|eauto].
  apply emits_inv in Hord
    as (q8' & q9' & Hq8' & Hq9' & (Hf9 & Hen9 & Hl9) & Hp9 & Hll9 & Hal9 & Had9
        & Hfi9 & Hpr9 & Hlim9 & Hd9).
  rewrite Hq8 in Hq8'. injection Hq8' as <-.
  rewrite Hq9 in Hq9'. injection Hq9' as <-.
  assert (Hpe : projected_entities s9 = projected_entities s8).
  { apply projected_entities_ext; assumption. }
  assert (Hc9 : ∀ q', q_entities q' = q_entities q8 → ∀ c : QB,
             label_to_projected_entity_dict c = label_to_projected_entity_dict s9 →
             alias_dict c = alias_dict s9 →
             positions_consistent c q').
  { intros q' Hen c Hd Had label entry spec position Hentry Hin.
    rewrite Hd, Hd9 in Hentry.
    destruct (Hc8 label entry spec position Hentry Hin) as (alias & Halias & Hpos).
    exists alias. by rewrite Had, Had9, Hen. }
  rewrite Hlim9, Hlim8 in Hr0.
  destruct (py_truthy (limit b)); simpl in Hr0.
  - unfold get_que in Hr0. rewrite Hq9 in Hr0. simpl in Hr0.
    injection Hr0 as <- <-. simpl.
    split; [reflexivity|]. split; [congruence|].
    split; [etrans; [|etrans; [exact He8|symmetry]]; [exact Hen9|];
            by apply projected_entities_ext|].
    split; [by apply Hc9|]. split; [reflexivity|].
    split; [congruence|]. split; [congruence|]. split; [congruence|]. congruence.
  - unfold get_que in Hr0. rewrite Hq9 in Hr0. simpl in Hr0.
    injection Hr0 as <- <-.
    split; [exact Hq9|]. split; [congruence|].
    split; [congruence|].
    split; [by apply Hc9|]. split; [congruence|].
    split; [congruence|]. split; [congruence|]. split; [congruence|]. congruence.
Qed.

End BuildFacts6.

Section BuildFacts7.
Context `{Backend}.

Lemma for_each_succeeds {A} (P : QB → Prop) (R : A → Prop) (Q : A → bool)
    (body : A → QB → Result QB) xs :
  (∀ x b, R x → Q x = true → P b → ∃ b', body x b = Return b' ∧ P b') →
  (∀ x b, R x → Q x = false → P b → succeeds (body x b) = false) →
  Forall R xs →
  ∀ b, P b → succeeds (for_each body xs b) = forallb Q xs.
Proof.
  intros Hgood Hbad HR. induction HR as [|x xs Hx _ IH]; intros b Hb; simpl.
  - reflexivity.
  - destruct (Q x) eqn:EQ; simpl.
    + destruct (Hgood x b Hx EQ Hb) as (b1 & -> & Hb1). simpl. by apply IH.
    + specialize (Hbad x b Hx EQ Hb).
      destruct (body x b); [reflexivity|discriminate].
Qed.

Lemma forallb_join_items (f : nat * Alias * Vertex → bool) (g : Vertex → bool)
    (vs : list Vertex) : ∀ (als : list Alias) k,
  length als = length vs →
  (∀ i a v, k ≤ i → f (i, a, v) = g v) →
  forallb f (zip (zip (seq k (length als)) als) vs) = forallb g vs.
Proof.
  induction vs as [|v vs IH]; intros [|a als] k Hlen Hf; simpl in *; try done.
  rewrite Hf by lia. f_equal. apply IH; [lia|]. intros i a' v' Hi. apply Hf. lia.
Qed.

Lemma not_implemented_keyword k :
  k ∈ specification_to_function_map_keys → k ∉ implemented_keywords →
  k = "slave_of" ∨ k = "master_of" ∨ k = "direction".
Proof.
  unfold specification_to_function_map_keys, implemented_keywords. simpl.
  intros Hk Hn.
  repeat (apply elem_of_cons in Hk as [->|Hk]); try (by apply elem_of_nil in Hk);
    try (by left); try (by right; left); try (by right; right);
    exfalso; apply Hn;
    repeat (first [apply list_elem_of_here | apply list_elem_of_further]).
Qed.

(** A vertex after the first whose edge is not implemented stops the
    loop of the joins. *)
Lemma join_step_fails b s index alias querydict :
  accepted b →
  alias_list s = alias_list b →
  labels_location_dict s = Some (make_labels_location_dict (label_list b)) →
  path b !! index = Some querydict →
  index ≠ 0 → implemented_edge querydict = false →
  succeeds (join_step (index, alias, querydict) s) = false.
Proof.
  intros Ha Hal Hld Hv Hi Himpl. unfold join_step.
  rewrite bool_decide_eq_false_2 by exact Hi.
  pose proof (accepted_parsed _ Ha) as Hp.
  destruct (accepted_edges _ Ha index querydict Hv) as [Hk Hval].
  unfold implemented_edge in Himpl.
  destruct Hval as [[Hkd Hd]|(l & j & Hl & Hj & Hlook)].
  { by rewrite Hd in Himpl. }
  rewrite Hl in Himpl. apply bool_decide_eq_false_1 in Himpl.
  destruct (accepted_alias_lookup _ _ _ Ha Hlook) as (a & _ & Hja).
  pose proof (make_labels_location_dict_lookup _ _ _ (parsed_NoDup _ Hp) Hlook) as Hloc.
  destruct (not_implemented_keyword _ Hk Himpl) as [Hkw|[Hkw|Hkw]].
  - rewrite (_get_connecting_node_label s querydict index _ JoinSlaves l _ j
               ltac:(unfold _get_function_map;
                     repeat (first [apply list_elem_of_here
                                   | apply list_elem_of_further]))
               Hkw Hl Hld Hloc).
    rewrite Hal, (py_index_nat _ _ _ Hja). reflexivity.
  - rewrite (_get_connecting_node_label s querydict index _ JoinMasters l _ j
               ltac:(unfold _get_function_map;
                     repeat (first [apply list_elem_of_here
                                   | apply list_elem_of_further]))
               Hkw Hl Hld Hloc).
    rewrite Hal, (py_index_nat _ _ _ Hja). reflexivity.
  - unfold _get_connecting_node. rewrite Hkw, Hl. reflexivity.
Qed.

(** Whether the loop of the joins returns. *)
Lemma joins_succeed b first_alias :
  accepted b →
  let s0 := set_que (session_query first_alias)
              (set_labels_location_dict (make_labels_location_dict (label_list b)) b) in
  succeeds (for_each join_step (join_items s0) s0)
    = forallb implemented_edge (drop 1 (path b)).
Proof.
  intros Ha s0. pose proof (accepted_parsed _ Ha) as Hp.
  assert (Hlen : length (alias_list b) = length (path b)).
  { rewrite (parsed_length _ Hp), <- (parsed_labels _ Hp). by rewrite length_fmap. }
  set (P := λ s : QB, alias_list s = alias_list b ∧
                       labels_location_dict s
                         = Some (make_labels_location_dict (label_list b)) ∧
                       is_Some (que s)).
  set (R := λ item : nat * Alias * Vertex, path b !! item.1.1 = Some item.2).
  set (Q := λ item : nat * Alias * Vertex,
              bool_decide (item.1.1 = 0) || implemented_edge item.2).
  rewrite (for_each_succeeds P R Q).
  - unfold join_items. simpl.
    destruct (path b) as [|v vs] eqn:Ep; destruct (alias_list b) as [|a als] eqn:Eal;
      simpl in *; try done.
    rewrite drop_0. apply forallb_join_items; [lia|].
    intros i a' v' Hi. unfold Q. simpl. rewrite bool_decide_eq_false_2 by lia. done.
  - intros [[index alias] querydict] s Hv HQ (Hal & Hld & Hq). unfold R, Q in *.
    simpl in *.
    destruct (join_step_returns b s index alias querydict Ha Hal Hld Hq Hv)
      as (s' & Hs' & He & _ & Hl').
    { intros Hne. rewrite bool_decide_eq_false_2 in HQ by exact Hne. simpl in HQ.
      unfold implemented_edge in HQ.
      destruct (vx_joining_value querydict) as [| | z | | | |] eqn:Ev;
        try (right; by apply bool_decide_eq_true_1 in HQ).
      destruct z as [|p|p]; try (right; by apply bool_decide_eq_true_1 in HQ).
      destruct p; try (right; by apply bool_decide_eq_true_1 in HQ). by left. }
    exists s'. split; [exact Hs'|].
    apply emits_inv in He as (q0 & q0' & _ & Hq' & _ & _ & _ & Hal' & _).
    split; [congruence|]. split; [congruence|]. eauto.
  - intros [[index alias] querydict] s Hv HQ (Hal & Hld & Hq). unfold R, Q in *.
    simpl in *. apply orb_false_elim in HQ as [Hi Himpl].
    apply bool_decide_eq_false_1 in Hi.
    by eapply join_step_fails.
  - apply Forall_lookup. intros k [[index alias] querydict] Hk.
    apply join_items_lookup in Hk as (-> & _ & Hv). exact Hv.
  - split; [reflexivity|]. split; [reflexivity|]. simpl. eauto.
Qed.

End BuildFacts7.

Section BuildTheorems.
Context `{Backend}.

(** The instances that the constructor returns are [accepted], and each of
    the chained operations [inputs], [outputs], [children] and [parents]
    keeps an instance [accepted], whatever its keyword arguments. *)
Theorem accepted_is_kept queryhelp b0 kwargs b b' :
  __init__ queryhelp = Return b0 → accepted b →
  inputs kwargs b = Return b' ∨ outputs kwargs b = Return b' ∨
  children kwargs b = Return b' ∨ parents kwargs b = Return b' →
  accepted b0 ∧ accepted b'.
Proof.
  intros Hi Ha Hop. split; [by eapply __init___accepted|].
  assert (Hchain : ∀ keyword, chain keyword kwargs b = Return b' → accepted b').
  { intros keyword Hc. unfold chain in Hc. inv_bind Hc.
    case_bool_decide; [discriminate|].
    apply fmap_Return in Hc as ([l s] & Hc & ->). simpl.
    by eapply _add_to_path_accepted. }
  destruct Hop as [Hop|[Hop|[Hop|Hop]]]; by eapply Hchain.
Qed.

(** [_build_query] returns for an accepted instance without [order_by]
    exactly when every vertex after the first has an edge that can be
    joined: the keywords 'slave_of' and 'master_of' and a label given as
    'direction' pass the constructor and raise here. *)
Theorem _build_query_returns b :
  accepted b → path b ≠ [] → py_truthy (order_by b) = false →
  succeeds (_build_query b) = forallb implemented_edge (drop 1 (path b)).
Proof.
  intros Ha Hne Ho. pose proof (accepted_parsed _ Ha) as Hp.
  assert (Hlen : length (alias_list b) = length (path b)).
  { rewrite (parsed_length _ Hp), <- (parsed_labels _ Hp). by rewrite length_fmap. }
  destruct (alias_list b) as [|first_alias als] eqn:Eal.
  { destruct (path b); [done|discriminate]. }
  assert (Hfa : alias_list b !! 0 = Some first_alias) by (by rewrite Eal).
  rewrite <- (joins_succeed b first_alias Ha). simpl.
  destruct (for_each join_step _ _) as [e|s3] eqn:Hj.
  - unfold _build_query.
    rewrite bool_decide_eq_true_2 by apply (parsed_NoDup _ Hp). simpl negb. cbv iota.
    assert (Hfirst : py_index (alias_list (set_labels_location_dict
                (make_labels_location_dict (label_list b)) b)) 0 = Return first_alias).
    { simpl. by apply (py_index_nat _ 0). }
    rewrite Hfirst, bind_Return_eq. rewrite Hj. reflexivity.
  - apply joins_Return_inv with (q0 := session_query first_alias) in Hj as Hj';
      [|reflexivity|reflexivity].
    destruct Hj' as (He3 & Ho3 & q3 & Hq3 & Hw3). simpl in Ho3.
    destruct (_build_query_after_joins b first_alias s3 q3 Ha Hfa Hj He3 Ho3 Hq3 Hw3)
      as (s8 & q8 & -> & Hq8 & _ & _ & _ & _ & _ & _ & Ho8 & _).
    unfold build_order. rewrite Ho8, Ho. rewrite bind_Return_eq.
    destruct (py_truthy (limit s8)); unfold get_que; simpl; rewrite Hq8; reflexivity.
Qed.

(** The query that [_build_query] returns has one where-clause for every
    vertex of the path and no other: the filter set of each label, attached
    to the alias of that label. *)
Theorem _build_query_attaches_filters b q b' :
  accepted b → _build_query b = Return (q, b') →
  q_where q = attached_filters b ∧
  length (q_where q) = length (path b) ∧
  ∀ l f, filters b !! l = Some f →
         ∃ alias, alias_dict b !! l = Some alias ∧ (alias, f) ∈ q_where q.
Proof.
  intros Ha Hr. pose proof (accepted_parsed _ Ha) as Hp.
  apply _build_query_Return_accepted in Hr as (_ & Hw & _); [|exact Ha].
  destruct (attached_filters_all b Ha) as [_ Hall].
  split; [exact Hw|]. rewrite Hw. split.
  - unfold attached_filters.
    assert (Hlen : ∀ items : list (string * FilterSpec),
              Forall (λ lf, is_Some (alias_dict b !! lf.1)) items →
              length (omap (λ lf : string * FilterSpec,
                              alias ← alias_dict b !! lf.1; Some (alias, lf.2)) items)
              = length items).
    { induction 1 as [|[l f] items [a Hl] _ IH]; simpl in *; [done|].
      rewrite Hl. simpl. f_equal. exact IH. }
    rewrite (Hlen _ Hall).
    rewrite <- (length_fmap fst (map_to_list (filters b))).
    rewrite <- (length_fmap vx_label (path b)), (parsed_labels _ Hp).
    apply Permutation_length, NoDup_Permutation.
    + apply NoDup_fst_map_to_list.
    + apply (parsed_NoDup _ Hp).
    + intros l. split.
      * intros Hl. apply list_elem_of_fmap in Hl as ([l' f] & -> & Hlf).
        apply elem_of_map_to_list in Hlf. apply (accepted_filter_keys _ Ha). eauto.
      * intros Hl. destruct (parsed_filters _ Hp l Hl) as [f Hf].
        apply list_elem_of_fmap. exists (l, f). split; [done|].
        by apply elem_of_map_to_list.
  - intros l f Hf.
    destruct (accepted_label_alias b l Ha) as [a Hl].
    { apply (accepted_filter_keys _ Ha). eauto. }
    exists a. split; [exact Hl|]. unfold attached_filters.
    apply list_elem_of_omap. exists (l, f). split.
    + by apply elem_of_map_to_list.
    + simpl. by rewrite Hl.
Qed.

(** When some label has a projection, the entities of the query are the
    projections of the vertices in the order of the path, each with the
    alias of its vertex; the order in which the projections were given does
    not matter. *)
Theorem _build_query_projects_in_path_order b q b' :
  accepted b → any_projection b = true → _build_query b = Return (q, b') →
  q_entities q = projected_entities b.
Proof.
  intros Ha Hany Hr.
  apply _build_query_Return_accepted in Hr
    as (_ & _ & He & _ & _ & Hp & Had & _ & Hpr); [|exact Ha].
  rewrite Hany in Hpr. rewrite He. by apply projected_entities_ext.
Qed.

(** The position that the instance records for a projection of a label is
    the position of that projection among the entities of the query, where
    it stands with the alias of the label: a row of results can be read
    through [label_to_projected_entity_dict]. *)
Theorem _build_query_positions b q b' :
  accepted b → _build_query b = Return (q, b') →
  positions_consistent b' q.
Proof.
  intros Ha Hr.
  by apply _build_query_Return_accepted in Hr as (_ & _ & _ & Hc & _).
Qed.

End BuildTheorems.

Section BuildTheorems2.
Context `{Backend}.

(** A key of [order_by] that is not a label of the path, such as a class
    or a type string that differs from the label, raises [KeyError] when
    the query is built: the keys are looked up among the labels only. *)
Theorem order_by_key_must_be_label b key val items specs :
  accepted b → path b ≠ [] →
  forallb implemented_edge (drop 1 (path b)) = true →
  order_by b = PList (PDict ((key, val) :: items) :: specs) →
  (∀ l, key = PStr l → l ∉ label_list b) →
  _build_query b = Raise KeyError.
Proof.
  intros Ha Hne Himpl Ho Hkey. pose proof (accepted_parsed _ Ha) as Hp.
  assert (Hlen : length (alias_list b) = length (path b)).
  { rewrite (parsed_length _ Hp), <- (parsed_labels _ Hp). by rewrite length_fmap. }
  destruct (alias_list b) as [|first_alias als] eqn:Eal.
  { destruct (path b); [done|discriminate]. }
  assert (Hfa : alias_list b !! 0 = Some first_alias) by (by rewrite Eal).
  rewrite <- (joins_succeed b first_alias Ha) in Himpl. simpl in Himpl.
  destruct (for_each join_step _ _) as [e|s3] eqn:Hj; [discriminate|].
  apply joins_Return_inv with (q0 := session_query first_alias) in Hj as Hj';
    [|reflexivity|reflexivity].
  destruct Hj' as (He3 & Ho3 & q3 & Hq3 & Hw3). simpl in Ho3.
  destruct (_build_query_after_joins b first_alias s3 q3 Ha Hfa Hj He3 Ho3 Hq3 Hw3)
    as (s8 & q8 & -> & Hq8 & _ & _ & _ & _ & _ & Had8 & Ho8 & _).
  unfold build_order. rewrite Ho8, Ho. simpl. rewrite Ho8, Ho. simpl.
  destruct key as [| | |k| | |]; try reflexivity.
  rewrite Had8.
  destruct (alias_dict b !! k) as [a|] eqn:Ek; [|reflexivity].
  exfalso. apply (Hkey k eq_refl). apply (accepted_alias_keys _ Ha). eauto.
Qed.

(** An instance with an empty path, which the constructor returns for
    [{'path': []}], can neither be built nor extended by a chained
    operation: each of them ends in the [IndexError] of an index into an
    empty list. *)
Theorem empty_path_raises kwargs b :
  parsed b → path b = [] →
  _build_query b = Raise IndexError ∧
  inputs kwargs b = Raise IndexError ∧ outputs kwargs b = Raise IndexError ∧
  children kwargs b = Raise IndexError ∧ parents kwargs b = Raise IndexError.
Proof.
  intros Hp He.
  assert (Hl : label_list b = []).
  { rewrite <- (parsed_labels _ Hp), He. reflexivity. }
  assert (Hal : alias_list b = []).
  { apply length_zero_iff_nil. by rewrite (parsed_length _ Hp), Hl. }
  split.
  - unfold _build_query. rewrite Hl. simpl. rewrite Hal. reflexivity.
  - unfold inputs, outputs, children, parents, chain. rewrite Hl. done.
Qed.

End BuildTheorems2.

Section ChainTheorems.
Context `{Backend}.

Lemma started_fields b first_alias :
  alias_list b !! 0 = Some first_alias →
  started b = set_que (session_query first_alias)
                (set_labels_location_dict (make_labels_location_dict (label_list b)) b).
Proof. unfold started. destruct (alias_list b); [done|]. by intros [= ->]. Qed.

(** A vertex without joining keyword is joined to the vertex before it in
    the path, as one of its outputs. *)
Theorem default_edge_joins_predecessor b i v :
  accepted b → path b !! i = Some v → i ≠ 0 →
  vx_joining_value v = PInt 1 →
  ∃ a, alias_list b !! (i - 1) = Some a ∧
       _get_connecting_node (started b) v i = Return (a, JoinOutputs).
Proof.
  intros Ha Hv Hi Hd. pose proof (accepted_parsed _ Ha) as Hp.
  assert (Hlen : length (path b) = length (label_list b)).
  { rewrite <- (parsed_labels _ Hp). by rewrite length_fmap. }
  destruct (accepted_edges _ Ha i v Hv) as [_ [[Hk _]|(l & j & Hl & _)]];
    [|congruence].
  destruct (alias_list b !! (i - 1)) as [a|] eqn:E.
  - exists a. split; [reflexivity|].
    rewrite (_get_connecting_node_direction _ _ _ 1 Hk Hd).
    rewrite bool_decide_eq_true_2 by lia.
    replace (Z.of_nat i - 1)%Z with (Z.of_nat (i - 1)) by lia.
    destruct (alias_list b !! 0) as [first_alias|] eqn:E0.
    + rewrite (started_fields _ _ E0). simpl. by rewrite (py_index_nat _ _ _ E).
    + apply lookup_ge_None in E0. apply lookup_lt_Some in E. lia.
  - exfalso. apply lookup_ge_None in E. apply lookup_lt_Some in Hv.
    rewrite (parsed_length _ Hp) in E. lia.
Qed.

(** A vertex joined to a label is joined to the alias of the vertex that
    has this label, which is not later in the path, by the function that
    the keyword stands for. *)
Theorem label_target_resolves_to_its_alias b i v l f :
  accepted b → path b !! i = Some v → i ≠ 0 →
  vx_joining_value v = PStr l →
  (vx_joining_keyword v, Some f) ∈ _get_function_map →
  ∃ j a, j ≤ i ∧ label_list b !! j = Some l ∧ alias_dict b !! l = Some a ∧
         alias_list b !! j = Some a ∧
         _get_connecting_node (started b) v i = Return (a, f).
Proof.
  intros Ha Hv Hi Hl Hf. pose proof (accepted_parsed _ Ha) as Hp.
  destruct (accepted_edges _ Ha i v Hv) as [_ [[_ Hd]|(l' & j & Hl' & Hj & Hlook)]];
    [congruence|].
  rewrite Hl in Hl'. injection Hl' as <-.
  destruct (accepted_alias_lookup _ _ _ Ha Hlook) as (a & Had & Hja).
  exists j, a. split; [exact Hj|]. split; [exact Hlook|]. split; [exact Had|].
  split; [exact Hja|].
  destruct (alias_list b !! 0) as [first_alias|] eqn:E0.
  - rewrite (started_fields _ _ E0).
    erewrite _get_connecting_node_label;
      [|exact Hf|reflexivity|exact Hl|reflexivity
       |exact (make_labels_location_dict_lookup _ _ _ (parsed_NoDup _ Hp) Hlook)].
    simpl. by rewrite (py_index_nat _ _ _ Hja).
  - apply lookup_ge_None in E0. apply lookup_lt_Some in Hja. lia.
Qed.

(** A chained operation without arguments returns for every accepted
    instance with a vertex: it appends a vertex of type 'node' under the
    first free label [node_n], joined with the keyword of the operation to
    the last label of the path, and gives it an empty filter set. *)
Theorem chained_operation_appends keyword project b :
  accepted b → path b ≠ [] →
  keyword ∈ ["input_of"; "output_of"; "descendant_of"; "ancestor_of"] →
  ∃ b' label last_label,
    chain keyword {| ck_cls := None; ck_type := None; ck_label := None;
                     ck_filters := None; ck_project := project;
                     ck_kwargs := [] |} b = Return b' ∧
    last (label_list b) = Some last_label ∧
    autolabel "node" (label_list b) = Some label ∧
    path b' = path b ++ [ {| vx_type := "node"; vx_label := label;
                             vx_joining_keyword := keyword;
                             vx_joining_value := PStr last_label |} ] ∧
    filters b' = <[label := ∅]> (filters b).
Proof.
  intros Ha Hne Hk. pose proof (accepted_parsed _ Ha) as Hp.
  assert (Hll : label_list b ≠ []).
  { rewrite <- (parsed_labels _ Hp). by destruct (path b). }
  destruct (py_index_last_returns _ Hll) as (x & Hx & Hlast).
  destruct (autolabel_total "node" (label_list b)) as [label Hlabel].
  assert (Hfresh : label ∉ label_list b).
  { unfold autolabel in Hlabel. by eapply autolabel_loop_fresh. }
  assert (Hfn : filters b !! label = None).
  { destruct (filters b !! label) eqn:E; [|done].
    exfalso. apply Hfresh, (accepted_filter_keys _ Ha). eauto. }
  assert (Hpn : projections b !! label = None).
  { destruct (projections b !! label) eqn:E; [|done].
    exfalso. apply Hfresh, (accepted_projection_keys _ Ha). eauto. }
  unfold chain. rewrite Hx. simpl.
  unfold _add_to_path. simpl.
  assert (Hseg : last_type_segment "" = "") by reflexivity.
  rewrite Hseg. unfold choose_label. simpl. rewrite Hlabel. simpl.
  assert (Hkeys : keyword ∈ specification_to_function_map_keys).
  { unfold specification_to_function_map_keys. simpl.
    repeat (apply elem_of_cons in Hk as [->|Hk]); try (by apply elem_of_nil in Hk);
      repeat (first [apply list_elem_of_here | apply list_elem_of_further]). }
  rewrite (bool_decide_eq_true_2 _ Hkeys). simpl.
  assert (Hx' : x ∈ label_list b) by (by apply last_Some_elem_of).
  assert (Hnone : ∀ A, bool_decide (is_Some (@None A)) = false).
  { intros A. apply bool_decide_eq_false_2. by intros [? ?]. }
  assert (Hin : bool_decide (x ∈ label_list b ++ [label]) = true).
  { apply bool_decide_eq_true_2, elem_of_app. by left. }
  unfold init_filters, init_projections.
  destruct (bool_decide (is_Some (cls_to_label_map b !! AiidaNode))) eqn:Ecls;
    simpl; rewrite Hfn, Hnone; simpl; rewrite Hpn, Hnone; simpl;
    destruct project; simpl; rewrite Hin; simpl;
    eexists _, label, x; (split; [reflexivity|]); by split_and!.
Qed.

End ChainTheorems.


Section RoundTrip.
Context `{Backend}.


(** [_add_to_path] on a vertex as [get_dict] returns it. *)
Lemma _add_to_path_vertex s v tl :
  vx_type v ≠ "" → vx_label v ≠ "" →
  (vx_type v ∈ ["computer"; "group"] ∨ plugin_type_spec (vx_type v) ≠ "" ∨
   vx_type v = "node") →
  filters s !! vx_label v = None → projections s !! vx_label v = None →
  vx_joining_keyword v ∈ specification_to_function_map_keys →
  vx_joining_value v = PStr tl → tl ∈ label_list s ++ [vx_label v] →
  _add_to_path (kw_of_vertex v) s =
    Return (vx_label v,
            added_vertex (kw_of_vertex v) s (vx_type v) (vx_label v)
              (type_filter_of (vx_type v) ∅) (PList [])
              (vx_joining_keyword v) (PStr tl)).
Proof.
  intros Ht Hl Hty Hfn Hpn Hk Hv Htl.
  unfold _add_to_path, resolve_type, choose_label. simpl.
  apply String.eqb_neq in Ht, Hl. rewrite Ht. simpl. rewrite Hl. simpl.
  assert (Hnone : ∀ A, bool_decide (is_Some (@None A)) = false).
  { intros A. apply bool_decide_eq_false_2. by intros [? ?]. }
  unfold init_filters, init_projections. simpl.
  rewrite Hfn, Hnone. simpl. rewrite Hpn, Hnone. simpl.
  rewrite (bool_decide_eq_true_2 _ Hk). simpl.
  rewrite Hv.
  assert (Hin : bool_decide (tl ∈ label_list s ++ [vx_label v]) = true)
    by (by apply bool_decide_eq_true_2).
  unfold inject_type_filter, type_filter_of.
  destruct (bool_decide (vx_type v ∈ ["computer"; "group"])) eqn:Hcg; simpl.
  - rewrite Hin. simpl. reflexivity.
  - destruct (String.eqb (plugin_type_spec (vx_type v)) "") eqn:Ep; simpl.
    + apply bool_decide_eq_false_1 in Hcg.
      destruct Hty as [Hty|[Hty|Hty]]; [done| |].
      { apply String.eqb_neq in Hty. congruence. }
      rewrite Hty. simpl. rewrite Hin. simpl.
      unfold added_vertex. simpl. reflexivity.
    + rewrite Hin. simpl.
      unfold added_vertex, set_path, add_alias, set_filters. simpl. do 2 f_equal.
      rewrite lookup_insert_eq. simpl. rewrite (right_id ∅ (∪)).
      rewrite insert_insert_eq. by rewrite insert_empty.
Qed.


Lemma rebuild_path vs : ∀ pre s,
  rebuilt pre s →
  NoDup (vx_label <$> (pre ++ vs)) →
  Forall vertex_ok vs →
  (∀ i v, vs !! i = Some v →
     ∃ tl, vx_joining_value v = PStr tl ∧ tl ∈ vx_label <$> (pre ++ take (S i) vs)) →
  ∃ s', for_each add_path_spec ((λ v, PSDict (kw_of_vertex v)) <$> vs) s = Return s' ∧
        rebuilt (pre ++ vs) s'.
Proof.
  induction vs as [|v vs IH]; intros pre s Hs Hnd Hok Htl; simpl.
  - exists s. split; [reflexivity|]. by rewrite app_nil_r.
  - destruct Hs as (Hpath & Hlab & Hfk & Hpk & Hpre).
    apply Forall_cons in Hok as [(Ht & Hl & Hty & Hk) Hok].
    destruct (Htl 0 v eq_refl) as (tl & Hv & Hin).
    rewrite fmap_app, NoDup_app in Hnd. destruct Hnd as (Hnd1 & Hnd2 & Hnd3).
    assert (Hfresh : vx_label v ∉ vx_label <$> pre).
    { intros Hc. apply (Hnd2 _ Hc). simpl. apply list_elem_of_here. }
    assert (Hfn : filters s !! vx_label v = None).
    { destruct (filters s !! vx_label v) eqn:E; [|done]. exfalso. apply Hfresh, Hfk. eauto. }
    assert (Hpn : projections s !! vx_label v = None).
    { destruct (projections s !! vx_label v) eqn:E; [|done].
      exfalso. apply Hfresh, Hpk. eauto. }
    rewrite (_add_to_path_vertex s v tl Ht Hl Hty Hfn Hpn Hk Hv).
    2:{ rewrite Hlab. simpl in Hin. rewrite take_0, fmap_app in Hin. exact Hin. }
    simpl.
    match goal with
    | |- context [for_each _ _ ?s1] =>
        destruct (IH (pre ++ [v]) s1) as (s' & Hs' & Hr)
    end.
    + assert (Hveq : {| vx_type := vx_type v; vx_label := vx_label v;
                        vx_joining_keyword := vx_joining_keyword v;
                        vx_joining_value := PStr tl |} = v).
      { destruct v; simpl in *. by subst. }
      split; [simpl; by rewrite Hpath, Hveq|].
      split; [simpl; by rewrite Hlab, fmap_app|].
      split.
      { intros l Hl'. simpl in Hl'. rewrite fmap_app. apply elem_of_app.
        destruct (decide (l = vx_label v)) as [->|Hne].
        - right. apply list_elem_of_here.
        - left. rewrite lookup_insert_ne in Hl' by done. by apply Hfk. }
      split.
      { intros l Hl'. simpl in Hl'. rewrite fmap_app. apply elem_of_app.
        destruct (decide (l = vx_label v)) as [->|Hne].
        - right. apply list_elem_of_here.
        - left. rewrite lookup_insert_ne in Hl' by done. by apply Hpk. }
      intros w Hw. simpl. apply elem_of_app in Hw as [Hw|Hw].
      * assert (vx_label v ≠ vx_label w).
        { intros Hc. apply Hfresh. rewrite Hc. apply list_elem_of_fmap. by exists w. }
        rewrite !lookup_insert_ne by done. by apply Hpre.
      * apply list_elem_of_singleton in Hw as ->.
        rewrite !lookup_insert_eq. split; [reflexivity|eauto].
    + rewrite <- app_assoc. simpl. rewrite fmap_app. apply NoDup_app.
      by split_and!.
    + exact Hok.
    + intros i w Hw. destruct (Htl (S i) w Hw) as (tl' & Hv' & Hin').
      exists tl'. split; [exact Hv'|]. by rewrite <- app_assoc.
    + exists s'. split; [exact Hs'|]. by rewrite <- app_assoc in Hr.
Qed.


Lemma set_projections_same s : set_projections (projections s) s = s.
Proof. by destruct s. Qed.

Lemma set_filters_same s : set_filters (filters s) s = s.
Proof. by destruct s. Qed.

(** The loop over the items of 'project' when every key is a label. *)
Lemma reproject items : ∀ s,
  (∀ kv, kv ∈ items → kv.1 ∈ label_list s) →
  for_each (λ kv, _add_projection kv.1 kv.2)
    ((λ kv : string * PyVal, (PStr kv.1, kv.2)) <$> items) s
  = Return (set_projections
              (foldl (λ m kv, <[kv.1 := kv.2]> m) (projections s) items) s).
Proof.
  induction items as [|[l p] items IH]; intros s Hin; simpl.
  - by rewrite set_projections_same.
  - unfold _add_projection. simpl.
    rewrite bool_decide_eq_true_2 by (apply (Hin (l, p)), list_elem_of_here).
    simpl. rewrite IH.
    + reflexivity.
    + intros kv Hkv. simpl. apply Hin. by apply list_elem_of_further.
Qed.

(** The loop over the items of 'filters' when every key is a label with a
    filter set. *)
Lemma refilter items : ∀ s,
  (∀ kv, kv ∈ items → kv.1 ∈ label_list s) →
  (∀ l, l ∈ label_list s → is_Some (filters s !! l)) →
  for_each (λ kv, _add_filter kv.1 kv.2)
    ((λ kv : string * FilterSpec, (PStr kv.1, kv.2)) <$> items) s
  = Return (set_filters
              (foldl (λ m kv, <[kv.1 := kv.2 ∪ default ∅ (m !! kv.1)]> m)
                 (filters s) items) s).
Proof.
  induction items as [|[l f] items IH]; intros s Hin Hfs; simpl.
  - by rewrite set_filters_same.
  - unfold _add_filter. simpl.
    assert (Hl : l ∈ label_list s) by (apply (Hin (l, f)), list_elem_of_here).
    rewrite bool_decide_eq_true_2 by exact Hl.
    destruct (Hfs l Hl) as [old Hold]. rewrite Hold. simpl. rewrite IH.
    + reflexivity.
    + intros kv Hkv. simpl. apply Hin. by apply list_elem_of_further.
    + intros l' Hl'. simpl in *.
      destruct (decide (l' = l)) as [->|Hne].
      * rewrite lookup_insert_eq. eauto.
      * rewrite lookup_insert_ne by done. by apply Hfs.
Qed.

Lemma foldl_insert_lookup (items : list (string * PyVal)) :
  NoDup items.*1 → ∀ (m : gmap string PyVal) l,
  foldl (λ m kv, <[kv.1 := kv.2]> m) m items !! l =
    match (list_to_map items : gmap string PyVal) !! l with
    | Some x => Some x
    | None => m !! l
    end.
Proof.
  induction items as [|[k x] items IH]; intros Hnd m l; simpl; [done|].
  apply NoDup_cons in Hnd as [Hk Hnd]. rewrite IH by exact Hnd.
  destruct (decide (l = k)) as [->|Hne].
  - rewrite (not_elem_of_list_to_map_1 _ _ Hk). by rewrite !lookup_insert_eq.
  - by rewrite !lookup_insert_ne.
Qed.

Lemma foldl_update_lookup (items : list (string * FilterSpec)) :
  NoDup items.*1 → ∀ (m : gmap string FilterSpec) l,
  foldl (λ m kv, <[kv.1 := kv.2 ∪ default ∅ (m !! kv.1)]> m) m items !! l =
    match (list_to_map items : gmap string FilterSpec) !! l with
    | Some f => Some (f ∪ default ∅ (m !! l))
    | None => m !! l
    end.
Proof.
  induction items as [|[k x] items IH]; intros Hnd m l; simpl; [done|].
  apply NoDup_cons in Hnd as [Hk Hnd]. rewrite IH by exact Hnd.
  destruct (decide (l = k)) as [->|Hne].
  - rewrite (not_elem_of_list_to_map_1 _ _ Hk). by rewrite !lookup_insert_eq.
  - by rewrite !lookup_insert_ne.
Qed.

(** A filter set that has the key 'type' where the type string has a
    prefix absorbs the filter that [_add_to_path] injects. *)
Lemma union_type_filter_of type (f : FilterSpec) :
  (type ∉ ["computer"; "group"] → plugin_type_spec type ≠ "" →
   is_Some (f !! "type")) →
  f ∪ type_filter_of type ∅ = f.
Proof.
  intros Hkey. unfold type_filter_of.
  case_bool_decide as Hcg; [apply (right_id ∅ (∪))|].
  destruct (String.eqb (plugin_type_spec type) "") eqn:Ep; [apply (right_id ∅ (∪))|].
  apply String.eqb_neq in Ep. destruct (Hkey Hcg Ep) as [x Hx].
  apply map_eq. intros k. destruct (f !! k) as [y|] eqn:Ek.
  - by apply lookup_union_Some_l.
  - rewrite lookup_union_r by exact Ek.
    rewrite lookup_insert_ne by (intros <-; congruence). apply lookup_empty.
Qed.


Lemma forallb_false_elem {A} (f : A → bool) (l : list A) :
  forallb f l = false → ∃ x, x ∈ l ∧ f x = false.
Proof.
  induction l as [|x l IH]; simpl; [discriminate|].
  destruct (f x) eqn:E; simpl.
  - intros Hl. destruct (IH Hl) as (y & Hy & Hfy).
    exists y. split; [by apply list_elem_of_further|exact Hfy].
  - intros _. exists x. split; [apply list_elem_of_here|exact E].
Qed.

(** The queryhelp that [get_dict] returns is accepted again exactly when
    every vertex of the path names its target: a vertex without joining
    keyword is written as ['direction': 1], which the constructor refuses.
    When it is accepted, the new instance has the same path, labels,
    filters, projections, limit and order. *)
Theorem get_dict_round_trip b :
  accepted b → make_json_compatible (order_by b) = Return (order_by b) →
  succeeds (__init__ (get_dict b)) = forallb names_target (path b) ∧
  ∀ b', __init__ (get_dict b) = Return b' →
        path b' = path b ∧ label_list b' = label_list b ∧
        filters b' = filters b ∧ projections b' = projections b ∧
        limit b' = limit b ∧ order_by b' = order_by b.
Proof.
  intros Ha Ho. pose proof (accepted_parsed _ Ha) as Hp.
  destruct (forallb names_target (path b)) eqn:Hall.
  - rewrite forallb_forall in Hall.
    destruct (rebuild_path (path b) [] new_QB) as (s1 & Hs1 & Hr).
    { split; [reflexivity|]. split; [reflexivity|].
      split; [intros l [x Hx]; simpl in Hx; by rewrite lookup_empty in Hx|].
      split; [intros l [x Hx]; simpl in Hx; by rewrite lookup_empty in Hx|].
      intros v Hv. by apply elem_of_nil in Hv. }
    { simpl. rewrite (parsed_labels _ Hp). apply (parsed_NoDup _ Hp). }
    { apply Forall_forall. intros v Hv.
      destruct (accepted_types _ Ha v Hv) as (Ht & Hl & Hty).
      apply list_elem_of_lookup in Hv as [i Hi].
      destruct (accepted_edges _ Ha i v Hi) as [Hk _]. by split_and!. }
    { intros i v Hi. simpl.
      destruct (accepted_edges _ Ha i v Hi) as [_ [[_ Hd]|(l & j & Hl & Hj & Hlook)]].
      - assert (Hv : In v (path b)).
        { apply list_elem_of_In, list_elem_of_lookup. eauto. }
        apply Hall in Hv. unfold names_target in Hv. by rewrite Hd in Hv.
      - exists l. split; [exact Hl|]. apply list_elem_of_lookup. exists j.
        rewrite fmap_take, (parsed_labels _ Hp). rewrite lookup_take_lt by lia.
        exact Hlook. }
    simpl in Hr. destruct Hr as (Hpath & Hlab & Hfk & Hpk & Hpre).
    rewrite (parsed_labels _ Hp) in Hlab, Hfk, Hpk.
    assert (Hvert : ∀ l, l ∈ label_list b → ∃ v, v ∈ path b ∧ vx_label v = l).
    { intros l Hl. rewrite <- (parsed_labels _ Hp) in Hl.
      apply list_elem_of_fmap in Hl as (v & -> & Hv). eauto. }
    assert (Hinit : __init__ (get_dict b) =
      Return (set_order_by (order_by b) (set_limit (limit b)
        (set_filters
           (foldl (λ m kv, <[kv.1 := kv.2 ∪ default ∅ (m !! kv.1)]> m)
              (filters s1) (map_to_list (filters b)))
           (set_projections
              (foldl (λ m kv, <[kv.1 := kv.2]> m) (projections s1)
                 (map_to_list (projections b))) s1))))).
    { assert (Hitems : path_items (qh_path (get_dict b))
                       = (λ v, PSDict (kw_of_vertex v)) <$> path b) by reflexivity.
      assert (Hproj : qh_project (get_dict b)
                      = (λ kv : string * PyVal, (PStr kv.1, kv.2))
                          <$> map_to_list (projections b)) by reflexivity.
      assert (Hfilt : qh_filters (get_dict b)
                      = (λ kv : string * FilterSpec, (PStr kv.1, kv.2))
                          <$> map_to_list (filters b)) by reflexivity.
      unfold __init__. rewrite Hitems, Hproj, Hfilt, Hs1. simpl.
      rewrite reproject.
      2:{ intros [l p] Hlp. simpl. rewrite Hlab.
          apply elem_of_map_to_list in Hlp.
          apply (accepted_projection_keys _ Ha). eauto. }
      simpl. rewrite refilter.
      2:{ intros [l f] Hlf. simpl. rewrite Hlab.
          apply elem_of_map_to_list in Hlf.
          apply (accepted_filter_keys _ Ha). eauto. }
      2:{ intros l Hl. simpl in *. rewrite Hlab in Hl.
          destruct (Hvert l Hl) as (v & Hv & <-).
          destruct (Hpre v Hv) as [-> _]. eauto. }
      simpl. rewrite Ho. reflexivity. }
    rewrite Hinit. split; [reflexivity|].
    intros b' [= <-]. simpl.
    split; [exact Hpath|]. split; [exact Hlab|].
    split; [|split; [|by split]].
    + apply map_eq. intros l.
      rewrite foldl_update_lookup by apply NoDup_fst_map_to_list.
      rewrite list_to_map_to_list.
      destruct (filters b !! l) as [f|] eqn:Ef.
      * assert (Hl : l ∈ label_list b) by (apply (accepted_filter_keys _ Ha); eauto).
        destruct (Hvert l Hl) as (v & Hv & <-).
        destruct (Hpre v Hv) as [-> _]. simpl. f_equal.
        apply union_type_filter_of. intros Hcg Hspec.
        destruct (accepted_type_key _ Ha v Hv Hcg Hspec) as (f' & Hf' & Hkey).
        congruence.
      * destruct (filters s1 !! l) eqn:E1; [|done]. exfalso.
        assert (Hl : l ∈ label_list b) by (apply Hfk; eauto).
        destruct (parsed_filters _ Hp l Hl) as [f Hf]. congruence.
    + apply map_eq. intros l.
      rewrite foldl_insert_lookup by apply NoDup_fst_map_to_list.
      rewrite list_to_map_to_list.
      destruct (projections b !! l) as [p|] eqn:Epr; [done|].
      destruct (projections s1 !! l) eqn:E1; [|done]. exfalso.
      assert (Hl : l ∈ label_list b) by (apply Hpk; eauto).
      apply (accepted_projection_keys _ Ha) in Hl as [p' Hp']. congruence.
  - destruct (forallb_false_elem _ _ Hall) as (v & Hv & Hn).
    assert (Hd : vx_joining_value v = PInt 1).
    { apply list_elem_of_lookup in Hv as [i Hi].
      destruct (accepted_edges _ Ha i v Hi) as [_ [[_ Hd]|(l & j & Hl & _)]];
        [exact Hd|].
      unfold names_target in Hn. by rewrite Hl in Hn. }
    pose proof (get_dict_rejected b v 1 Hv Hd) as Hrej.
    destruct (__init__ (get_dict b)) as [e|b0] eqn:E.
    + split; [reflexivity|]. intros b' Hb'. discriminate.
    + exfalso. by apply (Hrej b0).
Qed.

End RoundTrip.


Section NoValidation.
Context `{Backend}.

Lemma bind_Raise {A B} (m : Result A) (k : A → Result B) e :
  m ≫= k = Raise e → m = Raise e ∨ ∃ a, m = Return a ∧ k a = Raise e.
Proof. destruct m as [e'|a]; simpl; [intros [= ->]; by left|eauto]. Qed.

Lemma for_each_Raise {A} (body : A → QB → Result QB) xs : ∀ s e,
  for_each body xs s = Raise e → ∃ x s', x ∈ xs ∧ body x s' = Raise e.
Proof.
  induction xs as [|x xs IH]; intros s e Hr; simpl in Hr; [discriminate|].
  apply bind_Raise in Hr as [Hr|(s1 & _ & Hr)].
  - exists x, s. split; [apply list_elem_of_here|exact Hr].
  - destruct (IH _ _ Hr) as (y & s' & Hy & Hr'). exists y, s'.
    split; [by apply list_elem_of_further|exact Hr'].
Qed.

Lemma py_index_Raise {A} (l : list A) i e : py_index l i = Raise e → e = IndexError.
Proof. unfold py_index. intros Hr. repeat case_match; congruence. Qed.

Lemma _get_connecting_node_Raise s v i e :
  _get_connecting_node s v i = Raise e → is_validation e = false.
Proof.
  unfold _get_connecting_node. intros Hr.
  apply bind_Raise in Hr as [Hr|([func val] & _ & Hr)].
  - repeat case_match; simplify_eq;
      try (apply bind_Raise in Hr as [Hr|([f z] & _ & Hr)]; [|discriminate]);
      unfold resolve_direction in Hr; repeat case_match; by simplify_eq.
  - repeat case_match; simplify_eq; try done;
      (apply bind_Raise in Hr as [Hr|(a & _ & Hr)];
         [apply py_index_Raise in Hr; by subst|repeat case_match; by simplify_eq]).
Qed.

Lemma call_join_Raise f t a s e :
  call_join f t a s = Raise e → is_validation e = false.
Proof.
  destruct f; simpl;
    unfold _join_inputs, _join_outputs, _join_slaves, _join_masters,
      _join_ancestors, _join_descendants, _join_groups, _join_group_members,
      _join_computer_used, join_twice, get_que; simpl;
    intros Hr; destruct (que s); simpl in Hr; by simplify_eq.
Qed.

Lemma join_step_Raise item s e :
  join_step item s = Raise e → is_validation e = false.
Proof.
  destruct item as [[i a] v]. unfold join_step. case_bool_decide; [discriminate|].
  intros Hr. apply bind_Raise in Hr as [Hr|([t f] & _ & Hr)].
  - by eapply _get_connecting_node_Raise.
  - by eapply call_join_Raise.
Qed.

Lemma order_columns_Raise alias val : ∀ s e,
  order_columns alias val s = Raise e → is_validation e = false.
Proof.
  induction val as [|c val IH]; intros s e Hr; simpl in Hr; [discriminate|].
  apply bind_Raise in Hr as [Hr|(c' & _ & Hr)].
  - unfold get_column in Hr. repeat case_match; by simplify_eq.
  - apply bind_Raise in Hr as [Hr|(q & _ & Hr)].
    + unfold get_que in Hr. repeat case_match; by simplify_eq.
    + by eapply IH.
Qed.

Lemma build_order_Raise s msg :
  build_order s = Raise (InputValidationError msg) →
  msg = "Invalid input for order_by statement" ∧ py_truthy (order_by s) = true.
Proof.
  unfold build_order. intros Hr.
  destruct (py_truthy (order_by s)); [|discriminate]. split; [|reflexivity].
  apply for_each_Raise in Hr as (spec & s' & _ & Hr).
  unfold order_spec_step in Hr.
  destruct spec; try (by injection Hr as <-).
  apply for_each_Raise in Hr as ([key val] & s2 & _ & Hr).
  unfold order_item in Hr. repeat case_match; try discriminate.
  by apply order_columns_Raise in Hr.
Qed.

End NoValidation.
Section MoreTheorems.
Context `{Backend}.

(** Of the three [InputValidationError]s of [_build_query] only the one
    about [order_by] can occur for an accepted instance: the labels are
    unique and every label with a filter has an alias. *)
Theorem _build_query_validation_error b msg :
  accepted b → _build_query b = Raise (InputValidationError msg) →
  msg = "Invalid input for order_by statement" ∧ py_truthy (order_by b) = true.
Proof.
  intros Ha Hr. pose proof (accepted_parsed _ Ha) as Hp.
  pose proof Hr as Hr0. unfold _build_query in Hr.
  rewrite bool_decide_eq_true_2 in Hr by apply (parsed_NoDup _ Hp).
  simpl negb in Hr. cbv iota in Hr.
  apply bind_Raise in Hr as [Hr|(first_alias & Hfa & Hr)].
  { by apply py_index_Raise in Hr. }
  simpl in Hfa. apply py_index_0 in Hfa.
  apply bind_Raise in Hr as [Hr|(s3 & Hj & _)].
  { apply for_each_Raise in Hr as (item & s' & _ & Hr).
    by apply join_step_Raise in Hr. }
  apply joins_Return_inv with (q0 := session_query first_alias) in Hj as Hj';
    [|reflexivity|reflexivity].
  destruct Hj' as (He3 & Ho3 & q3 & Hq3 & Hw3). simpl in Ho3.
  destruct (_build_query_after_joins b first_alias s3 q3 Ha Hfa Hj He3 Ho3 Hq3 Hw3)
    as (s8 & q8 & Hnf & Hq8 & _ & _ & _ & _ & _ & _ & Ho8 & _).
  rewrite Hnf in Hr0.
  apply bind_Raise in Hr0 as [Hr0|(s9 & Hord & Hr0)].
  { apply build_order_Raise in Hr0. by rewrite Ho8 in Hr0. }
  apply build_order_emits in Hord; [|eauto].
  apply emits_inv in Hord as (q8' & q9 & _ & Hq9 & _).
  exfalso. unfold get_que in Hr0.
  destruct (py_truthy (limit s9)); simpl in Hr0; rewrite Hq9 in Hr0; discriminate.
Qed.

(** Two keywords that mirror each other put the same conditions on the
    table between the two vertices: joining [y] as an output (descendant,
    member) of [x] and joining [x] as an input (ancestor, group) of [y]
    differ in the order of the two joins and in the sides of an equation
    only. *)
Theorem mirrored_joins_same_conditions self x y q :
  que self = Some q →
  Forall (λ fg : JoinFunc * JoinFunc,
            ∃ s1 s2 q1 q2,
              call_join fg.1 x y self = Return s1 ∧ que s1 = Some q1 ∧
              call_join fg.2 y x self = Return s2 ∧ que s2 = Some q2 ∧
              Forall2 same_condition (new_conditions q q1)
                                     (reverse (new_conditions q q2)))
    [ (JoinOutputs, JoinInputs); (JoinDescendants, JoinAncestors);
      (JoinGroupMembers, JoinGroups) ].
Proof.
  intros Hq.
  assert (Hdrop : ∀ js, drop (length (q_joins q)) (q_joins q ++ js) = js).
  { intros js. by rewrite drop_app_length. }
  repeat apply Forall_cons_2; [| | |apply Forall_nil_2]; simpl;
    unfold _join_inputs, _join_outputs, _join_ancestors, _join_descendants,
      _join_groups, _join_group_members, join_twice, get_que; simpl;
    rewrite Hq; simpl;
    eexists _, _, _, _; (split; [reflexivity|]); (split; [reflexivity|]);
    (split; [reflexivity|]); (split; [reflexivity|]);
    unfold new_conditions; simpl; rewrite <- !app_assoc, !Hdrop; simpl;
    repeat constructor; by right.
Qed.

(** Keys of the queryhelp other than 'path', 'project', 'filters', 'limit'
    and 'order_by' are refused, but only at the end of the constructor:
    the error of a queryhelp that is refused without them comes first. *)
Theorem other_keys_refused_last queryhelp :
  qh_other_keys queryhelp ≠ [] →
  __init__ queryhelp =
    match __init__ (without_other_keys queryhelp) with
    | Return _ => Raise (InputValidationError "Received additional keywords")
    | Raise e => Raise e
    end.
Proof.
  intros Hne. unfold __init__. simpl.
  rewrite (bool_decide_eq_false_2 _ Hne).
  destruct (for_each add_path_spec _ _) as [e|s1]; [reflexivity|]. simpl.
  destruct (for_each _ (qh_project queryhelp) s1) as [e|s2]; [reflexivity|]. simpl.
  destruct (for_each _ (qh_filters queryhelp) s2) as [e|s3]; [reflexivity|]. simpl.
  destruct (make_json_compatible _) as [e|o]; reflexivity.
Qed.

(** A vertex takes one joining keyword at most: with two or more keyword
    arguments besides 'cls', 'type', 'label', 'autolabel', 'filters' and
    'project' the call of [_add_to_path] does not return. *)
Theorem second_joining_keyword_refused kw self :
  2 ≤ length (kw_kwargs kw) →
  succeeds (_add_to_path kw self) = false.
Proof.
  intros Hlen. destruct (_add_to_path kw self) as [e|[label self']] eqn:E;
    [reflexivity|exfalso].
  apply _add_to_path_Return in E
    as (type & olabel & f0 & p & j & _ & _ & _ & _ & _ & _ & _ & Hj & _).
  destruct (kw_kwargs kw) as [|[k v] [|kv rest]]; simpl in Hlen; try lia.
  simpl in Hj. destruct (negb _); [discriminate|].
  destruct kv as [k' v']. repeat case_match; discriminate.
Qed.

End MoreTheorems.
